(** * Voice of Hadhramaut: the client-side resilience layer

    A shallow embedding of the services of the browser client that carry
    state across an unreliable network:

    - [Analytics]: the event queue of [AnalyticsSystem] ([addToQueue],
      [flushQueue], the tracking calls and [init]);
    - [Api]: the request gateway of [ApiManager] ([request], its
      continuation, [fetchWithRetry], [handleResponse], [healthCheck]);
    - [Sync]: [LocalDataService] and [SyncService] ([saveOfflineData],
      [saveUserResponse], [syncOfflineData], [syncUserResponses],
      [syncAllData]);
    - [Auth]: the login form, the lock on failed attempts and the session of
      [AuthenticationSystem];
    - [Session]: the session record of [AnalyticsSystem];
    - [Tracker]: the local record of events of [ApiManager.trackEvent].

    JavaScript runs these on one thread: an [async] function runs without
    interruption up to its next [await].  Each [async] function is therefore
    split at its awaits: the part that runs at the call returns the new world
    and, when it suspends, the continuation's captured variables; a second
    function resumes that continuation with the outcome of the awaited call.
    The browser objects the code reads ([navigator.onLine], [Date.now()],
    [localStorage], the transport) are fields of the world or arguments.
    Reads and writes of [localStorage] and the decoding of a response body
    are taken to succeed; console output is left out, and the session record
    of the analytics module is kept apart from its queue. *)

From stdpp Require Import gmap strings list fin_maps pretty.
From Stdlib Require Import ZArith Lia.

Local Open Scope string_scope.
Local Open Scope list_scope.

(** ** AnalyticsSystem *)

Module Analytics.

(** An entry of [state.eventQueue]; [data] stands for the serialised payload. *)
Record Event := mkEvent {
  type : string;
  category : string;
  action : string;
  label : option string;
  data : string
}.

(** [state.surveyInteractions[surveyId]]. *)
Record Interaction := mkInteraction {
  views : nat;
  starts : nat;
  completes : nat;
  lastInteraction : option string
}.

(** The module's [config] and [state] objects together with the browser
    objects they are used with. *)
Record World := mkWorld {
  (* config *)
  trackingEnabled : bool;
  respectDNT : bool;
  maxQueueSize : nat;
  (* state *)
  eventQueue : list Event;
  isFlushing : bool;
  pageViewCount : nat;
  currentPage : option string;
  previousPage : option string;
  surveyInteractions : gmap string Interaction;
  (* browser *)
  storedQueue : option (list Event);   (* localStorage[config.storageKey] *)
  online : bool;                       (* navigator.onLine *)
  doNotTrack : option string;          (* navigator.doNotTrack *)
  listening : bool;                    (* listeners and the flush timer installed *)
  sent : list (list Event);            (* batches handed to ApiManager.request *)
  sendBeacon : bool;                   (* the browser has navigator.sendBeacon *)
  beacons : list (list Event)          (* queues handed to navigator.sendBeacon *)
}.

Definition set_trackingEnabled (b : bool) (w : World) : World :=
  mkWorld b (respectDNT w) (maxQueueSize w) (eventQueue w) (isFlushing w)
    (pageViewCount w) (currentPage w) (previousPage w) (surveyInteractions w)
    (storedQueue w) (online w) (doNotTrack w) (listening w) (sent w)
    (sendBeacon w) (beacons w).

Definition set_eventQueue (q : list Event) (w : World) : World :=
  mkWorld (trackingEnabled w) (respectDNT w) (maxQueueSize w) q (isFlushing w)
    (pageViewCount w) (currentPage w) (previousPage w) (surveyInteractions w)
    (storedQueue w) (online w) (doNotTrack w) (listening w) (sent w)
    (sendBeacon w) (beacons w).

Definition set_isFlushing (b : bool) (w : World) : World :=
  mkWorld (trackingEnabled w) (respectDNT w) (maxQueueSize w) (eventQueue w) b
    (pageViewCount w) (currentPage w) (previousPage w) (surveyInteractions w)
    (storedQueue w) (online w) (doNotTrack w) (listening w) (sent w)
    (sendBeacon w) (beacons w).

Definition set_page (url : string) (w : World) : World :=
  mkWorld (trackingEnabled w) (respectDNT w) (maxQueueSize w) (eventQueue w)
    (isFlushing w) (S (pageViewCount w)) (Some url) (currentPage w)
    (surveyInteractions w) (storedQueue w) (online w) (doNotTrack w)
    (listening w) (sent w)
    (sendBeacon w) (beacons w).

Definition set_surveyInteractions (m : gmap string Interaction) (w : World) : World :=
  mkWorld (trackingEnabled w) (respectDNT w) (maxQueueSize w) (eventQueue w)
    (isFlushing w) (pageViewCount w) (currentPage w) (previousPage w) m
    (storedQueue w) (online w) (doNotTrack w) (listening w) (sent w)
    (sendBeacon w) (beacons w).

Definition set_storedQueue (s : option (list Event)) (w : World) : World :=
  mkWorld (trackingEnabled w) (respectDNT w) (maxQueueSize w) (eventQueue w)
    (isFlushing w) (pageViewCount w) (currentPage w) (previousPage w)
    (surveyInteractions w) s (online w) (doNotTrack w) (listening w) (sent w)
    (sendBeacon w) (beacons w).

Definition set_online (b : bool) (w : World) : World :=
  mkWorld (trackingEnabled w) (respectDNT w) (maxQueueSize w) (eventQueue w)
    (isFlushing w) (pageViewCount w) (currentPage w) (previousPage w)
    (surveyInteractions w) (storedQueue w) b (doNotTrack w) (listening w) (sent w)
    (sendBeacon w) (beacons w).

Definition set_listening (b : bool) (w : World) : World :=
  mkWorld (trackingEnabled w) (respectDNT w) (maxQueueSize w) (eventQueue w)
    (isFlushing w) (pageViewCount w) (currentPage w) (previousPage w)
    (surveyInteractions w) (storedQueue w) (online w) (doNotTrack w) b (sent w)
    (sendBeacon w) (beacons w).

Definition log_sent (batch : list Event) (w : World) : World :=
  mkWorld (trackingEnabled w) (respectDNT w) (maxQueueSize w) (eventQueue w)
    (isFlushing w) (pageViewCount w) (currentPage w) (previousPage w)
    (surveyInteractions w) (storedQueue w) (online w) (doNotTrack w)
    (listening w) (sent w ++ [batch]) (sendBeacon w) (beacons w).

Definition log_beacon (queue : list Event) (w : World) : World :=
  mkWorld (trackingEnabled w) (respectDNT w) (maxQueueSize w) (eventQueue w)
    (isFlushing w) (pageViewCount w) (currentPage w) (previousPage w)
    (surveyInteractions w) (storedQueue w) (online w) (doNotTrack w)
    (listening w) (sent w) (sendBeacon w) (beacons w ++ [queue]).

(** The module as it is loaded: the literal [config] and [state], an empty
    store, a browser that has [navigator.sendBeacon]. *)
Definition initial (onLine : bool) (dnt : option string) : World :=
  mkWorld true true 100 [] false 0 None None ∅ None onLine dnt false [] true [].

(** [saveQueue]: mirror the live queue to the store. *)
Definition saveQueue (w : World) : World :=
  set_storedQueue (Some (eventQueue w)) w.

(** [clearQueueStorage]. *)
Definition clearQueueStorage (w : World) : World :=
  set_storedQueue None w.

(** [loadQueue]: rebuild the live queue from the store, when there is one. *)
Definition loadQueue (w : World) : World :=
  match storedQueue w with
  | Some evs => set_eventQueue evs w
  | None => w
  end.

(** The [beforeunload] listener that [setupAutoFlush] installs: a queue that
    is not empty is handed to [navigator.sendBeacon], when the browser has
    it, and the stored copy is removed; the queue in memory stays as it is.
    What [sendBeacon] returns is not looked at. *)
Definition beforeunload (w : World) : World :=
  if listening w && negb (bool_decide (length (eventQueue w) = 0)) && sendBeacon w
  then clearQueueStorage (log_beacon (eventQueue w) w)
  else w.

(** [isCriticalEvent]: [criticalActions.includes(event.action) ||
    event.category === config.eventCategories.ERROR]. *)
Definition isCriticalEvent (e : Event) : bool :=
  bool_decide (action e ∈ ["submit"; "complete"; "error"])
  || bool_decide (category e = "error").

(** What the awaited [ApiManager.request] gives back to [flushQueue]: a
    response whose [success] property is truthy or not, or a rejection (the
    gateway throws on a transport fault and on a non-2xx status). *)
Inductive Delivery :=
  | Resolved (success : bool)
  | Rejected.

(** [flushQueue] up to its await.  Offline there is no await and the whole
    body, [finally] included, runs at the call.  Online the batch is handed to
    the gateway and the function suspends holding [eventsToSend]. *)
Definition flushQueue (w : World) : World * option (list Event) :=
  if isFlushing w || bool_decide (length (eventQueue w) = 0) then (w, None)
  else
    let w1 := set_isFlushing true w in
    let eventsToSend := eventQueue w1 in
    let w2 := set_eventQueue [] w1 in
    if online w2 then
      (log_sent eventsToSend w2, Some eventsToSend)
    else
      let w3 := set_eventQueue (eventsToSend ++ eventQueue w2) w2 in
      let w4 := saveQueue w3 in
      (set_isFlushing false w4, None).

(** [flushQueue] after its await: the [if (response.success)] branches, the
    [catch] block and the [finally] block. *)
Definition flushQueue_resume (eventsToSend : list Event) (d : Delivery)
    (w : World) : World :=
  let w' :=
    match d with
    | Resolved true => clearQueueStorage w
    | Resolved false =>
        saveQueue (set_eventQueue (eventsToSend ++ eventQueue w) w)
    | Rejected => saveQueue w
    end in
  set_isFlushing false w'.

(** [addToQueue].  Its calls of [flushQueue] are not awaited: each may leave a
    suspended flush behind, returned to the caller's scheduler. *)
Definition addToQueue (event : Event) (w : World) : World * list (list Event) :=
  if negb (trackingEnabled w) then (w, [])
  else
    let '(w1, k1) :=
      if bool_decide (maxQueueSize w <= length (eventQueue w))
      then flushQueue w else (w, None) in
    let w2 := set_eventQueue (eventQueue w1 ++ [event]) w1 in
    let w3 := saveQueue w2 in
    let '(w4, k2) :=
      if isCriticalEvent event then flushQueue w3 else (w3, None) in
    (w4, option_list k1 ++ option_list k2).

(** The tracking functions of the module, each with the arguments that reach
    the queued event. *)
Inductive TrackingCall :=
  | TrackPageView (pageUrl pageViewData : string)
  | TrackLinkClicks (anchor : bool) (linkData : string)
  | TrackFormSubmissions (formData : string)
  | TrackScrollDepth (scrollPercentage : nat) (scrollData : string)
  | TrackViewportChange (viewportData : string)
  | TrackVisibilityChange (isHidden : bool) (visibilityData : string)
  | TrackError (errorData : string)
  | TrackPromiseRejection (rejectionData : string)
  | TrackPerformance (perfData : string)
  | TrackSurvey (surveyId surveyAction now surveyData : string)
  | TrackEvent (evCategory evAction : string) (evLabel : option string)
      (eventData : string).

(** The counter update of [trackSurvey]. *)
Definition bump (surveyAction now : string) (i : Interaction) : Interaction :=
  let i' :=
    if bool_decide (surveyAction = "view") then
      mkInteraction (S (views i)) (starts i) (completes i) (lastInteraction i)
    else if bool_decide (surveyAction = "start") then
      mkInteraction (views i) (S (starts i)) (completes i) (lastInteraction i)
    else if bool_decide (surveyAction = "complete") then
      mkInteraction (views i) (starts i) (S (completes i)) (lastInteraction i)
    else i in
  mkInteraction (views i') (starts i') (completes i') (Some now).

Definition track (c : TrackingCall) (w : World) : World * list (list Event) :=
  match c with
  | TrackPageView pageUrl pageViewData =>
      (* saveSession() writes another storage key, not modelled *)
      addToQueue (mkEvent "pageview" "system" "page_view" None pageViewData)
        (set_page pageUrl w)
  | TrackLinkClicks anchor linkData =>
      if anchor
      then addToQueue (mkEvent "event" "user" "click" (Some "link_click") linkData) w
      else (w, [])
  | TrackFormSubmissions formData =>
      addToQueue (mkEvent "event" "user" "submit" (Some "form_submit") formData) w
  | TrackScrollDepth pct scrollData =>
      if bool_decide (pct ∈ [25; 50; 75; 90; 100])
      then addToQueue (mkEvent "event" "user" "scroll"
                         (Some ("scroll_depth_" +:+ pretty pct)) scrollData) w
      else (w, [])
  | TrackViewportChange viewportData =>
      addToQueue (mkEvent "event" "system" "viewport_change"
                    (Some "viewport_resize") viewportData) w
  | TrackVisibilityChange isHidden visibilityData =>
      addToQueue (mkEvent "event" "user"
                    (if isHidden then "page_hide" else "page_show")
                    (Some "visibility_change") visibilityData) w
  | TrackError errorData =>
      addToQueue (mkEvent "event" "error" "error" (Some "javascript_error") errorData) w
  | TrackPromiseRejection rejectionData =>
      addToQueue (mkEvent "event" "error" "error" (Some "promise_rejection")
                    rejectionData) w
  | TrackPerformance perfData =>
      addToQueue (mkEvent "event" "performance" "performance" (Some "page_load")
                    perfData) w
  | TrackSurvey surveyId surveyAction now surveyData =>
      let i := default (mkInteraction 0 0 0 None) (surveyInteractions w !! surveyId) in
      let w1 := set_surveyInteractions
                  (<[surveyId := bump surveyAction now i]> (surveyInteractions w)) w in
      addToQueue (mkEvent "survey" "survey" surveyAction
                    (Some ("survey_" +:+ surveyAction)) surveyData) w1
  | TrackEvent evCategory evAction evLabel eventData =>
      addToQueue (mkEvent "event" evCategory evAction evLabel eventData) w
  end.

(** [init]: give up when tracking is off, switch it off when the browser asks
    not to be tracked, otherwise record the page view and install the
    listeners and the flush timer. *)
Definition init (pageUrl pageViewData : string) (w : World)
    : World * list (list Event) :=
  if negb (trackingEnabled w) then (w, [])
  else if respectDNT w && bool_decide (doNotTrack w = Some "1") then
    (set_trackingEnabled false w, [])
  else
    let '(w1, ks) := track (TrackPageView pageUrl pageViewData) w in
    (set_listening true w1, ks).

(** A run of tracking calls, collecting the flushes left suspended. *)
Fixpoint track_all (cs : list TrackingCall) (w : World)
    : World * list (list Event) :=
  match cs with
  | [] => (w, [])
  | c :: cs' =>
      let '(w1, k1) := track c w in
      let '(w2, k2) := track_all cs' w1 in
      (w2, k1 ++ k2)
  end.

End Analytics.

(** ** ApiManager *)

Module Api.

(** The [options] argument of [request]; [None] is a property left out. *)
Record Options := mkOptions {
  method : option string;
  headers : option (gmap string string);
  body : option string;
  noCache : bool;
  timeout : option Z;
  retryAttempts : option Z
}.

(** A decoded response body, seen through the properties the gateway reads:
    [data.message], [data.errors] and the rest.  A body read as text has
    neither property. *)
Record Payload := mkPayload {
  message : option string;
  errors : option (list string);
  content : string
}.

(** What reading a body gives: the value the promise resolves with, or the
    reason it rejects with (a body that is not JSON, a stream that breaks). *)
Inductive Reading (A : Type) :=
  | Resolves (a : A)
  | Rejects (reason : string).
Arguments Resolves {A} a.
Arguments Rejects {A} reason.

(** A [Response] of [fetch].  [response.json()] may resolve with [null],
    which is [None]. *)
Record Response := mkResponse {
  ok : bool;
  status : Z;
  contentType : option string;       (* response.headers.get('content-type') *)
  json : Reading (option Payload);   (* response.json() *)
  text : Reading string              (* response.text() *)
}.

(** What the gateway throws. *)
Inductive Fault :=
  | ApiError (msg : string) (code : Z) (fieldErrors : list string)
  | TransportFault (reason : string)   (* fetch rejected: network failure or abort *)
  | NoResponse                         (* handleResponse(undefined) *)
  | ReadFault (reason : string)        (* response.json() or response.text() rejected *)
  | NullFault.                         (* data.message on a body that is null *)

Inductive Result (A : Type) :=
  | Return (a : A)
  | Throw (f : Fault).
Arguments Return {A} a.
Arguments Throw {A} f.

(** One call of [fetch]. *)
Inductive Attempt :=
  | Responds (r : Response)
  | Fails (reason : string).

(** What [fetchWithRetry] does, in order. *)
Inductive Step :=
  | Fetch (i : Z)
  | Delay (ms : Z).

(** What is handed to the transport. *)
Record Request := mkRequest {
  url : string;
  req_method : string;
  req_headers : gmap string string;
  req_body : option string;
  req_timeout : Z;
  req_attempts : Z
}.

Record CacheEntry := mkCacheEntry {
  entry_data : Payload;
  timestamp : Z
}.

(** The variables the [then]/[catch] handlers of [request] close over, with
    the identity of [requestPromise]. *)
Record Flight := mkFlight {
  promise : nat;
  cacheKey : string;
  isCacheable : bool
}.

Record World := mkWorld {
  cache : gmap string CacheEntry;
  pendingRequests : gmap string nat;
  authToken : option string;      (* localStorage['hadhramaut_auth_token'] *)
  nextPromise : nat;              (* promises created so far *)
  dispatched : list Request       (* requests handed to the transport *)
}.

Definition initial : World := mkWorld ∅ ∅ None 0 [].

Definition set_cache (c : gmap string CacheEntry) (w : World) : World :=
  mkWorld c (pendingRequests w) (authToken w) (nextPromise w) (dispatched w).

Definition set_pendingRequests (p : gmap string nat) (w : World) : World :=
  mkWorld (cache w) p (authToken w) (nextPromise w) (dispatched w).

Definition set_authToken (t : option string) (w : World) : World :=
  mkWorld (cache w) (pendingRequests w) t (nextPromise w) (dispatched w).

Definition dispatch (r : Request) (w : World) : World :=
  mkWorld (cache w) (pendingRequests w) (authToken w) (nextPromise w)
    (dispatched w ++ [r]).

Definition new_promise (w : World) : World :=
  mkWorld (cache w) (pendingRequests w) (authToken w) (S (nextPromise w))
    (dispatched w).

(** [config]. *)
Definition baseUrl : string := "https://api.voiceofhadhramaut.org/v1".
Definition config_headers : gmap string string :=
  <["Content-Type" := "application/json"]>
    (<["Accept" := "application/json"]> (<["Accept-Language" := "ar"]> ∅)).
Definition config_timeout : Z := 30000.
Definition config_retryAttempts : Z := 3.
Definition cacheDuration : Z := 5 * 60 * 1000.

(** [String.prototype.includes]. *)
Definition includes (s sub : string) : bool :=
  bool_decide (is_Some (String.index 0 sub s)).

(** [a || b] on numbers: [undefined] and [0] are falsy. *)
Definition or_default (a : option Z) (b : Z) : Z :=
  match a with
  | Some n => if bool_decide (n = 0%Z) then b else n
  | None => b
  end.

(** [getAuthToken], [setAuthToken], [clearAuthToken]. *)
Definition getAuthToken (w : World) : option string := authToken w.
Definition setAuthToken (t : string) (w : World) : World := set_authToken (Some t) w.
Definition clearAuthToken (w : World) : World := set_authToken None w.

(** [null] as a result: it has no property, and its content is the
    literal. *)
Definition null_payload : Payload := mkPayload None None "null".

(** The [data] that [handleResponse] reads from the response: the awaited
    [response.json()] or [response.text()], [None] for [null]. *)
Definition read_body (response : Response) : Result (option Payload) :=
  let as_text :=
    match text response with
    | Resolves t => Return (Some (mkPayload None None t))
    | Rejects reason => Throw (ReadFault reason)
    end in
  match contentType response with
  | Some ct =>
      if includes ct "application/json" then
        match json response with
        | Resolves d => Return d
        | Rejects reason => Throw (ReadFault reason)
        end
      else as_text
  | None => as_text
  end.

(** [data.message || 'حدث خطأ في الخادم']. *)
Definition error_message (d : Payload) : string :=
  match message d with
  | Some m => if bool_decide (m = "") then "حدث خطأ في الخادم" else m
  | None => "حدث خطأ في الخادم"
  end.

(** [handleResponse]; [None] is the [undefined] that [fetchWithRetry] returns
    when its loop never runs.  A body that cannot be read throws before the
    status is looked at; on a non-2xx status [data.message] throws when the
    body is [null].  [errors] defaults to the empty array in the constructor
    of [ApiError]. *)
Definition handleResponse (resp : option Response) : Result Payload :=
  match resp with
  | None => Throw NoResponse
  | Some response =>
      match read_body response with
      | Throw e => Throw e
      | Return data =>
          if negb (ok response) then
            match data with
            | Some d =>
                Throw (ApiError (error_message d) (status response)
                         (default [] (errors d)))
            | None => Throw NullFault
            end
          else Return (default null_payload data)
      end
  end.

(** The [for] loop of [fetchWithRetry] from index [i]; [fuel] bounds the
    iterations left and is never the reason the loop stops. *)
Fixpoint fetchLoop (net : Z -> Attempt) (attempts : Z) (fuel : nat) (i : Z)
    : Result (option Response) * list Step :=
  match fuel with
  | O => (Return None, [])
  | S fuel' =>
      if bool_decide (i < attempts)%Z then
        match net i with
        | Responds r => (Return (Some r), [Fetch i])
        | Fails reason =>
            if bool_decide (i = attempts - 1)%Z
            then (Throw (TransportFault reason), [Fetch i])
            else
              let '(res, steps) := fetchLoop net attempts fuel' (i + 1)%Z in
              (res, Fetch i :: Delay (2 ^ i * 1000)%Z :: steps)
        end
      else (Return None, [])
  end.

Definition fetchWithRetry (net : Z -> Attempt) (attempts : Z)
    : Result (option Response) * list Step :=
  fetchLoop net attempts (Z.to_nat attempts) 0%Z.

(** What [request] returns. *)
Inductive Answer :=
  | Cached (d : Payload)      (* Promise.resolve(cached.data) *)
  | Shared (p : nat)          (* pendingRequests.get(cacheKey) *)
  | Fresh (f : Flight).       (* a new requestPromise *)

Section Gateway.

(** [JSON.stringify] on the body. *)
Variable JSON_stringify : string -> string.

(** [generateCacheKey]. *)
Definition generateCacheKey (endpoint : string) (options : Options) : string :=
  let params :=
    match body options with
    | Some b => if bool_decide (b = "") then "" else JSON_stringify b
    | None => ""
    end in
  endpoint +:+ "_" +:+ default "undefined" (method options) +:+ "_" +:+ params.

(** The object literal [requestOptions].  The spread of [options] comes last,
    so a [headers] or [timeout] the caller gives replaces the one computed
    before it; [Authorization] is then written into the result. *)
Definition requestOptions (endpoint : string) (options : Options) (w : World)
    : Request :=
  let hs := default config_headers (headers options) in
  let hs' :=
    match getAuthToken w with
    | Some token =>
        if bool_decide (token = "") then hs
        else <["Authorization" := "Bearer " +:+ token]> hs
    | None => hs
    end in
  mkRequest (baseUrl +:+ endpoint)
    (default "GET" (method options))
    hs'
    (body options)
    (default config_timeout (timeout options))
    (or_default (retryAttempts options) config_retryAttempts).

(** [isCacheable] of [request]. *)
Definition cacheable (o : Options) : bool :=
  bool_decide (method o = Some "GET") && negb (noCache o).

(** The block [if (isCacheable && cache.has(cacheKey))] of [request]: a
    young entry is the answer, an old one is deleted. *)
Definition read_cache (cacheable : bool) (key : string) (now : Z) (w : World)
    : World * option Payload :=
  if cacheable then
    match cache w !! key with
    | Some cached =>
        if bool_decide (now - timestamp cached < cacheDuration)%Z
        then (w, Some (entry_data cached))
        else (set_cache (delete key (cache w)) w, None)
    | None => (w, None)
    end
  else (w, None).

(** [request] up to the return of its promise; [now] is [Date.now()].
    [fetchWithRetry] is called, and its first [fetch] issued, before
    [request] returns. *)
Definition request (endpoint : string) (options : Options) (now : Z) (w : World)
    : World * Answer :=
  let key := generateCacheKey endpoint options in
  let isCacheable := cacheable options in
  match read_cache isCacheable key now w with
  | (w1, Some d) => (w1, Cached d)
  | (w1, None) =>
      match pendingRequests w1 !! key with
      | Some p => (w1, Shared p)
      | None =>
          let w2 := dispatch (requestOptions endpoint options w1) w1 in
          let p := nextPromise w2 in
          let w3 := set_pendingRequests (<[key := p]> (pendingRequests w2))
                      (new_promise w2) in
          (w3, Fresh (mkFlight p key isCacheable))
      end
  end.

End Gateway.

(** The [then] and [catch] handlers of [requestPromise], run when
    [fetchWithRetry] has settled with [res]; [now] is [Date.now()]. *)
Definition request_resume (f : Flight) (res : Result (option Response))
    (now : Z) (w : World) : World * Result Payload :=
  let forget w := set_pendingRequests (delete (cacheKey f) (pendingRequests w)) w in
  match res with
  | Throw e => (forget w, Throw e)
  | Return resp =>
      match handleResponse resp with
      | Throw e => (forget w, Throw e)
      | Return d =>
          let w1 :=
            if isCacheable f && from_option ok false resp
            then set_cache (<[cacheKey f := mkCacheEntry d now]> (cache w)) w
            else w in
          (forget w1, Return d)
      end
  end.

(** The timer callback of [setupCacheCleanup]. *)
Definition sweep (now : Z) (w : World) : World :=
  set_cache
    (filter (λ kv, ¬ (now - timestamp kv.2 > cacheDuration)%Z) (cache w)) w.

(** [clearCache], [clearCacheForKey]. *)
Definition clearCache (w : World) : World := set_cache ∅ w.
Definition clearCacheForKey (key : string) (w : World) : World :=
  set_cache (delete key (cache w)) w.

(** [healthCheck]: one bare [fetch], outside [request]. *)
Definition healthCheck (a : Attempt) (w : World) : World * string :=
  let w1 := dispatch (mkRequest (baseUrl +:+ "/health") "GET" ∅ None 5000 1) w in
  (w1, match a with
       | Responds r => if ok r then "healthy" else "unhealthy"
       | Fails _ => "offline"
       end).

(** *** The gateway under a scheduler

    What can happen to the gateway, one event per uninterrupted piece of
    code. *)
Inductive Event :=
  | Call (endpoint : string) (options : Options) (now : Z)
  | Settle (p : nat) (res : Result (option Response)) (now : Z)
  | Sweep (now : Z)
  | ClearCache
  | ClearCacheForKey (key : string)
  | SetAuthToken (t : string)
  | ClearAuthToken
  | HealthCheck (a : Attempt).

(** The module's world and the flights whose handlers have not run yet. *)
Record Sys := mkSys {
  world : World;
  flights : list Flight
}.

(** The flight whose promise is [p], taken out of the list. *)
Fixpoint take_flight (p : nat) (fs : list Flight) : option (Flight * list Flight) :=
  match fs with
  | [] => None
  | f :: fs' =>
      if bool_decide (promise f = p) then Some (f, fs')
      else
        match take_flight p fs' with
        | Some (g, rest) => Some (g, f :: rest)
        | None => None
        end
  end.

Section Machine.

Variable JSON_stringify : string -> string.

Definition step (s : Sys) (ev : Event) : Sys :=
  match ev with
  | Call endpoint options now =>
      let '(w, a) := request JSON_stringify endpoint options now (world s) in
      mkSys w (match a with Fresh f => flights s ++ [f] | _ => flights s end)
  | Settle p res now =>
      match take_flight p (flights s) with
      | Some (f, rest) => mkSys (request_resume f res now (world s)).1 rest
      | None => s
      end
  | Sweep now => mkSys (sweep now (world s)) (flights s)
  | ClearCache => mkSys (clearCache (world s)) (flights s)
  | ClearCacheForKey key => mkSys (clearCacheForKey key (world s)) (flights s)
  | SetAuthToken t => mkSys (setAuthToken t (world s)) (flights s)
  | ClearAuthToken => mkSys (clearAuthToken (world s)) (flights s)
  | HealthCheck a => mkSys (healthCheck a (world s)).1 (flights s)
  end.

Definition run (evs : list Event) (s : Sys) : Sys := foldl step s evs.

End Machine.

Definition start : Sys := mkSys initial [].

End Api.

(** ** LocalDataService and SyncService *)

Module Sync.

(** [item.data] of a queued mutation. *)
Record ItemData := mkItemData {
  surveyId : string;
  responses : string;
  content : string
}.

(** An entry of the stored offline queue.  [type] is a kind name when the
    entry was queued as [saveOfflineData(type, data)]; it is an array of
    entries when [saveOfflineData] was given one as its first argument. *)
Inductive ItemType (I : Type) :=
  | Kind (name : string)
  | Items (entries : list I).
Arguments Kind {I} name.
Arguments Items {I} entries.

#[warnings="-register-all"]
Inductive OfflineItem :=
  | mkItem (type : ItemType OfflineItem) (data : option ItemData)
      (timestamp : string) (id : string).

Definition type (i : OfflineItem) : ItemType OfflineItem :=
  match i with mkItem t _ _ _ => t end.
Definition data (i : OfflineItem) : option ItemData :=
  match i with mkItem _ d _ _ => d end.
Definition timestamp (i : OfflineItem) : string :=
  match i with mkItem _ _ t _ => t end.
Definition id (i : OfflineItem) : string :=
  match i with mkItem _ _ _ x => x end.

(** A value of the stored [userResponses] object. *)
Record UserResponse := mkUserResponse {
  ur_responses : string;
  ur_timestamp : string;
  synced : bool;
  syncTime : option string
}.

(** The remote operations the sync engine issues through [ApiManager]. *)
Inductive ApiCall :=
  | SubmitSurveyResponse (sid rs : string)
  | CreateSurvey (d : option ItemData)
  | Feedback (d : option ItemData)
  | GetActiveSurveys
  | GetRecentResults.

Record World := mkWorld {
  isSyncing : bool;
  lastSyncTime : option string;
  offlineData : option (list OfflineItem);              (* OFFLINE_DATA *)
  userResponses : option (list (string * UserResponse)); (* USER_RESPONSES *)
  surveys : option string;                               (* SURVEYS *)
  results : option string;                               (* RESULTS *)
  online : bool;                                         (* navigator.onLine *)
  calls : list ApiCall;                                  (* calls issued *)
  toasts : list string                                   (* App.showToast *)
}.

Definition set_isSyncing (b : bool) (w : World) : World :=
  mkWorld b (lastSyncTime w) (offlineData w) (userResponses w) (surveys w)
    (results w) (online w) (calls w) (toasts w).
Definition set_lastSyncTime (t : option string) (w : World) : World :=
  mkWorld (isSyncing w) t (offlineData w) (userResponses w) (surveys w)
    (results w) (online w) (calls w) (toasts w).
Definition set_offlineData (d : option (list OfflineItem)) (w : World) : World :=
  mkWorld (isSyncing w) (lastSyncTime w) d (userResponses w) (surveys w)
    (results w) (online w) (calls w) (toasts w).
Definition set_userResponses (r : option (list (string * UserResponse)))
    (w : World) : World :=
  mkWorld (isSyncing w) (lastSyncTime w) (offlineData w) r (surveys w)
    (results w) (online w) (calls w) (toasts w).
Definition set_surveys (s : option string) (w : World) : World :=
  mkWorld (isSyncing w) (lastSyncTime w) (offlineData w) (userResponses w) s
    (results w) (online w) (calls w) (toasts w).
Definition set_results (s : option string) (w : World) : World :=
  mkWorld (isSyncing w) (lastSyncTime w) (offlineData w) (userResponses w)
    (surveys w) s (online w) (calls w) (toasts w).
Definition log_call (c : ApiCall) (w : World) : World :=
  mkWorld (isSyncing w) (lastSyncTime w) (offlineData w) (userResponses w)
    (surveys w) (results w) (online w) (calls w ++ [c]) (toasts w).
Definition showToast (m : string) (w : World) : World :=
  mkWorld (isSyncing w) (lastSyncTime w) (offlineData w) (userResponses w)
    (surveys w) (results w) (online w) (calls w) (toasts w ++ [m]).

(** An [async] function in progress: finished in world [w], or suspended in
    world [w] on a call it has issued, with what it does when the call
    settles ([Some] payload when it resolves, [None] when it rejects) in the
    world it then finds. *)
Inductive Task :=
  | Done (w : World)
  | Await (w : World) (c : ApiCall) (k : option string -> World -> Task).

(** Issue [c] and suspend. *)
Definition await (c : ApiCall) (k : option string -> World -> Task) (w : World)
    : Task :=
  Await (log_call c w) c k.

(** *** Plain objects

    A plain object is kept as the list of its own properties in the order in
    which [Object.keys] and [JSON.stringify] list them: the names that are
    array indices first, in ascending order, then the other names in the
    order of their creation. *)

(** The number a numeral stands for. *)
Fixpoint digits (s : string) (acc : N) : option N :=
  match s with
  | EmptyString => Some acc
  | String c s' =>
      let n := Ascii.N_of_ascii c in
      if bool_decide (48 <= n <= 57)%N
      then digits s' (10 * acc + (n - 48))%N
      else None
  end.

(** A property name is an array index when it is the decimal numeral,
    without sign or leading zero, of a number below [2^32 - 1]. *)
Definition array_index (key : string) : option N :=
  match key with
  | EmptyString => None
  | String c rest =>
      if bool_decide (Ascii.N_of_ascii c = 48%N)
         && negb (bool_decide (rest = EmptyString))
      then None
      else
        match digits key 0 with
        | Some n => if bool_decide (n < 4294967295)%N then Some n else None
        | None => None
        end
  end.

(** The own property [key], if there is one. *)
Fixpoint obj_get {A} (key : string) (o : list (string * A)) : option A :=
  match o with
  | [] => None
  | (k, x) :: o' => if bool_decide (k = key) then Some x else obj_get key o'
  end.

(** The value of the own property [key] replaced where it stands. *)
Fixpoint obj_replace {A} (key : string) (v : A) (o : list (string * A))
    : list (string * A) :=
  match o with
  | [] => []
  | (k, x) :: o' =>
      if bool_decide (k = key) then (k, v) :: o' else (k, x) :: obj_replace key v o'
  end.

(** A new array index [n] takes its place among the array indices. *)
Fixpoint obj_insert {A} (n : N) (key : string) (v : A) (o : list (string * A))
    : list (string * A) :=
  match o with
  | [] => [(key, v)]
  | (k, x) :: o' =>
      match array_index k with
      | Some m =>
          if bool_decide (m <= n)%N then (k, x) :: obj_insert n key v o'
          else (key, v) :: (k, x) :: o'
      | None => (key, v) :: (k, x) :: o'
      end
  end.

(** The own property [key] defined with value [v], as [JSON.parse] does for
    each member it reads. *)
Definition obj_define {A} (key : string) (v : A) (o : list (string * A))
    : list (string * A) :=
  match obj_get key o with
  | Some _ => obj_replace key v o
  | None =>
      match array_index key with
      | Some n => obj_insert n key v o
      | None => o ++ [(key, v)]
      end
  end.

(** [obj[key] = v], [v] an object: an own property is written or created,
    but where the object has no own property ["__proto__"] the assignment
    to that name goes to the setter it inherits, which changes the
    prototype and leaves the own properties as they are. *)
Definition obj_set {A} (key : string) (v : A) (o : list (string * A))
    : list (string * A) :=
  match obj_get key o with
  | Some _ => obj_replace key v o
  | None => if bool_decide (key = "__proto__") then o else obj_define key v o
  end.

(** [JSON.parse] of the text of an object whose members are [entries], in
    the order of the text: of two members with one name the later value
    stays, where the earlier stood. *)
Definition parse_object {A} (entries : list (string * A)) : list (string * A) :=
  foldl (fun o e => obj_define e.1 e.2 o) [] entries.

(** [getOfflineData], [getUserResponses]. *)
Definition getOfflineData (w : World) : list OfflineItem :=
  default [] (offlineData w).
Definition getUserResponses (w : World) : list (string * UserResponse) :=
  parse_object (default [] (userResponses w)).

(** [saveOfflineData(type, data)]: append one entry to the stored queue.
    [now] is the time stamp and [fresh] the value of [Utils.generateId()]. *)
Definition saveOfflineData (t : ItemType OfflineItem) (d : option ItemData)
    (now fresh : string) (w : World) : World :=
  set_offlineData (Some (getOfflineData w ++ [mkItem t d now fresh])) w.

(** [clearOfflineData]. *)
Definition clearOfflineData (w : World) : World := set_offlineData None w.

(** [saveUserResponse(surveyId, responses)]: the stored record becomes
    [{responses, timestamp}]. *)
Definition saveUserResponse (sid rs now : string) (w : World) : World :=
  set_userResponses
    (Some (obj_set sid (mkUserResponse rs now false None) (getUserResponses w))) w.

(** [saveSurveys], [saveResults]. *)
Definition saveSurveys (s : string) (w : World) : World := set_surveys (Some s) w.
Definition saveResults (s : string) (w : World) : World := set_results (Some s) w.

Section Run.

(** The time stamp of the run and the identifier [Utils.generateId()] gives. *)
Variables now fresh : string.

(** The [for] loop of [syncOfflineData] and what follows it.  [all] is the
    queue read at the start, [successfulSyncs] the identifiers pushed so far;
    [failedSyncs] is only counted for the log and is left out. *)
Fixpoint offlineLoop (all items : list OfflineItem) (successfulSyncs : list string)
    (k : World -> Task) (w : World) : Task :=
  match items with
  | [] =>
      if bool_decide (0 < length successfulSyncs) then
        let remainingData :=
          filter (λ item, id item ∉ successfulSyncs) all in
        k (saveOfflineData (Items remainingData) None now fresh w)
      else k w
  | item :: more =>
      let settle r w' :=
        match r with
        | Some _ => offlineLoop all more (successfulSyncs ++ [id item]) k w'
        | None => offlineLoop all more successfulSyncs k w'
        end in
      match type item with
      | Kind name =>
          if bool_decide (name = "survey_response") then
            match data item with
            | Some d => await (SubmitSurveyResponse (surveyId d) (responses d)) settle w
            | None => offlineLoop all more successfulSyncs k w   (* TypeError, caught *)
            end
          else if bool_decide (name = "survey_creation") then
            await (CreateSurvey (data item)) settle w
          else if bool_decide (name = "user_feedback") then
            await (Feedback (data item)) settle w
          else offlineLoop all more (successfulSyncs ++ [id item]) k w
      | Items _ => offlineLoop all more (successfulSyncs ++ [id item]) k w
      end
  end.

(** [syncOfflineData], followed by [k]. *)
Definition syncOfflineData (k : World -> Task) (w : World) : Task :=
  let offlineData := getOfflineData w in
  if bool_decide (length offlineData = 0) then k w
  else offlineLoop offlineData offlineData [] k w.

(** [updateLocalData], followed by [k]. *)
Definition updateLocalData (k : World -> Task) (w : World) : Task :=
  await GetActiveSurveys (λ r w1,
    match r with
    | Some s =>
        await GetRecentResults (λ r' w2,
          match r' with
          | Some s' => k (saveResults s' w2)
          | None => k w2
          end) (saveSurveys s w1)
    | None => k w1
    end) w.

(** The loop of [syncUserResponses] over the entries read at its start,
    followed by [k].  The flag [synced] and [syncTime] are set on the object
    read at the start, which is not written back; what is written is
    [saveUserResponse(surveyId, response.responses)]. *)
Fixpoint responsesLoop (entries : list (string * UserResponse))
    (k : World -> Task) (w : World) : Task :=
  match entries with
  | [] => k w
  | (sid, response) :: more =>
      if negb (synced response) then
        await (SubmitSurveyResponse sid (ur_responses response)) (λ r w',
          match r with
          | Some _ =>
              responsesLoop more k (saveUserResponse sid (ur_responses response) now w')
          | None => responsesLoop more k w'
          end) w
      else responsesLoop more k w
  end.

Definition syncUserResponses (k : World -> Task) (w : World) : Task :=
  responsesLoop (getUserResponses w) k w.

(** [syncAllData].  The three phases catch what their calls throw, so the
    [catch] block of [syncAllData] is not entered; the [finally] block is the
    last step of the run. *)
Definition syncAllData (w : World) : Task :=
  if isSyncing w then Done w
  else if negb (online w) then Done w
  else
    syncOfflineData
      (updateLocalData
         (syncUserResponses (λ w',
            Done (set_isSyncing false
                    (showToast "تمت مزامنة البيانات بنجاح"
                       (set_lastSyncTime (Some now) w'))))))
      (set_isSyncing true w).

End Run.

(** Run a task to its end against a remote service that answers each call
    from the calls issued so far. *)
Fixpoint run (remote : list ApiCall -> option string) (t : Task) : World :=
  match t with
  | Done w => w
  | Await w c k => run remote (k (remote (calls w)) w)
  end.

(** The worlds in which the task is suspended, then the one it ends in. *)
Fixpoint trace (remote : list ApiCall -> option string) (t : Task) : list World :=
  match t with
  | Done w => [w]
  | Await w c k => w :: trace remote (k (remote (calls w)) w)
  end.

(** [getSyncStatus]. *)
Definition getSyncStatus (w : World) : bool * option string * nat * nat :=
  (isSyncing w, lastSyncTime w, length (getOfflineData w),
   length (filter (λ e, synced e.2 = false) (getUserResponses w))).

End Sync.

(** ** AuthenticationSystem (services/auth.js)

    The state of the module, the keys of the store it writes, the requests
    it makes the gateway send (those of its own calls of [ApiManager.request]
    and the one [ApiManager.trackEvent] makes for each event handed to it)
    and the messages it shows.  The page and the console are left out; of
    an event handed to [ApiManager.trackEvent] only the request is kept here,
    the local record of that function being the matter of [Tracker].  The
    readings of the clock within one uninterrupted piece of code are one
    instant.  Whether the e-mail address and the password of the form pass
    [validateEmail] and [validatePassword] is given with the submission. *)

Module Auth.

Inductive Message :=
  | ShowError (m : string)
  | ShowSuccess (m : string)
  | ShowRemaining (n : Z).        (* the warning with the attempts left *)

(** [state]. *)
Record State := mkState {
  currentUser : option string;
  isAuthenticated : bool;
  sessionActive : bool;
  loginAttempts : nat;
  lastLoginAttempt : option Z;
  sessionStartTime : option Z;
  tokenRefreshInterval : bool     (* an interval is set *)
}.

Record Session := mkSession {
  startTime : Z;
  rememberMe : bool
}.

(** The keys [tokenKey], [userKey], [sessionKey] and [refreshTokenKey] of
    the store. *)
Record Store := mkStore {
  token : option string;
  userData : option string;
  session : option Session;
  refreshToken_ : option string
}.

Record World := mkWorld {
  state : State;
  store : Store;
  online : bool;                  (* navigator.onLine *)
  authEvents : list string;       (* the events of localStorage['hadhramaut_auth_events'] *)
  requests : list string;         (* endpoints asked for, oldest first *)
  messages : list Message
}.

(** [config], and the endpoint of [ApiManager.trackEvent]. *)
Definition login_endpoint : string := "/auth/login".
Definition logout_endpoint : string := "/auth/logout".
Definition refresh_endpoint : string := "/auth/refresh".
Definition analytics_endpoint : string := "/analytics/events".
Definition sessionTimeout : Z := 24 * 60 * 60 * 1000.
Definition refreshThreshold : Z := 15 * 60 * 1000.
Definition maxLoginAttempts : nat := 5.
Definition lockoutDuration : Z := 15 * 60 * 1000.

(** The literal [state] of a page just loaded. *)
Definition initial_state : State := mkState None false false 0 None None false.
Definition empty_store : Store := mkStore None None None None.

Definition set_state (s : State) (w : World) : World :=
  mkWorld s (store w) (online w) (authEvents w) (requests w) (messages w).
Definition set_store (s : Store) (w : World) : World :=
  mkWorld (state w) s (online w) (authEvents w) (requests w) (messages w).
Definition set_online (b : bool) (w : World) : World :=
  mkWorld (state w) (store w) b (authEvents w) (requests w) (messages w).
Definition request (endpoint : string) (w : World) : World :=
  mkWorld (state w) (store w) (online w) (authEvents w) (requests w ++ [endpoint])
    (messages w).
Definition show (m : Message) (w : World) : World :=
  mkWorld (state w) (store w) (online w) (authEvents w) (requests w)
    (messages w ++ [m]).

(** [saveAuthEvent]. *)
Definition saveAuthEvent (eventName : string) (w : World) : World :=
  mkWorld (state w) (store w) (online w) (authEvents w ++ [eventName]) (requests w)
    (messages w).

(** [trackAuthEvent]: the event is written to the record of the module and,
    when the browser is online, handed to [ApiManager.trackEvent], which
    posts it. *)
Definition trackAuthEvent (eventName : string) (w : World) : World :=
  let w1 := saveAuthEvent eventName w in
  if online w1 then request analytics_endpoint w1 else w1.

Definition showAuthError (m : string) : World -> World := show (ShowError m).
Definition showAuthSuccess (m : string) : World -> World := show (ShowSuccess m).

(** [clearStoredData]. *)
Definition clearStoredData (w : World) : World := set_store empty_store w.

(** [setStoredToken]. *)
Definition setStoredToken (t : string) (w : World) : World :=
  set_store (mkStore (Some t) (userData (store w)) (session (store w))
               (refreshToken_ (store w))) w.

(** [startTokenRefresh] ([autoRefresh] is on) and [stopTokenRefresh]. *)
Definition set_refreshing (b : bool) (s : State) : State :=
  mkState (currentUser s) (isAuthenticated s) (sessionActive s) (loginAttempts s)
    (lastLoginAttempt s) (sessionStartTime s) b.

(** [restoreSession]; a stored token that is the empty string is falsy. *)
Definition restoreSession (now : Z) (w : World) : World * bool :=
  match token (store w), userData (store w), session (store w) with
  | Some t, Some u, Some s =>
      if bool_decide (t = "") then (w, false)
      else if bool_decide (now - startTime s < sessionTimeout)%Z then
        (set_state
           (mkState (Some u) true true (loginAttempts (state w))
              (lastLoginAttempt (state w)) (Some (startTime s)) true) w,
         true)
      else (clearStoredData w, false)
  | _, _, _ => (w, false)
  end.

(** The [finally] block of [logout]. *)
Definition logout_finally (silent : bool) (w : World) : World :=
  let w1 :=
    set_state
      (mkState None false false (loginAttempts (state w))
         (lastLoginAttempt (state w)) None false)
      (clearStoredData w) in
  if silent then w1 else trackAuthEvent "logout" w1.

(** [logout] up to its [await]: [true] when the request to the server is
    under way, and [logout_resume] is what runs when it settles, whether it
    resolves or rejects. *)
Definition logout (silent : bool) (w : World) : World * bool :=
  if isAuthenticated (state w) then (request logout_endpoint w, true)
  else (logout_finally silent w, false).

Definition logout_resume (silent resolved : bool) (w : World) : World :=
  logout_finally silent w.

(** [checkSessionValidity]; a [sessionStartTime] that is [null] counts as 0. *)
Definition checkSessionValidity (now : Z) (w : World) : World * bool :=
  if negb (isAuthenticated (state w)) then (w, false)
  else if bool_decide (now - default 0%Z (sessionStartTime (state w)) > sessionTimeout)%Z
       then logout true w
       else (w, false).

(** [init] on a page just loaded: the store is what the last page left. *)
Definition reload (w : World) : World := set_state initial_state w.

Definition init (now : Z) (w : World) : World * bool :=
  checkSessionValidity now (restoreSession now w).1.

(** [checkLoginRestrictions]. *)
Definition checkLoginRestrictions (now : Z) (w : World) : World * bool :=
  let s := state w in
  if bool_decide (maxLoginAttempts <= loginAttempts s) then
    if bool_decide (now - default 0%Z (lastLoginAttempt s) < lockoutDuration)%Z
    then (w, true)
    else
      (set_state
         (mkState (currentUser s) (isAuthenticated s) (sessionActive s) 0 None
            (sessionStartTime s) (tokenRefreshInterval s)) w,
       false)
  else (w, false).

(** [recordLoginAttempt]. *)
Definition recordLoginAttempt (success : bool) (now : Z) (w : World) : World :=
  let s := state w in
  if success then
    set_state
      (mkState (currentUser s) (isAuthenticated s) (sessionActive s) 0 None
         (sessionStartTime s) (tokenRefreshInterval s)) w
  else
    let w1 :=
      set_state
        (mkState (currentUser s) (isAuthenticated s) (sessionActive s)
           (S (loginAttempts s)) (Some now)
           (sessionStartTime s) (tokenRefreshInterval s)) w in
    let remainingAttempts := (Z.of_nat maxLoginAttempts - Z.of_nat (S (loginAttempts s)))%Z in
    if bool_decide (remainingAttempts > 0)%Z then show (ShowRemaining remainingAttempts) w1
    else w1.

(** How the request of [login] settles: a response with [success] and its
    [data], a response without [success], or a rejection. *)
Inductive LoginOutcome :=
  | Granted (tok user : string)
  | Refused (message : option string)
  | Rejected.

(** [login] after its [await]. *)
Definition login_resume (o : LoginOutcome) (remember : bool) (now : Z) (w : World)
    : World :=
  match o with
  | Granted tok user =>
      trackAuthEvent "login_success"
        (mkWorld
           (mkState (Some user) true true 0 (lastLoginAttempt (state w)) (Some now)
              true)
           (mkStore (Some tok) (Some user) (Some (mkSession now remember))
              (refreshToken_ (store w)))
           (online w) (authEvents w) (requests w) (messages w))
  | Refused _ => w
  | Rejected => trackAuthEvent "login_failed" w
  end.

(** [login] up to its [await]. *)
Definition login (w : World) : World := request login_endpoint w.

(** [handleLogin] up to its [await]: [true] when the credentials have been
    sent. *)
Definition handleLogin (valid_email valid_password : bool) (now : Z) (w : World)
    : World * bool :=
  let '(w1, restricted) := checkLoginRestrictions now w in
  if restricted then
    (showAuthError "تم تجاوز عدد المحاولات المسموح بها. الرجاء المحاولة لاحقاً." w1, false)
  else if negb valid_email then
    (showAuthError "البريد الإلكتروني غير صحيح" w1, false)
  else if negb valid_password then
    (showAuthError "كلمة المرور يجب أن تكون 8 أحرف على الأقل وتحتوي على أرقام وحروف خاصة" w1,
     false)
  else (login w1, true).

(** [handleLogin] after its [await]. *)
Definition handleLogin_resume (o : LoginOutcome) (remember : bool) (now : Z)
    (w : World) : World :=
  match o with
  | Granted _ _ => showAuthSuccess "تم تسجيل الدخول بنجاح" (login_resume o remember now w)
  | Refused m =>
      let text :=
        match m with
        | Some t => if bool_decide (t = "") then "فشل تسجيل الدخول" else t
        | None => "فشل تسجيل الدخول"
        end in
      recordLoginAttempt false now (showAuthError text w)
  | Rejected =>
      recordLoginAttempt false now
        (showAuthError "حدث خطأ أثناء تسجيل الدخول" (login_resume o remember now w))
  end.

(** How the request of [refreshToken] settles. *)
Inductive RefreshOutcome :=
  | Renewed (tok : string)
  | Declined
  | Failed.

(** [refreshToken] up to its [await]: [true] when the request is under way. *)
Definition refreshToken (w : World) : World * bool :=
  if negb (isAuthenticated (state w)) then (w, false)
  else
    match refreshToken_ (store w) with
    | Some t => if bool_decide (t = "") then (w, false)
                else (request refresh_endpoint w, true)
    | None => (w, false)
    end.

(** [refreshToken] after its [await]; a failure starts a [logout]. *)
Definition refreshToken_resume (o : RefreshOutcome) (w : World) : World * bool :=
  match o with
  | Renewed tok => (setStoredToken tok w, false)
  | Declined => (w, false)
  | Failed => logout true w
  end.

(** What can happen to the module, one event per uninterrupted piece of
    code. *)
Inductive Event :=
  | PageLoad (now : Z)
  | SubmitLogin (valid_email valid_password : bool) (now : Z)
  | LoginSettles (o : LoginOutcome) (remember : bool) (now : Z)
  | CallLogin
  | CallLoginSettles (o : LoginOutcome) (remember : bool) (now : Z)
  | Logout (silent : bool)
  | LogoutSettles (silent resolved : bool)
  | Connection (onLine : bool)
  | SessionCheck (now : Z)
  | RefreshTick
  | RefreshSettles (o : RefreshOutcome).

Definition step (w : World) (ev : Event) : World :=
  match ev with
  | PageLoad now => (init now (reload w)).1
  | SubmitLogin ve vp now => (handleLogin ve vp now w).1
  | LoginSettles o remember now => handleLogin_resume o remember now w
  | CallLogin => login w
  | CallLoginSettles o remember now => login_resume o remember now w
  | Logout silent => (logout silent w).1
  | LogoutSettles silent resolved => logout_resume silent resolved w
  | Connection onLine => set_online onLine w
  | SessionCheck now => (checkSessionValidity now w).1
  | RefreshTick => (refreshToken w).1
  | RefreshSettles o => (refreshToken_resume o w).1
  end.

Definition run (evs : list Event) (w : World) : World := foldl step w evs.

Definition start : World := mkWorld initial_state empty_store true [] [] [].

End Auth.

(** ** The session of AnalyticsSystem

    [initializeSession], [generateAnonymousId], [saveSession] and the part
    of [trackPageView] that concerns the session.  The identifiers built
    from the clock and [Math.random] are given; [user] is the [id] of what
    [AuthenticationSystem.getCurrentUser()] returns.  The readings of the
    clock within one page load are one instant. *)

Module Session.

Record State := mkState {
  sessionId : option string;
  userId : option string;
  sessionStartTime : option Z;
  pageViewCount : nat
}.

(** The object [saveSession] writes. *)
Record Saved := mkSaved {
  saved_state : State;
  timestamp : Z
}.

Record World := mkWorld {
  state : State;
  storedSession : option Saved;     (* localStorage['hadhramaut_analytics_session'] *)
  anonymousId : option string       (* localStorage['hadhramaut_anonymous_id'] *)
}.

Definition sessionTimeout : Z := 30 * 60 * 1000.

(** The literal [state] of a page just loaded (the fields of the session). *)
Definition initial_state : State := mkState None None None 0.

Definition set_state (s : State) (w : World) : World :=
  mkWorld s (storedSession w) (anonymousId w).

(** [saveSession]. *)
Definition saveSession (now : Z) (w : World) : World :=
  mkWorld (state w) (Some (mkSaved (state w) now)) (anonymousId w).

(** [generateAnonymousId]: the stored identifier, or [fresh] stored for the
    next time. *)
Definition generateAnonymousId (fresh : string) (w : World) : World * string :=
  match anonymousId w with
  | Some a =>
      if bool_decide (a = "")
      then (mkWorld (state w) (storedSession w) (Some fresh), fresh)
      else (w, a)
  | None => (mkWorld (state w) (storedSession w) (Some fresh), fresh)
  end.

(** [initializeSession]. *)
Definition initializeSession (now : Z) (fresh_session fresh_anonymous : string)
    (user : option string) (w : World) : World :=
  let continue :=
    match storedSession w with
    | Some saved =>
        if bool_decide (now - timestamp saved < sessionTimeout)%Z
        then Some saved else None
    | None => None
    end in
  let w1 :=
    match continue with
    | Some saved => set_state (saved_state saved) w
    | None =>
        match user with
        | Some u =>
            set_state (mkState (Some fresh_session) (Some u) (Some now) 0) w
        | None =>
            let '(w', a) := generateAnonymousId fresh_anonymous w in
            set_state (mkState (Some fresh_session) (Some a) (Some now) 0) w'
        end
    end in
  saveSession now w1.

(** What [trackPageView] does to the session. *)
Definition trackPageView (now : Z) (w : World) : World :=
  let s := state w in
  saveSession now
    (set_state (mkState (sessionId s) (userId s) (sessionStartTime s)
                  (S (pageViewCount s))) w).

(** One page load with tracking on: the state is the literal again, the
    store is what the last page left, and [init] runs [initializeSession]
    and [trackPageView]. *)
Record Load := mkLoad {
  at_time : Z;
  fresh_session : string;
  fresh_anonymous : string;
  user : option string
}.

Definition init (l : Load) (w : World) : World :=
  trackPageView (at_time l)
    (initializeSession (at_time l) (fresh_session l) (fresh_anonymous l) (user l)
       (set_state initial_state w)).

End Session.

(** ** The local record of events of ApiManager

    [trackEvent], [saveEventLocally] and [clearSentEvents]; [navigator.onLine]
    is given with the call.  [posted] are the bodies handed to [request]. *)

Module Tracker.

Record LocalEvent := mkLocalEvent {
  event : string;
  data : string;
  timestamp : string
}.

Record World := mkWorld {
  events : option (list LocalEvent);  (* localStorage['hadhramaut_events'] *)
  posted : list LocalEvent
}.

(** [saveEventLocally]. *)
Definition saveEventLocally (e : LocalEvent) (w : World) : World :=
  mkWorld (Some (default [] (events w) ++ [e])) (posted w).

(** [clearSentEvents]. *)
Definition clearSentEvents (w : World) : World := mkWorld None (posted w).

(** [trackEvent] up to its [await]: [true] when a request is under way. *)
Definition trackEvent (e : LocalEvent) (onLine : bool) (w : World) : World * bool :=
  let w1 := saveEventLocally e w in
  if onLine then (mkWorld (events w1) (posted w1 ++ [e]), true)
  else (w1, false).

(** [trackEvent] after its [await]. *)
Definition trackEvent_resume (resolved : bool) (w : World) : World :=
  if resolved then clearSentEvents w else w.

Inductive Step :=
  | Track (e : LocalEvent) (onLine : bool)
  | Settles (resolved : bool).

Definition step (w : World) (s : Step) : World :=
  match s with
  | Track e onLine => (trackEvent e onLine w).1
  | Settles resolved => trackEvent_resume resolved w
  end.

Definition run (l : list Step) (w : World) : World := foldl step w l.

End Tracker.

(** * Vocabulary of the statements *)

Section AnalyticsVocabulary.
Import Analytics.

(** The parts of the world a tracking call may reach through the queue. *)
Definition queue_view (w : World)
    : list Event * option (list Event) * bool * list (list Event) :=
  (eventQueue w, storedQueue w, isFlushing w, sent w).

(** The scenario of the specification: A, B and C are recorded, the flush is
    rejected by the gateway, D is recorded, the next flush is delivered. *)
Definition evA : Event := mkEvent "event" "user" "click" (Some "a") "A".
Definition evB : Event := mkEvent "event" "user" "click" (Some "b") "B".
Definition evC : Event := mkEvent "event" "user" "scroll" (Some "c") "C".
Definition evD : Event := mkEvent "event" "system" "viewport_change" (Some "d") "D".

Definition scenario_after_failed_flush : World :=
  let w0 := initial true None in
  let w1 := (addToQueue evA w0).1 in
  let w2 := (addToQueue evB w1).1 in
  let w3 := (addToQueue evC w2).1 in
  let '(w4, k) := flushQueue w3 in
  flushQueue_resume (default [] k) Rejected w4.

Definition scenario_end : World :=
  let w6 := (addToQueue evD scenario_after_failed_flush).1 in
  let '(w7, k) := flushQueue w6 in
  flushQueue_resume (default [] k) (Resolved true) w7.

End AnalyticsVocabulary.

Section ApiVocabulary.
Import Api.


(** What holds of every flight that is under way: the in-flight map points
    at its promise, the promise is one already created, and a flight that
    will store its response has no entry in the cache. *)
Definition flight_ok (w : World) (f : Flight) : Prop :=
  pendingRequests w !! cacheKey f = Some (promise f)
  /\ promise f < nextPromise w
  /\ (isCacheable f = true -> cache w !! cacheKey f = None).

(** The in-flight map and the flights under way describe each other, and no
    two flights share a key or a promise. *)
Definition single_flight (s : Sys) : Prop :=
  NoDup (cacheKey <$> flights s)
  /\ NoDup (promise <$> flights s)
  /\ (forall f, f ∈ flights s -> flight_ok (world s) f)
  /\ (forall k p, pendingRequests (world s) !! k = Some p ->
        exists f, f ∈ flights s /\ cacheKey f = k /\ promise f = p).

End ApiVocabulary.

(** Options of the calls used as examples. *)
Definition get_options : Api.Options :=
  Api.mkOptions (Some "GET") None None false None None.
Definition get_nocache_options : Api.Options :=
  Api.mkOptions (Some "GET") None None true None None.
Definition bare_options : Api.Options :=
  Api.mkOptions None None None false None None.
Definition basic_auth_options : Api.Options :=
  Api.mkOptions (Some "GET") (Some (<["Authorization" := "Basic dXNlcg"]> ∅))
    None false None None.

(** The [Authorization] header of each request handed to the transport,
    oldest first. *)
Definition sent_authorization (w : Api.World) : list (option string) :=
  (fun r => Api.req_headers r !! "Authorization") <$> Api.dispatched w.

(** A 200 with a JSON body. *)
Definition surveys_payload : Api.Payload :=
  Api.mkPayload None None "[{'id':7}]".
Definition ok_response : Api.Response :=
  Api.mkResponse true 200 (Some "application/json")
    (Api.Resolves (Some surveys_payload)) (Api.Resolves "").

(** One cacheable call answered with a 200 and stored at time 1. *)
Definition after_first_call : Api.Sys :=
  Api.run id
    [Api.Call "/surveys" get_options 0;
     Api.Settle 0 (Api.Return (Some ok_response)) 1] Api.start.

(** The request the first call left stored, then a call with [noCache] for
    the same key, left in flight. *)
Definition with_flight : Api.Sys :=
  Api.run id [Api.Call "/surveys" get_nocache_options 2] after_first_call.

(** A server that is down, and one that answers the second attempt with a
    503 and a JSON body. *)
Definition net_down : Z -> Api.Attempt := fun _ => Api.Fails "Failed to fetch".
Definition overloaded : Api.Response :=
  Api.mkResponse false 503 (Some "application/json; charset=utf-8")
    (Api.Resolves
       (Some (Api.mkPayload (Some "Service Unavailable") (Some ["retry later"]) "{}")))
    (Api.Resolves "").
Definition net_overloaded : Z -> Api.Attempt :=
  fun k => if bool_decide (k = 0%Z) then Api.Fails "Failed to fetch"
           else Api.Responds overloaded.

Section SyncVocabulary.
Import Sync.

(** A run whose suspensions all satisfy [I] and whose end satisfies [Q]: it
    goes on in that way whatever the awaited call gives, and in whatever
    world it is resumed as long as [I] holds there. *)
Inductive task_inv (I Q : World -> Prop) : Task -> Prop :=
  | inv_done (w : World) :
      Q w -> task_inv I Q (Done w)
  | inv_await (w : World) (c : ApiCall) (k : option string -> World -> Task) :
      I w ->
      (forall r w', I w' -> task_inv I Q (k r w')) ->
      task_inv I Q (Await w c k).

(** A run that holds the guard: [isSyncing] is true wherever it is suspended
    and false in the world it ends in. *)
Definition holds_guard : Task -> Prop :=
  task_inv (fun w => isSyncing w = true) (fun w => isSyncing w = false).

(** No stored response carries the confirmation flag. *)
Definition none_confirmed (w : World) : Prop :=
  forall sid r, (sid, r) ∈ getUserResponses w -> synced r = false.

End SyncVocabulary.

(** One queued survey response, and one response saved locally and not yet
    confirmed. *)
Definition m1 : Sync.OfflineItem :=
  Sync.mkItem (Sync.Kind "survey_response")
    (Some (Sync.mkItemData "s1" "{'q1':'yes'}" "")) "t0" "m1".
Definition queue_world : Sync.World :=
  Sync.mkWorld false None (Some [m1]) None None None true [] [].
Definition responses_world : Sync.World :=
  Sync.mkWorld false None None
    (Some [("s1", Sync.mkUserResponse "{'q1':'yes'}" "t0" false None)])
    None None true [] [].

Definition is_submit (c : Sync.ApiCall) : bool :=
  match c with Sync.SubmitSurveyResponse _ _ => true | _ => false end.

(** A service that rejects the first submission it receives and accepts
    every other call. *)
Definition remote_flaky (issued : list Sync.ApiCall) : option string :=
  match last issued with
  | Some c =>
      if is_submit c && bool_decide (length (filter is_submit issued) <= 1)
      then None else Some "{}"
  | None => None
  end.

(** A service that accepts every call. *)
Definition remote_up (issued : list Sync.ApiCall) : option string := Some "{}".

Section QueueVocabulary.
Import Analytics.

(** [addToQueue] for each event in turn, with the flushes left suspended. *)
Fixpoint record_all (es : list Event) (w : World) : World * list (list Event) :=
  match es with
  | [] => (w, [])
  | e :: es' =>
      let '(w1, k1) := addToQueue e w in
      let '(w2, k2) := record_all es' w1 in
      (w2, k1 ++ k2)
  end.

(** The module of a page just loaded: the literal [config] and [state]
    again, the store and the browser as the page before left them. *)
Definition fresh_page (w : World) : World :=
  mkWorld true true 100 [] false 0 None None ∅
    (storedQueue w) (online w) (doNotTrack w) false (sent w)
    (sendBeacon w) (beacons w).

(** The page loaded anew: the [beforeunload] listener of the page that is
    left runs, when it is installed, and the new page starts. *)
Definition reload (w : World) : World := fresh_page (beforeunload w).

End QueueVocabulary.

Section RetryVocabulary.
Import Api.

(** The calls of [fetch] in a trace, and the time spent waiting. *)
Fixpoint fetch_count (steps : list Step) : nat :=
  match steps with
  | [] => 0
  | Fetch _ :: rest => S (fetch_count rest)
  | Delay _ :: rest => fetch_count rest
  end.

Fixpoint waited (steps : list Step) : Z :=
  match steps with
  | [] => 0
  | Fetch _ :: rest => waited rest
  | Delay ms :: rest => ms + waited rest
  end.

End RetryVocabulary.

Section RunVocabulary.
Import Sync.

(** The names every plain object inherits from [Object.prototype]. *)
Definition object_prototype_names : list string :=
  ["constructor"; "hasOwnProperty"; "isPrototypeOf"; "propertyIsEnumerable";
   "toLocaleString"; "toString"; "valueOf"; "__proto__";
   "__defineGetter__"; "__defineSetter__"; "__lookupGetter__"; "__lookupSetter__"].

(** What [responses[surveyId] || null] is: the stored record, a member of
    [Object.prototype] (a function, or the prototype itself), or [null]. *)
Inductive Lookup :=
  | Stored (r : UserResponse)
  | Inherited
  | Null.

(** [getUserResponse]; a record and an inherited member are objects, never
    falsy, so [|| null] only stands for the name that is not found. *)
Definition getUserResponse (sid : string) (w : World) : Lookup :=
  match obj_get sid (getUserResponses w) with
  | Some r => Stored r
  | None => if bool_decide (sid ∈ object_prototype_names) then Inherited else Null
  end.

(** The call the [switch] of [syncOfflineData] issues for an entry, if any. *)
Definition item_call (item : OfflineItem) : option ApiCall :=
  match type item with
  | Kind name =>
      if bool_decide (name = "survey_response") then
        match data item with
        | Some d => Some (SubmitSurveyResponse (surveyId d) (responses d))
        | None => None
        end
      else if bool_decide (name = "survey_creation") then Some (CreateSurvey (data item))
      else if bool_decide (name = "user_feedback") then Some (Feedback (data item))
      else None
  | Items _ => None
  end.

(** The submissions [syncUserResponses] issues for the stored responses. *)
Definition response_calls (entries : list (string * UserResponse)) : list ApiCall :=
  omap (fun e => if synced e.2 then None
                 else Some (SubmitSurveyResponse e.1 (ur_responses e.2))) entries.

(** The calls of [updateLocalData] when the calls issued before it are [h]:
    the results are asked for only when the surveys have arrived. *)
Definition refresh_calls (remote : list ApiCall -> option string) (h : list ApiCall)
    : list ApiCall :=
  match remote (h ++ [GetActiveSurveys]) with
  | Some _ => [GetActiveSurveys; GetRecentResults]
  | None => [GetActiveSurveys]
  end.

End RunVocabulary.

(** A queue with a response, a creation whose type is misspelt and a
    feedback; one response confirmed and one not. *)
Definition busy_world : Sync.World :=
  Sync.mkWorld false None
    (Some [m1;
           Sync.mkItem (Sync.Kind "survey_creatoin") None "t0" "m2";
           Sync.mkItem (Sync.Kind "user_feedback")
             (Some (Sync.mkItemData "" "" "thanks")) "t0" "m3"])
    (Some [("s1", Sync.mkUserResponse "{'q1':'yes'}" "t0" true (Some "t0"));
           ("s2", Sync.mkUserResponse "{'q1':'no'}" "t0" false None)])
    (Some "old surveys") (Some "old results") true [] [].

(** Responses stored under identifiers that are array indices and under
    one that is not, the latter first in the stored text. *)
Definition numbered_world : Sync.World :=
  Sync.mkWorld false None None
    (Some [("s2", Sync.mkUserResponse "{'q1':'no'}" "t0" false None);
           ("10", Sync.mkUserResponse "{'q1':'yes'}" "t0" false None);
           ("9", Sync.mkUserResponse "{'q1':'yes'}" "t0" false None)])
    None None true [] [].

(** A service that is down, and one that serves the surveys only. *)
Definition remote_down (issued : list Sync.ApiCall) : option string := None.
Definition remote_surveys_only (issued : list Sync.ApiCall) : option string :=
  match last issued with
  | Some Sync.GetActiveSurveys => Some "new surveys"
  | _ => None
  end.

Section AuthVocabulary.
Import Auth.


(** One use of the login form with a well-formed address and password,
    submitted at [a.1.1]; if the credentials are sent, the server answers
    with [a.2] at [a.1.2]. *)
Definition attempt (w : World) (a : Z * Z * LoginOutcome) : World :=
  let '(w1, sent) := handleLogin true true a.1.1 w in
  if sent then handleLogin_resume a.2 false a.1.2 w1 else w1.

Definition attempts (l : list (Z * Z * LoginOutcome)) (w : World) : World :=
  foldl attempt w l.

(** The form submitted at each of the given times, whatever is typed. *)
Definition submissions (l : list (bool * bool * Z)) (w : World) : World :=
  foldl (fun w s => (handleLogin s.1.1 s.1.2 s.2 w).1) w l.

(** [logout] run to its end. *)
Definition logout_completed (silent resolved : bool) (w : World) : World :=
  let '(w1, pending) := logout silent w in
  if pending then logout_resume silent resolved w1 else w1.


End AuthVocabulary.

(** Seven uses of the login form within seven seconds, none granted, and
    the module after the first five of them. *)
Definition seven_failures : list (Z * Z * Auth.LoginOutcome) :=
  [(0, 500, Auth.Rejected); (1000, 1500, Auth.Refused None);
   (2000, 2500, Auth.Refused (Some "bad password")); (3000, 3500, Auth.Rejected);
   (4000, 4500, Auth.Rejected); (5000, 5500, Auth.Rejected);
   (6000, 6500, Auth.Rejected)]%Z.
Definition locked_world : Auth.World := attempts (take 5 seven_failures) Auth.start.

(** A day in the life of the module: a granted login, ticks of the refresh
    timer, a failed refresh, a session check two days later, a page load. *)
Definition auth_day : list Auth.Event :=
  [Auth.SubmitLogin true true 0; Auth.LoginSettles (Auth.Granted "tok1" "amal") true 900;
   Auth.RefreshTick; Auth.RefreshSettles Auth.Failed; Auth.LogoutSettles true false;
   Auth.SubmitLogin true true 5000; Auth.LoginSettles (Auth.Granted "tok2" "amal") false 5900;
   Auth.RefreshTick; Auth.SessionCheck 172800000; Auth.LogoutSettles true true;
   Auth.PageLoad 172900000]%Z.

Section SessionVocabulary.
Import Session.

(** Page loads one after the other. *)
Definition loads (ls : list Load) (w : World) : World :=
  foldl (fun w l => init l w) w ls.

(** Each load comes less than [sessionTimeout] after the one before it, the
    first one after [t]. *)
Fixpoint close_after (t : Z) (ls : list Load) : Prop :=
  match ls with
  | [] => True
  | l :: ls' => (at_time l - t < sessionTimeout)%Z /\ close_after (at_time l) ls'
  end.

(** No session is stored, or the stored one is too old at [t]. *)
Definition no_session_at (t : Z) (w : World) : Prop :=
  match storedSession w with
  | Some saved => (sessionTimeout <= t - timestamp saved)%Z
  | None => True
  end.

End SessionVocabulary.

(** Three page loads twenty minutes apart, and one two hours later. *)
Definition first_load : Session.Load :=
  Session.mkLoad 0 "session_0_k3x" "anon_p9q_0" None.
Definition later_loads : list Session.Load :=
  [Session.mkLoad 1200000 "session_1200000_abc" "anon_zzz_1" (Some "u17");
   Session.mkLoad 2400000 "session_2400000_def" "anon_yyy_2" None].
Definition late_load : Session.Load :=
  Session.mkLoad 9600000 "session_9600000_ghi" "anon_xxx_3" None.
Definition first_visit : Session.World :=
  Session.mkWorld Session.initial_state None None.

Section TrackerVocabulary.
Import Tracker.

(** The events tracked, and those tracked while online. *)
Definition tracked (s : Step) : option LocalEvent :=
  match s with Track e _ => Some e | Settles _ => None end.
Definition tracked_online (s : Step) : option LocalEvent :=
  match s with Track e true => Some e | _ => None end.
Definition is_delivery (s : Step) : bool :=
  match s with Settles true => true | _ => false end.

End TrackerVocabulary.

Definition ev_offline : Tracker.LocalEvent :=
  Tracker.mkLocalEvent "survey_started" "{'survey_id':3}" "t1".
Definition ev_online : Tracker.LocalEvent :=
  Tracker.mkLocalEvent "result_viewed" "{'result_id':8}" "t2".

(** * Properties of the event queue *)

Section AnalyticsFacts.
Import Analytics.

Lemma addToQueue_disabled (e : Event) (w : World) :
  trackingEnabled w = false -> addToQueue e w = (w, []).
Proof. intros Hoff. unfold addToQueue. now rewrite Hoff. Qed.

Lemma track_disabled (c : TrackingCall) (w : World) :
  trackingEnabled w = false ->
  trackingEnabled (track c w).1 = false
  /\ queue_view (track c w).1 = queue_view w
  /\ (track c w).2 = [].
Proof.
  intros Hoff.
  destruct c; simpl;
    repeat match goal with
           | |- context [if ?b then _ else _] => destruct b
           end;
    try (rewrite addToQueue_disabled by exact Hoff);
    try (rewrite addToQueue_disabled by (simpl; exact Hoff));
    simpl; auto.
Qed.

Lemma track_all_disabled (cs : list TrackingCall) (w : World) :
  trackingEnabled w = false ->
  trackingEnabled (track_all cs w).1 = false
  /\ queue_view (track_all cs w).1 = queue_view w
  /\ (track_all cs w).2 = [].
Proof.
  revert w. induction cs as [|c cs IH]; intros w Hoff; simpl; [auto|].
  destruct (track_disabled c w Hoff) as (Hoff1 & Hview1 & Hk1).
  destruct (track c w) as [w1 k1]; simpl in *.
  destruct (IH w1 Hoff1) as (Hoff2 & Hview2 & Hk2).
  destruct (track_all cs w1) as [w2 k2]; simpl in *.
  subst. rewrite Hview2, Hview1. auto.
Qed.

Lemma init_do_not_track (pageUrl pageViewData : string) (w : World) :
  respectDNT w = true -> doNotTrack w = Some "1" ->
  trackingEnabled (init pageUrl pageViewData w).1 = false
  /\ queue_view (init pageUrl pageViewData w).1 = queue_view w
  /\ (init pageUrl pageViewData w).2 = [].
Proof.
  intros Hr Hd. unfold init. rewrite Hr, Hd.
  destruct (trackingEnabled w) eqn:Hon; simpl; auto.
Qed.

(** The three ways a suspended flush ends. *)
Lemma flushQueue_resume_delivered (snapshot : list Event) (w : World) :
  eventQueue (flushQueue_resume snapshot (Resolved true) w) = eventQueue w
  /\ storedQueue (flushQueue_resume snapshot (Resolved true) w) = None.
Proof. split; reflexivity. Qed.

Lemma flushQueue_resume_refused (snapshot : list Event) (w : World) :
  eventQueue (flushQueue_resume snapshot (Resolved false) w)
    = snapshot ++ eventQueue w
  /\ storedQueue (flushQueue_resume snapshot (Resolved false) w)
    = Some (snapshot ++ eventQueue w).
Proof. split; reflexivity. Qed.

Lemma flushQueue_resume_thrown (snapshot : list Event) (w : World) :
  eventQueue (flushQueue_resume snapshot Rejected w) = eventQueue w
  /\ storedQueue (flushQueue_resume snapshot Rejected w) = Some (eventQueue w).
Proof. split; reflexivity. Qed.

Lemma flushQueue_offline (w : World) :
  isFlushing w = false -> online w = false ->
  (flushQueue w).2 = None
  /\ eventQueue (flushQueue w).1 = eventQueue w
  /\ sent (flushQueue w).1 = sent w
  /\ (eventQueue w <> [] -> storedQueue (flushQueue w).1 = Some (eventQueue w)).
Proof.
  intros Hf Ho. unfold flushQueue. rewrite Hf. simpl.
  case_bool_decide as Hlen; simpl.
  - repeat split; auto. intros Hne. destruct (eventQueue w); [done | discriminate].
  - rewrite Ho. simpl. rewrite app_nil_r. auto.
Qed.

Lemma flushQueue_online (w : World) :
  isFlushing w = false -> online w = true -> eventQueue w <> [] ->
  (flushQueue w).2 = Some (eventQueue w)
  /\ eventQueue (flushQueue w).1 = []
  /\ isFlushing (flushQueue w).1 = true
  /\ sent (flushQueue w).1 = sent w ++ [eventQueue w].
Proof.
  intros Hf Ho Hne. unfold flushQueue. rewrite Hf. simpl.
  case_bool_decide as Hlen; simpl.
  - destruct (eventQueue w); [done | discriminate].
  - rewrite Ho. simpl. auto.
Qed.

(** Whatever is queued, a flush that reaches the gateway and ends in the
    [catch] block leaves the live queue and its stored copy empty. *)
Lemma flush_thrown_loses_queue (w : World) :
  isFlushing w = false -> online w = true -> eventQueue w <> [] ->
  (flushQueue w).2 = Some (eventQueue w)
  /\ eventQueue (flushQueue_resume (eventQueue w) Rejected (flushQueue w).1) = []
  /\ storedQueue (flushQueue_resume (eventQueue w) Rejected (flushQueue w).1) = Some [].
Proof.
  intros Hf Ho Hne.
  destruct (flushQueue_online w Hf Ho Hne) as (Hk & Hq & _).
  destruct (flushQueue_resume_thrown (eventQueue w) (flushQueue w).1) as [H1 H2].
  rewrite H1, H2, Hq. auto.
Qed.

(** A flush that finds the guard taken, or nothing to send, does nothing. *)
Lemma flushQueue_guarded (w : World) :
  isFlushing w = true \/ eventQueue w = [] -> flushQueue w = (w, None).
Proof.
  intros [Hf | Hq]; unfold flushQueue.
  - now rewrite Hf.
  - rewrite Hq. simpl. now rewrite orb_true_r.
Qed.

(** C1 (the code departs from the claim): after A, B and C are recorded and
    the flush ends in the [catch] block, the live queue and its stored copy
    are empty, and the flush that follows the recording of D hands the
    gateway the batch [D] alone, not [A; B; C; D]. *)
Theorem flush_thrown_drops_snapshot :
  eventQueue scenario_after_failed_flush = []
  /\ storedQueue scenario_after_failed_flush = Some []
  /\ isFlushing scenario_after_failed_flush = false
  /\ sent scenario_end = [[evA; evB; evC]; [evD]]
  /\ eventQueue scenario_end = []
  /\ storedQueue scenario_end = None.
Proof. vm_compute. repeat split. Qed.

(** C9: a flush that passes its guard either ends at the call (offline) with
    [isFlushing] false, or suspends on the gateway with [isFlushing] true and,
    however the delivery ends (accepted, refused or thrown) and whatever the
    world then is, leaves [isFlushing] false, so that the next flush of a
    queue that is not empty reaches the gateway again. *)
Theorem flushQueue_releases_guard (w : World) :
  isFlushing w = false -> eventQueue w <> [] ->
  match flushQueue w with
  | (w1, None) => online w = false /\ isFlushing w1 = false
  | (w1, Some snapshot) =>
      online w = true /\ isFlushing w1 = true
      /\ forall (d : Delivery) (w2 : World),
           let w3 := flushQueue_resume snapshot d w2 in
           isFlushing w3 = false
           /\ (online w3 = true -> eventQueue w3 <> [] ->
               (flushQueue w3).2 = Some (eventQueue w3))
  end.
Proof.
  intros Hf Hne. destruct (online w) eqn:Ho.
  - destruct (flushQueue_online w Hf Ho Hne) as (Hk & _ & Hfl & _).
    destruct (flushQueue w) as [w1 k]; simpl in *. subst k.
    split; [reflexivity|]. split; [exact Hfl|].
    intros d w2. cbv zeta.
    assert (Hf3 : isFlushing (flushQueue_resume (eventQueue w) d w2) = false)
      by (now destruct d as [[]|]).
    split; [exact Hf3|].
    intros Ho3 Hq. exact (proj1 (flushQueue_online _ Hf3 Ho3 Hq)).
  - unfold flushQueue. rewrite Hf. simpl.
    case_bool_decide as Hlen.
    + destruct (eventQueue w); [done | discriminate].
    + rewrite Ho. simpl. auto.
Qed.

Lemma flushQueue_releases_guard_witness :
  let w := (addToQueue evA (initial true None)).1 in
  isFlushing w = false /\ eventQueue w <> []
  /\ (flushQueue w).2 = Some [evA]
  /\ isFlushing (flushQueue_resume [evA] Rejected (flushQueue w).1) = false.
Proof.
  assert (Hf : isFlushing (addToQueue evA (initial true None)).1 = false)
    by reflexivity.
  assert (Hq : eventQueue (addToQueue evA (initial true None)).1 <> [])
    by (vm_compute; discriminate).
  pose proof (flushQueue_releases_guard _ Hf Hq) as H.
  simpl. split; [exact Hf|]. split; [exact Hq|]. split; [reflexivity|].
  vm_compute in H. destruct H as (_ & _ & H).
  exact (proj1 (H Rejected (flushQueue (addToQueue evA (initial true None)).1).1)).
Defined.

(** C10: with tracking switched off, and so after [init] has met the
    browser's Do-Not-Track request, [addToQueue] returns the world it was
    given, and every run of tracking calls leaves the live queue, its stored
    copy, the flush guard and the log of batches sent as they were, with no
    flush left suspended. *)
Theorem tracking_disabled_is_noop :
  (forall (e : Event) (w : World),
     trackingEnabled w = false -> addToQueue e w = (w, []))
  /\ (forall (cs : list TrackingCall) (w : World),
        trackingEnabled w = false ->
        trackingEnabled (track_all cs w).1 = false
        /\ queue_view (track_all cs w).1 = queue_view w
        /\ (track_all cs w).2 = [])
  /\ (forall (pageUrl pageViewData : string) (cs : list TrackingCall) (w : World),
        respectDNT w = true -> doNotTrack w = Some "1" ->
        let w1 := (init pageUrl pageViewData w).1 in
        trackingEnabled w1 = false
        /\ (init pageUrl pageViewData w).2 = []
        /\ queue_view (track_all cs w1).1 = queue_view w
        /\ (track_all cs w1).2 = []).
Proof.
  split; [exact addToQueue_disabled|]. split; [exact track_all_disabled|].
  intros pageUrl pageViewData cs w Hr Hd w1.
  destruct (init_do_not_track pageUrl pageViewData w Hr Hd) as (Hoff & Hview & Hk).
  destruct (track_all_disabled cs w1 Hoff) as (_ & Hview' & Hk').
  repeat split; auto. now rewrite Hview'.
Qed.

Lemma tracking_disabled_is_noop_witness :
  let w := initial true (Some "1") in
  let w1 := (init "/" "home" w).1 in
  respectDNT w = true /\ doNotTrack w = Some "1"
  /\ trackingEnabled w1 = false
  /\ addToQueue evA w1 = (w1, [])
  /\ queue_view (track_all [TrackError "boom"; TrackPageView "/s" "p"] w1).1
     = queue_view w.
Proof.
  destruct tracking_disabled_is_noop as (Hadd & _ & Hinit).
  assert (Hr : respectDNT (initial true (Some "1")) = true) by reflexivity.
  assert (Hd : doNotTrack (initial true (Some "1")) = Some "1") by reflexivity.
  destruct (Hinit "/" "home" [TrackError "boom"; TrackPageView "/s" "p"]
              (initial true (Some "1")) Hr Hd) as (Hoff & _ & Hview & _).
  simpl. split; [exact Hr|]. split; [exact Hd|]. split; [exact Hoff|].
  split; [exact (Hadd evA _ Hoff) | exact Hview].
Defined.

End AnalyticsFacts.

(** * Properties of the request gateway *)

Section RetryFacts.
Import Api.




(** With no attempt allowed the loop never runs. *)
Lemma fetchWithRetry_none (net : Z -> Attempt) (attempts : Z) :
  (attempts <= 0)%Z -> fetchWithRetry net attempts = (Return None, []).
Proof.
  intros Hle. unfold fetchWithRetry.
  replace (Z.to_nat attempts) with 0 by lia. reflexivity.
Qed.

(** The fuel of [fetchLoop] is never what stops it. *)
Lemma fetchLoop_fuel (net : Z -> Attempt) (attempts : Z) (fuel fuel' : nat) (i : Z) :
  (attempts - i <= Z.of_nat fuel)%Z -> (attempts - i <= Z.of_nat fuel')%Z ->
  fetchLoop net attempts fuel i = fetchLoop net attempts fuel' i.
Proof.
  revert fuel' i. induction fuel as [|fuel IH]; intros fuel' i H1 H2.
  - destruct fuel' as [|fuel']; [reflexivity|].
    simpl. now rewrite bool_decide_eq_false_2 by lia.
  - destruct fuel' as [|fuel'].
    + simpl. now rewrite bool_decide_eq_false_2 by lia.
    + simpl. case_bool_decide as Hi; [|reflexivity].
      destruct (net i); [reflexivity|].
      case_bool_decide; [reflexivity|].
      now rewrite (IH fuel' (i + 1)%Z) by lia.
Qed.


Lemma handleResponse_ok (r : Response) (d : option Payload) :
  ok r = true -> read_body r = Return d ->
  handleResponse (Some r) = Return (default null_payload d).
Proof. intros Hok Hd. unfold handleResponse. now rewrite Hd, Hok. Qed.



End RetryFacts.

Section GatewayFacts.
Import Api.

Variable JSON_stringify : string -> string.

Local Abbreviation key_of := (generateCacheKey JSON_stringify).
Local Abbreviation request := (Api.request JSON_stringify).

Lemma read_cache_frame (c : bool) (k : string) (now : Z) (w : World) :
  pendingRequests (read_cache c k now w).1 = pendingRequests w
  /\ authToken (read_cache c k now w).1 = authToken w
  /\ nextPromise (read_cache c k now w).1 = nextPromise w
  /\ dispatched (read_cache c k now w).1 = dispatched w.
Proof.
  unfold read_cache. destruct c; [|auto].
  destruct (cache w !! k) as [entry|]; [|auto].
  case_bool_decide; auto.
Qed.

Lemma read_cache_hit (c : bool) (k : string) (now : Z) (w : World) (d : Payload) :
  (read_cache c k now w).2 = Some d <->
  c = true /\ exists entry, cache w !! k = Some entry /\ entry_data entry = d
                       /\ (now - timestamp entry < cacheDuration)%Z.
Proof.
  unfold read_cache. destruct c.
  - destruct (cache w !! k) as [entry|] eqn:E.
    + case_bool_decide as Hage; simpl.
      * split.
        -- intros [= <-]. eauto.
        -- intros (_ & entry' & [= <-] & <- & _). reflexivity.
      * split; [discriminate|]. intros (_ & entry' & [= <-] & _ & Hlt). lia.
    + simpl. split; [discriminate|]. intros (_ & entry' & [=] & _).
  - simpl. split; [discriminate|]. intros [[=] _].
Qed.

Lemma read_cache_hit_world (c : bool) (k : string) (now : Z) (w : World) (d : Payload) :
  (read_cache c k now w).2 = Some d -> (read_cache c k now w).1 = w.
Proof.
  unfold read_cache. destruct c; [|discriminate].
  destruct (cache w !! k); [|discriminate].
  case_bool_decide; [reflexivity | discriminate].
Qed.

(** After a miss the entry at the key is gone when the request is cacheable;
    other keys keep what they had, and nothing is ever added. *)
Lemma read_cache_miss (k : string) (now : Z) (w : World) :
  (read_cache true k now w).2 = None -> cache (read_cache true k now w).1 !! k = None.
Proof.
  unfold read_cache. destruct (cache w !! k) eqn:E; [|simpl; intros _; exact E].
  case_bool_decide; [discriminate|]. simpl. intros _. apply lookup_delete_eq.
Qed.

Lemma read_cache_shrinks (c : bool) (k k' : string) (now : Z) (w : World) :
  cache w !! k' = None -> cache (read_cache c k now w).1 !! k' = None.
Proof.
  intros Hnone. unfold read_cache. destruct c; [|exact Hnone].
  destruct (cache w !! k); [|exact Hnone].
  case_bool_decide; [exact Hnone|]. simpl.
  rewrite lookup_delete. case_decide; [reflexivity | exact Hnone].
Qed.

(** The three answers of [request]. *)
Lemma request_cached (e : string) (o : Options) (now : Z) (w w' : World) (d : Payload) :
  request e o now w = (w', Cached d) <->
  w' = w /\ cacheable o = true
  /\ exists entry, cache w !! key_of e o = Some entry /\ entry_data entry = d
                   /\ (now - timestamp entry < cacheDuration)%Z.
Proof.
  unfold Api.request. fold (cacheable o).
  destruct (read_cache (cacheable o) (key_of e o) now w) as [w1 [d1|]] eqn:E.
  - pose proof (read_cache_hit (cacheable o) (key_of e o) now w d1) as Hhit.
    pose proof (read_cache_hit_world (cacheable o) (key_of e o) now w d1) as Hw.
    rewrite E in Hhit, Hw. simpl in *.
    destruct (proj1 Hhit eq_refl) as (Hc & entry & Hentry & Hd & Hage).
    rewrite (Hw eq_refl). split.
    + intros [= <- <-]. eauto 10.
    + intros (-> & _ & entry' & Hentry' & <- & _).
      rewrite Hentry in Hentry'. injection Hentry' as <-. now rewrite Hd.
  - split.
    + destruct (pendingRequests w1 !! key_of e o); discriminate.
    + intros (_ & Hc & entry & Hentry & Hd & Hage).
      pose proof (proj2 (read_cache_hit (cacheable o) (key_of e o) now w d)) as Hhit.
      rewrite E in Hhit. simpl in Hhit. discriminate Hhit. eauto 10.
Qed.

Lemma request_shared (e : string) (o : Options) (now : Z) (w : World) (p : nat) :
  (read_cache (cacheable o) (key_of e o) now w).2 = None ->
  pendingRequests w !! key_of e o = Some p ->
  request e o now w = ((read_cache (cacheable o) (key_of e o) now w).1, Shared p).
Proof.
  intros Hmiss Hp. unfold Api.request. fold (cacheable o).
  destruct (read_cache_frame (cacheable o) (key_of e o) now w) as (Hpend & _).
  destruct (read_cache (cacheable o) (key_of e o) now w) as [w1 r]; simpl in *.
  subst r. now rewrite Hpend, Hp.
Qed.

Lemma request_fresh (e : string) (o : Options) (now : Z) (w : World) :
  (read_cache (cacheable o) (key_of e o) now w).2 = None ->
  pendingRequests w !! key_of e o = None ->
  let w1 := (read_cache (cacheable o) (key_of e o) now w).1 in
  request e o now w =
    (set_pendingRequests (<[key_of e o := nextPromise w]> (pendingRequests w))
       (new_promise (dispatch (requestOptions e o w1) w1)),
     Fresh (mkFlight (nextPromise w) (key_of e o) (cacheable o))).
Proof.
  intros Hmiss Hp. unfold Api.request. fold (cacheable o).
  destruct (read_cache_frame (cacheable o) (key_of e o) now w) as (Hpend & _ & Hnext & _).
  destruct (read_cache (cacheable o) (key_of e o) now w) as [w1 r]; simpl in *.
  subst r. rewrite Hpend, Hp. simpl. now rewrite ?Hnext, ?Hpend.
Qed.

(** Only a fresh flight reaches the transport, and it does so once. *)
Lemma request_dispatched (e : string) (o : Options) (now : Z) (w : World) :
  match (request e o now w).2 with
  | Fresh _ =>
      dispatched (request e o now w).1
        = dispatched w ++ [requestOptions e o (read_cache (cacheable o) (key_of e o) now w).1]
      /\ pendingRequests w !! key_of e o = None
  | _ => dispatched (request e o now w).1 = dispatched w
  end.
Proof.
  destruct (read_cache_frame (cacheable o) (key_of e o) now w) as (Hpend & _ & _ & Hdisp).
  destruct (read_cache (cacheable o) (key_of e o) now w).2 as [d|] eqn:Hrc.
  - pose proof (read_cache_hit_world _ _ _ _ _ Hrc) as Hw.
    unfold Api.request. fold (cacheable o).
    destruct (read_cache (cacheable o) (key_of e o) now w) as [w1 r]; simpl in *.
    subst. reflexivity.
  - destruct (pendingRequests w !! key_of e o) as [p|] eqn:Hp.
    + rewrite (request_shared e o now w p Hrc Hp). simpl. exact Hdisp.
    + rewrite (request_fresh e o now w Hrc Hp). simpl. now rewrite Hdisp.
Qed.

Lemma requestOptions_headers (e : string) (o : Options) (w : World) :
  (forall token, authToken w = Some token -> token <> "" ->
     req_headers (requestOptions e o w)
       = <["Authorization" := "Bearer " +:+ token]> (default config_headers (headers o)))
  /\ (authToken w = None \/ authToken w = Some "" ->
      req_headers (requestOptions e o w) = default config_headers (headers o)).
Proof.
  unfold Api.requestOptions, getAuthToken. simpl. split.
  - intros token -> Hne. now rewrite bool_decide_eq_false_2.
  - intros [-> | ->]; reflexivity.
Qed.

(** The configured headers hold no [Authorization]. *)
Lemma config_headers_plain : config_headers !! "Authorization" = None.
Proof. reflexivity. Qed.

End GatewayFacts.

Section MachineFacts.
Import Api.

Variable JSON_stringify : string -> string.

Local Abbreviation key_of := (generateCacheKey JSON_stringify).
Local Abbreviation request := (Api.request JSON_stringify).
Local Abbreviation step := (Api.step JSON_stringify).
Local Abbreviation run := (Api.run JSON_stringify).

Lemma take_flight_Some (p : nat) (fs rest : list Flight) (f : Flight) :
  take_flight p fs = Some (f, rest) -> promise f = p /\ fs ≡ₚ f :: rest.
Proof.
  revert rest. induction fs as [|g fs IH]; intros rest; simpl; [discriminate|].
  case_bool_decide as Hp.
  - intros [= <- <-]. auto.
  - destruct (take_flight p fs) as [[f' rest']|]; [|discriminate].
    intros [= <- <-]. destruct (IH rest' eq_refl) as [Hpf Hperm].
    split; [exact Hpf|]. rewrite Hperm. apply Permutation_swap.
Qed.

Lemma take_flight_elem (p : nat) (fs : list Flight) (f : Flight) :
  f ∈ fs -> promise f = p -> is_Some (take_flight p fs).
Proof.
  induction fs as [|g fs IH]; intros Hin Hp; [inversion Hin|].
  simpl. case_bool_decide; [eauto|].
  apply elem_of_cons in Hin as [-> | Hin]; [congruence|].
  destruct (IH Hin Hp) as [[f' rest] ->]. eauto.
Qed.

Lemma request_resume_frame (f : Flight) (res : Result (option Response))
    (now : Z) (w : World) :
  let w' := (request_resume f res now w).1 in
  pendingRequests w' = delete (cacheKey f) (pendingRequests w)
  /\ nextPromise w' = nextPromise w
  /\ dispatched w' = dispatched w
  /\ authToken w' = authToken w
  /\ (forall k, k <> cacheKey f -> cache w' !! k = cache w !! k).
Proof.
  unfold request_resume. destruct res as [resp|e]; simpl; [|auto 10].
  destruct (handleResponse resp); simpl; [|auto 10].
  destruct (isCacheable f && from_option ok false resp); simpl; [|auto 10].
  repeat split; auto. intros k Hk. now rewrite lookup_insert_ne.
Qed.

Lemma flight_ok_shrink (w w' : World) (f : Flight) :
  pendingRequests w' = pendingRequests w ->
  nextPromise w <= nextPromise w' ->
  (cache w !! cacheKey f = None -> cache w' !! cacheKey f = None) ->
  flight_ok w f -> flight_ok w' f.
Proof.
  intros Hp Hn Hc (H1 & H2 & H3). repeat split.
  - now rewrite Hp.
  - lia.
  - auto.
Qed.

Lemma single_flight_frame (s : Sys) (w' : World) :
  pendingRequests w' = pendingRequests (world s) ->
  nextPromise (world s) <= nextPromise w' ->
  (forall k, cache (world s) !! k = None -> cache w' !! k = None) ->
  single_flight s -> single_flight (mkSys w' (flights s)).
Proof.
  intros Hp Hn Hc (Hk & Hpr & Hok & Hmap). repeat split; simpl; auto.
  - now apply (flight_ok_shrink (world s)); auto; apply Hok.
  - now apply (flight_ok_shrink (world s)); auto; apply Hok.
  - intros Hcf. apply Hc. now apply (Hok f H).
  - intros k p Hkp. rewrite Hp in Hkp. now apply Hmap.
Qed.

Lemma single_flight_call (s : Sys) (e : string) (o : Options) (now : Z) :
  single_flight s -> single_flight (step s (Call e o now)).
Proof.
  intros Hinv. simpl.
  destruct (read_cache_frame (cacheable o) (key_of e o) now (world s))
    as (Hpend & _ & Hnext & _).
  pose proof (fun k => read_cache_shrinks (cacheable o) (key_of e o) k now (world s))
    as Hshrink.
  destruct (read_cache (cacheable o) (key_of e o) now (world s)).2 as [d|] eqn:Hrc.
  - (* answered from the cache *)
    pose proof (read_cache_hit_world _ _ _ _ _ Hrc) as Hw.
    unfold Api.request. fold (cacheable o).
    destruct (read_cache (cacheable o) (key_of e o) now (world s)) as [w1 r];
      simpl in *. subst. now destruct s.
  - destruct (pendingRequests (world s) !! key_of e o) as [p|] eqn:Hp.
    + (* joins the flight under way *)
      rewrite (request_shared JSON_stringify e o now (world s) p Hrc Hp).
      apply single_flight_frame; auto. lia.
    + (* a new flight *)
      rewrite (request_fresh JSON_stringify e o now (world s) Hrc Hp).
      set (w1 := (read_cache (cacheable o) (key_of e o) now (world s)).1) in *.
      destruct Hinv as (Hk & Hpr & Hok & Hmap).
      assert (Hfreshkey : key_of e o ∉ cacheKey <$> flights s).
      { intros (f & Hkf & Hf)%list_elem_of_fmap.
        destruct (Hok f Hf) as (Hpf & _). rewrite <- Hkf in Hpf. congruence. }
      assert (Hfreshp : nextPromise (world s) ∉ promise <$> flights s).
      { intros (f & Hpf & Hf)%list_elem_of_fmap.
        destruct (Hok f Hf) as (_ & Hlt & _). lia. }
      repeat split; simpl.
      * rewrite fmap_app. apply NoDup_app. repeat split; [exact Hk| |apply NoDup_singleton].
        intros k Hkin Hk1. apply list_elem_of_singleton in Hk1. now subst.
      * rewrite fmap_app. apply NoDup_app. repeat split; [exact Hpr| |apply NoDup_singleton].
        intros k Hkin Hk1. apply list_elem_of_singleton in Hk1. now subst.
      * apply elem_of_app in H as [Hf | ->%list_elem_of_singleton]; simpl.
        -- destruct (Hok f Hf) as (Hpf & _).
           rewrite lookup_insert_ne; [exact Hpf|]. intros Heq.
           apply Hfreshkey. rewrite Heq. now apply list_elem_of_fmap_2.
        -- apply lookup_insert_eq.
      * apply elem_of_app in H as [Hf | ->%list_elem_of_singleton]; simpl.
        -- destruct (Hok f Hf) as (_ & Hlt & _). subst w1. rewrite Hnext. lia.
        -- subst w1. rewrite Hnext. lia.
      * apply elem_of_app in H as [Hf | ->%list_elem_of_singleton]; simpl.
        -- intros Hcf. apply Hshrink. now apply (Hok f Hf).
        -- intros Hc. subst w1. rewrite Hc in Hrc |- *. now apply read_cache_miss.
      * intros k p Hkp. destruct (decide (k = key_of e o)) as [-> | Hne].
        -- rewrite lookup_insert_eq in Hkp. injection Hkp as <-.
           eexists. split; [apply elem_of_app; right; apply list_elem_of_singleton; reflexivity|].
           simpl. auto.
        -- rewrite lookup_insert_ne in Hkp by congruence.
           destruct (Hmap k p Hkp) as (f & Hf & Hkf & Hpf).
           exists f. split; [apply elem_of_app; now left | auto].
Qed.

Lemma single_flight_settle (s : Sys) (p : nat) (res : Result (option Response))
    (now : Z) :
  single_flight s -> single_flight (step s (Settle p res now)).
Proof.
  intros Hinv. simpl.
  destruct (take_flight p (flights s)) as [[f rest]|] eqn:Htake; [|exact Hinv].
  destruct (take_flight_Some _ _ _ _ Htake) as [Hpf Hperm].
  destruct (request_resume_frame f res now (world s)) as (Hpend & Hnext & _ & _ & Hcache).
  destruct Hinv as (Hk & Hpr & Hok & Hmap).
  rewrite Hperm in Hk. rewrite Hperm in Hpr.
  change (NoDup (cacheKey f :: (cacheKey <$> rest))) in Hk.
  change (NoDup (promise f :: (promise <$> rest))) in Hpr.
  apply NoDup_cons in Hk as [Hkf Hk]. apply NoDup_cons in Hpr as [Hprf Hpr].
  assert (Hother : forall g, g ∈ rest -> cacheKey g <> cacheKey f).
  { intros g Hg Heq. apply Hkf. rewrite <- Heq. now apply list_elem_of_fmap_2. }
  assert (Hsub : forall g, g ∈ rest -> g ∈ flights s).
  { intros g Hg. rewrite Hperm. now apply elem_of_cons; right. }
  repeat split; simpl; auto.
  - rewrite Hpend, lookup_delete_ne by (symmetry; now apply Hother).
    now apply (Hok f0 (Hsub _ H)).
  - rewrite Hnext. now apply (Hok f0 (Hsub _ H)).
  - intros Hc. rewrite Hcache by now apply Hother. now apply (Hok f0 (Hsub _ H)).
  - intros k q Hkq. rewrite Hpend in Hkq.
    apply lookup_delete_Some in Hkq as [Hne Hkq].
    destruct (Hmap k q Hkq) as (g & Hg & Hkg & Hpg).
    exists g. split; [|auto].
    rewrite Hperm in Hg. apply elem_of_cons in Hg as [-> | Hg]; [congruence | exact Hg].
Qed.

Lemma single_flight_step (s : Sys) (ev : Event) :
  single_flight s -> single_flight (step s ev).
Proof.
  destruct ev.
  - apply single_flight_call.
  - apply single_flight_settle.
  - intros H. simpl. apply single_flight_frame; auto.
    intros k Hk. simpl. apply map_lookup_filter_None. now left.
  - intros H. simpl. apply single_flight_frame; auto.
  - intros H. simpl. apply single_flight_frame; auto.
    intros k Hk. simpl. rewrite lookup_delete. now case_decide.
  - intros H. simpl. apply single_flight_frame; auto.
  - intros H. simpl. apply single_flight_frame; auto.
  - intros H. simpl. apply single_flight_frame; auto.
Qed.

Lemma single_flight_run (evs : list Event) (s : Sys) :
  single_flight s -> single_flight (run evs s).
Proof.
  revert s. induction evs as [|ev evs IH]; intros s Hinv; [exact Hinv|].
  simpl. apply IH. now apply single_flight_step.
Qed.

Lemma single_flight_start : single_flight start.
Proof.
  unfold single_flight. simpl.
  split; [apply NoDup_nil_2|]. split; [apply NoDup_nil_2|]. split.
  - intros f Hf. inversion Hf.
  - intros k p Hkp. rewrite lookup_empty in Hkp. discriminate.
Qed.

End MachineFacts.

Section GatewayClaims.
Import Api.


End GatewayClaims.



Section HeaderClaims.
Import Api.

Variable JSON_stringify : string -> string.

Local Abbreviation key_of := (generateCacheKey JSON_stringify).
Local Abbreviation request := (Api.request JSON_stringify).

(** C7, as amended: [request] hands the transport at most one request, and
    only when it starts a new flight.  That request carries the header
    [Authorization: Bearer <token>] when a token that is not empty is stored;
    with no token, or an empty one, its headers are those the caller gave (the
    configured ones when the caller gave none), so [request] adds no
    [Authorization] header.  [healthCheck] hands the transport a request
    without any header, whatever is stored. *)
Theorem request_bearer_header :
  (forall (e : string) (o : Options) (now : Z) (w : World),
     match (request e o now w).2 with
     | Fresh _ =>
         exists r,
           dispatched (request e o now w).1 = dispatched w ++ [r]
           /\ (forall token, authToken w = Some token -> token <> "" ->
                 req_headers r
                   = <["Authorization" := "Bearer " +:+ token]>
                       (default config_headers (headers o)))
           /\ (authToken w = None \/ authToken w = Some "" ->
               req_headers r = default config_headers (headers o))
     | _ => dispatched (request e o now w).1 = dispatched w
     end)
  /\ (forall (a : Attempt) (w : World),
        exists r,
          dispatched (healthCheck a w).1 = dispatched w ++ [r]
          /\ req_headers r = ∅).
Proof.
  split.
  - intros e o now w.
    pose proof (request_dispatched JSON_stringify e o now w) as Hd.
    destruct (read_cache_frame (cacheable o) (key_of e o) now w) as (_ & Htok & _).
    destruct (request e o now w).2; try exact Hd.
    destruct Hd as [Hd _]. eexists. split; [exact Hd|].
    destruct (requestOptions_headers e o
                (read_cache (cacheable o) (key_of e o) now w).1) as [H1 H2].
    rewrite Htok in H1, H2. split; assumption.
  - intros a w. eexists. split; reflexivity.
Qed.

End HeaderClaims.

Lemma request_bearer_header_witness :
  let w := Api.setAuthToken "secret" Api.initial in
  sent_authorization (Api.request id "/surveys" get_options 0 w).1
    = [Some "Bearer secret"]
  /\ sent_authorization (Api.request id "/surveys" get_options 0 Api.initial).1
     = [None].
Proof.
  destruct (request_bearer_header id) as [Hreq _].
  pose proof (Hreq "/surveys" get_options 0%Z (Api.setAuthToken "secret" Api.initial)) as H1.
  pose proof (Hreq "/surveys" get_options 0%Z Api.initial) as H2.
  cbv zeta. unfold sent_authorization. split.
  - change ((Api.request id "/surveys" get_options 0
               (Api.setAuthToken "secret" Api.initial)).2)
      with (Api.Fresh (Api.mkFlight 0 "/surveys_GET_" true)) in H1.
    destruct H1 as (r & -> & Hr & _). simpl.
    rewrite (Hr "secret" eq_refl ltac:(discriminate)). reflexivity.
  - change ((Api.request id "/surveys" get_options 0 Api.initial).2)
      with (Api.Fresh (Api.mkFlight 0 "/surveys_GET_" true)) in H2.
    destruct H2 as (r & -> & _ & Hr). simpl.
    rewrite (Hr (or_introl eq_refl)). reflexivity.
Defined.

(** C7 as stated fails: with the token "secret" stored, the request of
    [healthCheck] carries no [Authorization] header; with an empty token
    stored, neither does the request of [request]; and with no token stored, a
    request whose caller gave an [Authorization] header carries it. *)
Lemma bearer_header_counterexample :
  (let w := Api.setAuthToken "secret" Api.initial in
   Api.authToken w = Some "secret"
   /\ sent_authorization (Api.healthCheck (Api.Fails "down") w).1 = [None])
  /\ (let w := Api.setAuthToken "" Api.initial in
      Api.authToken w = Some ""
      /\ sent_authorization (Api.request id "/surveys" get_options 0 w).1 = [None])
  /\ (Api.authToken Api.initial = None
      /\ sent_authorization
           (Api.request id "/surveys" basic_auth_options 0 Api.initial).1
         = [Some "Basic dXNlcg"]).
Proof. vm_compute. repeat split. Qed.

Section CacheClaims.
Import Api.

Variable JSON_stringify : string -> string.

Local Abbreviation key_of := (generateCacheKey JSON_stringify).
Local Abbreviation request := (Api.request JSON_stringify).

Lemma read_cache_stale (k : string) (now : Z) (w : World) (entry : CacheEntry) :
  cache w !! k = Some entry -> (cacheDuration <= now - timestamp entry)%Z ->
  read_cache true k now w = (set_cache (delete k (cache w)) w, None).
Proof.
  intros Hentry Hage. unfold read_cache. rewrite Hentry.
  now rewrite bool_decide_eq_false_2 by lia.
Qed.

Lemma sweep_lookup (now : Z) (w : World) (k : string) (entry : CacheEntry) :
  cache (sweep now w) !! k = Some entry <->
  cache w !! k = Some entry /\ (now - timestamp entry <= cacheDuration)%Z.
Proof.
  unfold sweep. simpl. rewrite map_lookup_filter_Some. simpl.
  split; intros [H1 H2]; split; auto; lia.
Qed.

(** C5, as amended: a request that is dispatched for a call with method GET
    and without [noCache] stores its 2xx response, when the body can be
    read, under the key with the time of storing; a request that a call with
    [noCache] started stores nothing, also when calls without [noCache] have
    joined it, and a call that joins starts no request of its own; a call
    with method GET and without [noCache] made less than [cacheDuration]
    after the storing returns the stored value and leaves the world, the log
    of dispatches included, as it was; no call is ever answered with an entry
    whose age has reached [cacheDuration]; the call that finds such an entry
    deletes it and goes to the network, joining the request in flight for the
    key when there is one and dispatching a new one otherwise; and the sweep
    keeps exactly the entries that are not older than [cacheDuration]. *)
Theorem request_cache_lifetime :
  (forall (e : string) (o : Options) (now : Z) (w : World) (f : Flight)
          (r : Response) (d : option Payload) (now' : Z) (w' : World),
     cacheable o = true -> (request e o now w).2 = Fresh f ->
     ok r = true -> read_body r = Return d ->
     request_resume f (Return (Some r)) now' w'
       = (set_pendingRequests (delete (key_of e o) (pendingRequests w'))
            (set_cache
               (<[key_of e o := mkCacheEntry (default null_payload d) now']> (cache w'))
               w'),
          Return (default null_payload d)))
  /\ (forall (e : string) (o : Options) (now : Z) (w : World) (f : Flight)
             (res : Result (option Response)) (now' : Z) (w' : World),
        noCache o = true -> (request e o now w).2 = Fresh f ->
        cache (request_resume f res now' w').1 = cache w')
  /\ (forall (e : string) (o : Options) (now : Z) (w : World) (p : nat),
        (request e o now w).2 = Shared p ->
        pendingRequests (request e o now w).1 = pendingRequests w
        /\ nextPromise (request e o now w).1 = nextPromise w
        /\ dispatched (request e o now w).1 = dispatched w)
  /\ (forall (e : string) (o : Options) (now : Z) (w : World) (entry : CacheEntry),
        cacheable o = true ->
        cache w !! key_of e o = Some entry ->
        (now - timestamp entry < cacheDuration)%Z ->
        request e o now w = (w, Cached (entry_data entry)))
  /\ (forall (e : string) (o : Options) (now : Z) (w : World) (d : Payload),
        (request e o now w).2 = Cached d ->
        exists entry, cache w !! key_of e o = Some entry /\ entry_data entry = d
                      /\ (now - timestamp entry < cacheDuration)%Z)
  /\ (forall (e : string) (o : Options) (now : Z) (w : World) (entry : CacheEntry),
        cacheable o = true ->
        cache w !! key_of e o = Some entry ->
        (cacheDuration <= now - timestamp entry)%Z ->
        cache (request e o now w).1 !! key_of e o = None
        /\ match pendingRequests w !! key_of e o with
           | Some p =>
               (request e o now w).2 = Shared p
               /\ dispatched (request e o now w).1 = dispatched w
           | None =>
               (request e o now w).2
                 = Fresh (mkFlight (nextPromise w) (key_of e o) true)
               /\ length (dispatched (request e o now w).1)
                  = S (length (dispatched w))
           end)
  /\ (forall (now : Z) (w : World) (k : string) (entry : CacheEntry),
        cache (sweep now w) !! k = Some entry <->
        cache w !! k = Some entry /\ (now - timestamp entry <= cacheDuration)%Z).
Proof.
  assert (Hflight : forall e o now w f,
            (request e o now w).2 = Fresh f ->
            cacheKey f = key_of e o /\ isCacheable f = cacheable o).
  { intros e o now w f Hf.
    destruct (read_cache (cacheable o) (key_of e o) now w).2 as [d|] eqn:Hrc.
    - destruct (request e o now w) as [w1 a] eqn:E.
      pose proof (read_cache_hit_world _ _ _ _ _ Hrc) as Hw.
      unfold Api.request in E. fold (cacheable o) in E.
      destruct (read_cache (cacheable o) (key_of e o) now w) as [w2 r]; simpl in *.
      subst r. injection E as _ <-. discriminate.
    - destruct (pendingRequests w !! key_of e o) as [p|] eqn:Hp.
      + rewrite (request_shared JSON_stringify e o now w p Hrc Hp) in Hf. discriminate.
      + rewrite (request_fresh JSON_stringify e o now w Hrc Hp) in Hf.
        injection Hf as <-. split; reflexivity. }
  split; [|split; [|split; [|split; [|split; [|split]]]]].
  - intros e o now w f r d now' w' Hc Hf Hok Hd.
    destruct (Hflight e o now w f Hf) as [Hk Hi].
    unfold request_resume. rewrite (handleResponse_ok r d Hok Hd). simpl.
    now rewrite Hi, Hc, Hok, Hk.
  - intros e o now w f res now' w' Hn Hf.
    destruct (Hflight e o now w f Hf) as [_ Hi].
    assert (Hc : cacheable o = false)
      by (unfold cacheable; rewrite Hn; apply andb_false_r).
    unfold request_resume. rewrite Hi, Hc.
    destruct res as [resp|err]; [|reflexivity].
    destruct (handleResponse resp); reflexivity.
  - intros e o now w p Hs.
    destruct (read_cache_frame (cacheable o) (key_of e o) now w) as (Hpend & _ & Hnext & Hdisp).
    destruct (read_cache (cacheable o) (key_of e o) now w).2 as [d|] eqn:Hrc.
    + destruct (request e o now w) as [w1 a] eqn:E.
      pose proof (read_cache_hit_world _ _ _ _ _ Hrc) as Hw.
      unfold Api.request in E. fold (cacheable o) in E.
      destruct (read_cache (cacheable o) (key_of e o) now w) as [w2 r]; simpl in *.
      subst r. injection E as _ <-. discriminate.
    + destruct (pendingRequests w !! key_of e o) as [q|] eqn:Hp.
      * rewrite (request_shared JSON_stringify e o now w q Hrc Hp). simpl. auto.
      * rewrite (request_fresh JSON_stringify e o now w Hrc Hp) in Hs. discriminate.
  - intros e o now w entry Hc Hentry Hage.
    apply request_cached. eauto 10.
  - intros e o now w d Hans.
    destruct (request e o now w) as [w' a] eqn:E. simpl in Hans. subst a.
    apply request_cached in E as (_ & _ & H). exact H.
  - intros e o now w entry Hc Hentry Hage.
    pose proof (read_cache_stale _ now w entry Hentry Hage) as Hrc.
    assert (Hmiss : (read_cache (cacheable o) (key_of e o) now w).2 = None)
      by (now rewrite Hc, Hrc).
    destruct (pendingRequests w !! key_of e o) as [p|] eqn:Hp.
    + rewrite (request_shared JSON_stringify e o now w p Hmiss Hp).
      rewrite Hc, Hrc. simpl. split; [apply lookup_delete_eq | auto].
    + rewrite (request_fresh JSON_stringify e o now w Hmiss Hp).
      rewrite Hc, Hrc. simpl. split; [apply lookup_delete_eq|].
      split; [reflexivity|]. rewrite length_app. simpl. lia.
  - exact sweep_lookup.
Qed.

End CacheClaims.

Lemma request_cache_lifetime_witness :
  let w := Api.world after_first_call in
  Api.cache w !! "/surveys_GET_" = Some (Api.mkCacheEntry surveys_payload 1)
  /\ Api.request id "/surveys" get_options 300000 w = (w, Api.Cached surveys_payload)
  /\ (Api.request id "/surveys" get_options 300001 w).2
     = Api.Fresh (Api.mkFlight 1 "/surveys_GET_" true)
  /\ length (Api.dispatched (Api.request id "/surveys" get_options 300001 w).1) = 2.
Proof.
  destruct (request_cache_lifetime id) as (_ & _ & _ & Hhit & _ & Hstale & _).
  assert (Hentry : Api.cache (Api.world after_first_call)
                     !! Api.generateCacheKey id "/surveys" get_options
                   = Some (Api.mkCacheEntry surveys_payload 1)) by reflexivity.
  pose proof (Hhit "/surveys" get_options 300000%Z (Api.world after_first_call)
                _ eq_refl Hentry ltac:(vm_compute; reflexivity)) as H1.
  pose proof (Hstale "/surveys" get_options 300001%Z (Api.world after_first_call)
                _ eq_refl Hentry ltac:(vm_compute; discriminate)) as [_ H2].
  change (Api.pendingRequests (Api.world after_first_call)
            !! Api.generateCacheKey id "/surveys" get_options)
    with (@None nat) in H2.
  destruct H2 as [H2 H3].
  cbv zeta. split; [exact Hentry|]. split; [exact H1|]. split; [exact H2 | exact H3].
Defined.

(** C5 as stated fails.  A call with GET and without [noCache] that joins a
    request started by a call with [noCache] receives the 200 of that
    request, but the response is not stored: the same call made again one
    millisecond later goes to the transport.  And when the stored entry has
    grown too old while a request with its key is in flight (here one made
    with [noCache]), the call joins that request and nothing new is
    dispatched. *)
Lemma cache_lifetime_counterexample :
  (let s := Api.run id
              [Api.Call "/surveys" get_nocache_options 0;
               Api.Call "/surveys" get_options 1;
               Api.Settle 0 (Api.Return (Some ok_response)) 2] Api.start in
   (Api.request id "/surveys" get_options 1
      (Api.world (Api.run id [Api.Call "/surveys" get_nocache_options 0] Api.start))).2
     = Api.Shared 0
   /\ Api.cache (Api.world s) = ∅
   /\ length (Api.dispatched (Api.world s)) = 1
   /\ (Api.request id "/surveys" get_options 3 (Api.world s)).2
      = Api.Fresh (Api.mkFlight 1 "/surveys_GET_" true)
   /\ length (Api.dispatched (Api.request id "/surveys" get_options 3 (Api.world s)).1)
      = 2)
  /\ (let s := Api.run id
                 [Api.Call "/surveys" get_nocache_options 299000] after_first_call in
      Api.flights s = [Api.mkFlight 1 "/surveys_GET_" false]
      /\ Api.cache (Api.world s) !! "/surveys_GET_"
         = Some (Api.mkCacheEntry surveys_payload 1)
      /\ (Api.request id "/surveys" get_options 300001 (Api.world s)).2 = Api.Shared 1
      /\ length (Api.dispatched
                   (Api.request id "/surveys" get_options 300001 (Api.world s)).1)
         = length (Api.dispatched (Api.world s))).
Proof. vm_compute. repeat split. Qed.

Section FlightClaims.
Import Api.

Variable JSON_stringify : string -> string.

Local Abbreviation key_of := (generateCacheKey JSON_stringify).
Local Abbreviation request := (Api.request JSON_stringify).
Local Abbreviation step := (Api.step JSON_stringify).
Local Abbreviation run := (Api.run JSON_stringify).

Lemma flight_unique (s : Sys) (f g : Flight) :
  single_flight s -> f ∈ flights s -> g ∈ flights s ->
  promise f = promise g -> f = g.
Proof.
  intros (_ & Hpr & _) Hf Hg Heq.
  induction (flights s) as [|h fs IH]; [inversion Hf|].
  change (NoDup (promise h :: (promise <$> fs))) in Hpr.
  apply NoDup_cons in Hpr as [Hh Hpr].
  apply elem_of_cons in Hf as [-> | Hf]; apply elem_of_cons in Hg as [-> | Hg].
  - reflexivity.
  - exfalso. apply Hh. rewrite Heq. now apply list_elem_of_fmap_2.
  - exfalso. apply Hh. rewrite <- Heq. now apply list_elem_of_fmap_2.
  - now apply IH.
Qed.

Lemma settle_removes (s : Sys) (f : Flight) (res : Result (option Response)) (now : Z) :
  single_flight s -> f ∈ flights s ->
  (f ∉ flights (step s (Settle (promise f) res now)))
  /\ pendingRequests (world (step s (Settle (promise f) res now))) !! cacheKey f = None.
Proof.
  intros Hinv Hf. simpl.
  destruct (take_flight_elem (promise f) (flights s) f Hf eq_refl) as [[g rest] Htake].
  rewrite Htake. simpl.
  destruct (take_flight_Some _ _ _ _ Htake) as [Hpg Hperm].
  assert (Hg : g ∈ flights s) by (rewrite Hperm; apply elem_of_cons; now left).
  assert (g = f) as -> by (now apply (flight_unique s)).
  destruct Hinv as (Hk & _). rewrite Hperm in Hk.
  change (NoDup (cacheKey f :: (cacheKey <$> rest))) in Hk.
  apply NoDup_cons in Hk as [Hnot _]. split.
  - intros Hin. apply Hnot. now apply list_elem_of_fmap_2.
  - destruct (request_resume_frame f res now (world s)) as (-> & _).
    apply lookup_delete_eq.
Qed.

(** C4, as amended: in every state the gateway can reach, no two flights
    under way share a key, and the in-flight map holds exactly their
    promises.  A call whose key is that of a flight under way hands nothing
    to the transport and leaves the in-flight map as it is: it is answered
    with the promise of that flight, unless it is cacheable and a young entry
    of the cache answers it; a call of the same cacheability as the flight is
    always answered with that promise and changes nothing.  When the flight
    settles, in a response or in a fault, its entry leaves the in-flight
    map. *)
Theorem request_single_flight (evs : list Event) :
  let s := run evs start in
  NoDup (cacheKey <$> flights s)
  /\ (forall k p,
        pendingRequests (world s) !! k = Some p <->
        exists f, f ∈ flights s /\ cacheKey f = k /\ promise f = p)
  /\ (forall (f : Flight) (e : string) (o : Options) (now : Z),
        f ∈ flights s -> key_of e o = cacheKey f ->
        dispatched (request e o now (world s)).1 = dispatched (world s)
        /\ pendingRequests (request e o now (world s)).1 = pendingRequests (world s)
        /\ ((request e o now (world s)).2 = Shared (promise f)
            \/ exists d, (request e o now (world s)).2 = Cached d)
        /\ (cacheable o = isCacheable f ->
            request e o now (world s) = (world s, Shared (promise f))))
  /\ (forall (f : Flight) (res : Result (option Response)) (now : Z),
        f ∈ flights s ->
        (f ∉ flights (step s (Settle (promise f) res now)))
        /\ pendingRequests (world (step s (Settle (promise f) res now)))
             !! cacheKey f = None).
Proof.
  intros s.
  assert (Hinv : single_flight s)
    by (apply single_flight_run, single_flight_start).
  pose proof Hinv as (Hk & Hpr & Hok & Hmap).
  split; [exact Hk|]. split; [|split].
  - intros k p. split; [apply Hmap|].
    intros (f & Hf & <- & <-). now apply (Hok f Hf).
  - intros f e o now Hf Hkey.
    destruct (Hok f Hf) as (Hpend & _ & Hcache). rewrite <- Hkey in Hpend, Hcache.
    destruct (read_cache_frame (cacheable o) (key_of e o) now (world s))
      as (Hp1 & _ & _ & Hd1).
    destruct (read_cache (cacheable o) (key_of e o) now (world s)).2 as [d|] eqn:Hrc.
    + assert (E : request e o now (world s) = (world s, Cached d)).
      { apply request_cached. split; [reflexivity|].
        apply read_cache_hit in Hrc as (Hc & Hentry). auto. }
      rewrite E. simpl. repeat split; eauto.
      intros Hsame. apply read_cache_hit in Hrc as (Hc & entry & Hentry & _).
      rewrite Hcache in Hentry by congruence. discriminate.
    + rewrite (request_shared JSON_stringify e o now (world s) _ Hrc Hpend). simpl.
      repeat split; auto.
      intros Hsame. f_equal.
      unfold read_cache. destruct (cacheable o) eqn:Hc; [|reflexivity].
      now rewrite Hcache by congruence.
  - intros f res now Hf. now apply settle_removes.
Qed.

End FlightClaims.

Lemma request_single_flight_witness :
  let evs := [Api.Call "/surveys" get_options 0;
              Api.Call "/surveys" get_options 5;
              Api.Call "/results" get_options 6] in
  let s := Api.run id evs Api.start in
  Api.flights s = [Api.mkFlight 0 "/surveys_GET_" true; Api.mkFlight 1 "/results_GET_" true]
  /\ Api.request id "/surveys" get_options 7 (Api.world s) = (Api.world s, Api.Shared 0)
  /\ Api.pendingRequests
       (Api.world (Api.step id s (Api.Settle 0 (Api.Throw (Api.TransportFault "down")) 9)))
       !! "/surveys_GET_" = None.
Proof.
  pose proof (request_single_flight id
                [Api.Call "/surveys" get_options 0;
                 Api.Call "/surveys" get_options 5;
                 Api.Call "/results" get_options 6]) as (_ & _ & Hjoin & Hsettle).
  cbv zeta in *. split; [reflexivity|]. split.
  - refine (proj2 (proj2 (proj2 (Hjoin (Api.mkFlight 0 "/surveys_GET_" true)
                                   "/surveys" get_options 7%Z _ eq_refl))) eq_refl).
    apply elem_of_cons. now left.
  - refine (proj2 (Hsettle (Api.mkFlight 0 "/surveys_GET_" true)
                     (Api.Throw (Api.TransportFault "down")) 9%Z _)).
    apply elem_of_cons. now left.
Defined.

(** C4 as stated fails: while the request made with [noCache] is in flight
    under the key, a cacheable call with that key is answered from the cache,
    not with the promise of the flight. *)
Lemma single_flight_counterexample :
  Api.flights with_flight = [Api.mkFlight 1 "/surveys_GET_" false]
  /\ Api.generateCacheKey id "/surveys" get_options = "/surveys_GET_"
  /\ Api.pendingRequests (Api.world with_flight) !! "/surveys_GET_" = Some 1
  /\ Api.request id "/surveys" get_options 3 (Api.world with_flight)
     = (Api.world with_flight, Api.Cached surveys_payload).
Proof. vm_compute. repeat split. Qed.

(** * Properties of the sync engine *)

Section SyncFacts.
Import Sync.

(** The steps of a run keep [I], and the last step turns it into [Q]. *)
Section TaskInvariants.

Variables I Q : World -> Prop.
Variables now fresh : string.

Hypothesis I_log_call : forall c w, I w -> I (log_call c w).
Hypothesis I_saveOfflineData :
  forall t w, I w -> I (saveOfflineData t None now fresh w).
Hypothesis I_saveUserResponse :
  forall sid rs w, I w -> I (saveUserResponse sid rs now w).
Hypothesis I_saveSurveys : forall x w, I w -> I (saveSurveys x w).
Hypothesis I_saveResults : forall x w, I w -> I (saveResults x w).

Lemma task_inv_await (c : ApiCall) (k : option string -> World -> Task) (w : World) :
  I w ->
  (forall r w', I w' -> task_inv I Q (k r w')) ->
  task_inv I Q (await c k w).
Proof. intros Hw Hk. unfold await. constructor; auto. Qed.

Lemma task_inv_offlineLoop (all items : list OfflineItem)
    (successfulSyncs : list string) (k : World -> Task) (w : World) :
  (forall w', I w' -> task_inv I Q (k w')) ->
  I w ->
  task_inv I Q (offlineLoop now fresh all items successfulSyncs k w).
Proof.
  intros Hk. revert successfulSyncs w.
  induction items as [|item more IH]; intros successfulSyncs w Hw; simpl.
  - case_bool_decide; apply Hk; auto.
  - assert (Hsettle : forall (r : option string) w', I w' ->
              task_inv I Q
                match r with
                | Some _ => offlineLoop now fresh all more (successfulSyncs ++ [id item]) k w'
                | None => offlineLoop now fresh all more successfulSyncs k w'
                end)
      by (intros [?|] w' Hw'; now apply IH).
    destruct (type item) as [name|entries]; [|now apply IH].
    repeat case_bool_decide; try (now apply task_inv_await); [|now apply IH].
    destruct (data item); [now apply task_inv_await | now apply IH].
Qed.

Lemma task_inv_syncOfflineData (k : World -> Task) (w : World) :
  (forall w', I w' -> task_inv I Q (k w')) ->
  I w ->
  task_inv I Q (syncOfflineData now fresh k w).
Proof.
  intros Hk Hw. unfold syncOfflineData.
  case_bool_decide; [now apply Hk | now apply task_inv_offlineLoop].
Qed.

Lemma task_inv_updateLocalData (k : World -> Task) (w : World) :
  (forall w', I w' -> task_inv I Q (k w')) ->
  I w ->
  task_inv I Q (updateLocalData k w).
Proof.
  intros Hk Hw. unfold updateLocalData. apply task_inv_await; [exact Hw|].
  intros [x|] w1 Hw1; [|now apply Hk].
  apply task_inv_await; [now apply I_saveSurveys|].
  intros [x'|] w2 Hw2; apply Hk; auto.
Qed.

Lemma task_inv_responsesLoop (entries : list (string * UserResponse))
    (k : World -> Task) (w : World) :
  (forall w', I w' -> task_inv I Q (k w')) ->
  I w ->
  task_inv I Q (responsesLoop now entries k w).
Proof.
  intros Hk. revert w.
  induction entries as [|[sid response] more IH]; intros w Hw; simpl; [now apply Hk|].
  destruct (synced response); simpl; [now apply IH|].
  apply task_inv_await; [exact Hw|].
  intros [?|] w' Hw'; apply IH; auto.
Qed.

(** A run of [syncAllData] that starts: [I] holds once the guard is taken,
    and the [finally] step turns [I] into [Q]. *)
Lemma task_inv_syncAllData (w : World) :
  isSyncing w = false -> online w = true ->
  I (set_isSyncing true w) ->
  (forall w', I w' ->
     Q (set_isSyncing false
          (showToast "تمت مزامنة البيانات بنجاح" (set_lastSyncTime (Some now) w')))) ->
  task_inv I Q (syncAllData now fresh w).
Proof.
  intros Hs Ho Hstart Hend. unfold syncAllData. rewrite Hs, Ho. simpl.
  apply task_inv_syncOfflineData; [|exact Hstart].
  intros w1 Hw1. apply task_inv_updateLocalData; [|exact Hw1].
  intros w2 Hw2. apply task_inv_responsesLoop; [|exact Hw2].
  intros w3 Hw3. constructor. now apply Hend.
Qed.

End TaskInvariants.

Lemma task_inv_run (I Q : World -> Prop) (remote : list ApiCall -> option string)
    (t : Task) :
  task_inv I Q t ->
  Q (run remote t)
  /\ last (trace remote t) = Some (run remote t)
  /\ forall w, w ∈ removelast (trace remote t) -> I w.
Proof.
  induction 1 as [w Hw | w c k Hw Hk IH]; simpl.
  - repeat split; auto. intros w' Hin. inversion Hin.
  - destruct (IH (remote (calls w)) w Hw) as (Hend & Hlast & Hmid).
    split; [exact Hend|]. split.
    + destruct (trace remote (k (remote (calls w)) w)); [discriminate | exact Hlast].
    + intros w' Hin.
      destruct (trace remote (k (remote (calls w)) w)) as [|w1 ws] eqn:E;
        [discriminate|].
      apply elem_of_cons in Hin as [-> | Hin]; [exact Hw | now apply Hmid].
Qed.

(** Nothing leaves the stored queue through [saveOfflineData]. *)
Lemma saveOfflineData_appends (t : ItemType OfflineItem) (d : option ItemData)
    (now fresh : string) (w : World) :
  getOfflineData (saveOfflineData t d now fresh w)
    = getOfflineData w ++ [mkItem t d now fresh].
Proof. reflexivity. Qed.

(** *** Own properties *)

Section ObjectFacts.

Context {A : Type}.
Implicit Types (o : list (string * A)) (key k : string) (v x : A).

Lemma obj_get_None key o : obj_get key o = None <-> key ∉ o.*1.
Proof.
  induction o as [|[k' x'] o IH]; simpl.
  - split; [intros _; apply not_elem_of_nil | reflexivity].
  - rewrite not_elem_of_cons. case_bool_decide as Hk.
    + split; [discriminate | intros [Hne _]; congruence].
    + rewrite IH. split; [intros H; split; [congruence | exact H] | now intros [_ H]].
Qed.

Lemma obj_get_Some key o x : obj_get key o = Some x -> (key, x) ∈ o.
Proof.
  induction o as [|[k' x'] o IH]; simpl; [discriminate|].
  case_bool_decide as Hk.
  - intros [= <-]. subst k'. apply elem_of_cons. now left.
  - intros H. apply elem_of_cons. right. now apply IH.
Qed.

Lemma obj_replace_keys key v o : (obj_replace key v o).*1 = o.*1.
Proof.
  induction o as [|[k' x'] o IH]; [reflexivity|].
  cbn [obj_replace]. case_bool_decide; [reflexivity|].
  rewrite !fmap_cons. now rewrite IH.
Qed.

Lemma obj_replace_entries key v o k x :
  (k, x) ∈ obj_replace key v o -> (k, x) = (key, v) \/ (k, x) ∈ o.
Proof.
  induction o as [|[k' x'] o IH]; simpl; [intros H; inversion H|].
  case_bool_decide as Hk.
  - subst k'. intros [[= -> ->] | Hin]%elem_of_cons; [now left|].
    right. apply elem_of_cons. now right.
  - intros [[= -> ->] | Hin]%elem_of_cons.
    + right. apply elem_of_cons. now left.
    + destruct (IH Hin) as [E | Hin']; [now left|].
      right. apply elem_of_cons. now right.
Qed.

Lemma obj_get_replace key v o k :
  obj_get k (obj_replace key v o)
  = if bool_decide (k = key)
    then match obj_get key o with Some _ => Some v | None => None end
    else obj_get k o.
Proof.
  induction o as [|[k' x'] o IH]; simpl; [now case_bool_decide|].
  destruct (decide (k' = key)) as [->|Hk'].
  - rewrite !bool_decide_eq_true_2 by reflexivity. simpl.
    case_bool_decide as Hk; [subst k; now rewrite bool_decide_eq_true_2|].
    now rewrite bool_decide_eq_false_2 by congruence.
  - rewrite (bool_decide_eq_false_2 (k' = key)) by exact Hk'. simpl. rewrite IH.
    case_bool_decide as Hk; [subst k; now rewrite bool_decide_eq_false_2|].
    reflexivity.
Qed.

Lemma obj_insert_entries n key v o (e : string * A) :
  e ∈ obj_insert n key v o <-> e = (key, v) \/ e ∈ o.
Proof.
  induction o as [|[k' x'] o IH]; simpl.
  - rewrite list_elem_of_singleton, elem_of_nil. tauto.
  - destruct (array_index k') as [m|]; [case_bool_decide|];
      rewrite ?elem_of_cons, ?IH; tauto.
Qed.

Lemma obj_insert_length n key v o : length (obj_insert n key v o) = S (length o).
Proof.
  induction o as [|[k' x'] o IH]; simpl; [reflexivity|].
  destruct (array_index k') as [m|]; [case_bool_decide|]; simpl; now rewrite ?IH.
Qed.

Lemma obj_insert_keys n key v o : (obj_insert n key v o).*1 ≡ₚ key :: o.*1.
Proof.
  induction o as [|[k' x'] o IH]; simpl; [reflexivity|].
  destruct (array_index k') as [m|]; [case_bool_decide|]; simpl; try reflexivity.
  rewrite IH. apply perm_swap.
Qed.

Lemma obj_get_insert n key v o k :
  obj_get key o = None ->
  obj_get k (obj_insert n key v o)
  = if bool_decide (k = key) then Some v else obj_get k o.
Proof.
  intros Hnone. destruct (decide (k = key)) as [->|Hk].
  - rewrite bool_decide_eq_true_2 by reflexivity.
    induction o as [|[k' x'] o IH]; cbn [obj_insert obj_get].
    + now rewrite bool_decide_eq_true_2.
    + cbn [obj_get] in Hnone.
      destruct (decide (k' = key)) as [->|Hk'];
        [rewrite bool_decide_eq_true_2 in Hnone by reflexivity; discriminate|].
      rewrite (bool_decide_eq_false_2 (k' = key)) in Hnone by exact Hk'.
      destruct (array_index k') as [m|]; [destruct (bool_decide (m <= n)%N)|];
        cbn [obj_get].
      * rewrite (bool_decide_eq_false_2 (k' = key)) by exact Hk'. now apply IH.
      * now rewrite bool_decide_eq_true_2.
      * now rewrite bool_decide_eq_true_2.
  - rewrite bool_decide_eq_false_2 by exact Hk.
    induction o as [|[k' x'] o IH]; cbn [obj_insert obj_get].
    + now rewrite bool_decide_eq_false_2 by congruence.
    + cbn [obj_get] in Hnone.
      destruct (decide (k' = key)) as [->|Hk'];
        [rewrite bool_decide_eq_true_2 in Hnone by reflexivity; discriminate|].
      rewrite (bool_decide_eq_false_2 (k' = key)) in Hnone by exact Hk'.
      destruct (array_index k') as [m|]; [destruct (bool_decide (m <= n)%N)|];
        cbn [obj_get].
      * destruct (bool_decide (k' = k)); [reflexivity | now apply IH].
      * now rewrite (bool_decide_eq_false_2 (key = k)) by congruence.
      * now rewrite (bool_decide_eq_false_2 (key = k)) by congruence.
Qed.

Lemma obj_define_entries key v o k x :
  (k, x) ∈ obj_define key v o -> (k, x) = (key, v) \/ (k, x) ∈ o.
Proof.
  unfold obj_define. destruct (obj_get key o); [apply obj_replace_entries|].
  destruct (array_index key) as [n|].
  - intros [E | Hin]%obj_insert_entries; auto.
  - intros [Hin | E%list_elem_of_singleton]%elem_of_app; auto.
Qed.

Lemma obj_define_keys key v o k : k ∈ o.*1 -> k ∈ (obj_define key v o).*1.
Proof.
  unfold obj_define. destruct (obj_get key o); [now rewrite obj_replace_keys|].
  destruct (array_index key) as [n|].
  - rewrite obj_insert_keys. intros H. apply elem_of_cons. now right.
  - rewrite fmap_app. intros H. apply elem_of_app. now left.
Qed.

Lemma obj_define_key key v o : key ∈ (obj_define key v o).*1.
Proof.
  unfold obj_define. destruct (obj_get key o) as [x|] eqn:Hget.
  - rewrite obj_replace_keys. apply obj_get_Some in Hget.
    apply list_elem_of_fmap. now exists (key, x).
  - destruct (array_index key) as [n|].
    + rewrite obj_insert_keys. apply elem_of_cons. now left.
    + rewrite fmap_app. apply elem_of_app. right. simpl.
      now apply list_elem_of_singleton.
Qed.

Lemma obj_define_NoDup key v o : NoDup o.*1 -> NoDup (obj_define key v o).*1.
Proof.
  intros Hnd. unfold obj_define. destruct (obj_get key o) eqn:Hget.
  - now rewrite obj_replace_keys.
  - apply obj_get_None in Hget.
    assert (Hcons : NoDup (key :: o.*1)) by (apply NoDup_cons; auto).
    destruct (array_index key) as [n|].
    + now rewrite obj_insert_keys.
    + rewrite fmap_app. simpl. now rewrite <- Permutation_cons_append.
Qed.

Lemma obj_get_snoc key v o k :
  obj_get key o = None ->
  obj_get k (o ++ [(key, v)])
  = if bool_decide (k = key) then Some v else obj_get k o.
Proof.
  intros Hnone. induction o as [|[k' x'] o IH]; cbn [app obj_get].
  - destruct (decide (k = key)) as [->|Hk].
    + now rewrite !bool_decide_eq_true_2.
    + now rewrite !bool_decide_eq_false_2 by congruence.
  - cbn [obj_get] in Hnone.
    destruct (decide (k' = key)) as [->|Hk'];
      [rewrite bool_decide_eq_true_2 in Hnone by reflexivity; discriminate|].
    rewrite (bool_decide_eq_false_2 (k' = key)) in Hnone by exact Hk'.
    destruct (decide (k' = k)) as [->|Hkk].
    + rewrite bool_decide_eq_true_2 by reflexivity.
      now rewrite bool_decide_eq_false_2 by exact Hk'.
    + rewrite (bool_decide_eq_false_2 (k' = k)) by exact Hkk. now apply IH.
Qed.

Lemma obj_get_define key v o k :
  obj_get k (obj_define key v o)
  = if bool_decide (k = key) then Some v else obj_get k o.
Proof.
  unfold obj_define. destruct (obj_get key o) as [x|] eqn:Hget.
  - rewrite obj_get_replace, Hget. reflexivity.
  - destruct (array_index key) as [n|];
      [now apply obj_get_insert | now apply obj_get_snoc].
Qed.

Lemma obj_define_length key v o :
  length (obj_define key v o)
  = match obj_get key o with Some _ => length o | None => S (length o) end.
Proof.
  unfold obj_define. destruct (obj_get key o).
  - rewrite <- (length_fmap fst), obj_replace_keys. apply length_fmap.
  - destruct (array_index key) as [n|]; [apply obj_insert_length|].
    rewrite length_app. simpl. lia.
Qed.

(** An assignment changes the value of one own property or adds one, and
    removes none; to ["__proto__"] on an object without that own property
    it changes nothing. *)
Lemma obj_set_entries key v o k x :
  (k, x) ∈ obj_set key v o -> x = v \/ (k, x) ∈ o.
Proof.
  unfold obj_set. destruct (obj_get key o) eqn:Hget.
  - intros [[= _ ->] | Hin]%obj_replace_entries; auto.
  - case_bool_decide; [auto|].
    intros [[= _ ->] | Hin]%obj_define_entries; auto.
Qed.

Lemma obj_set_keys key v o : forall k, k ∈ o.*1 -> k ∈ (obj_set key v o).*1.
Proof.
  intros k. unfold obj_set. destruct (obj_get key o) eqn:Hget.
  - now rewrite obj_replace_keys.
  - case_bool_decide; [auto | apply obj_define_keys].
Qed.

Lemma obj_set_NoDup key v o : NoDup o.*1 -> NoDup (obj_set key v o).*1.
Proof.
  intros Hnd. unfold obj_set. destruct (obj_get key o) eqn:Hget.
  - now rewrite obj_replace_keys.
  - case_bool_decide; [exact Hnd | now apply obj_define_NoDup].
Qed.

Lemma obj_set_proto v o :
  obj_get "__proto__" o = None -> obj_set "__proto__" v o = o.
Proof. intros Hget. unfold obj_set. now rewrite Hget. Qed.

Lemma obj_get_set key v o k :
  key <> "__proto__" \/ is_Some (obj_get key o) ->
  obj_get k (obj_set key v o)
  = if bool_decide (k = key) then Some v else obj_get k o.
Proof.
  intros Hkey. unfold obj_set. destruct (obj_get key o) as [x|] eqn:Hget.
  - rewrite obj_get_replace, Hget. reflexivity.
  - destruct Hkey as [Hne | [y [=]]].
    rewrite bool_decide_eq_false_2 by exact Hne. apply obj_get_define.
Qed.

Lemma obj_set_length key v o :
  key <> "__proto__" \/ is_Some (obj_get key o) ->
  length (obj_set key v o)
  = match obj_get key o with Some _ => length o | None => S (length o) end.
Proof.
  intros Hkey. unfold obj_set. destruct (obj_get key o) as [x|] eqn:Hget.
  - rewrite <- (length_fmap fst), obj_replace_keys. apply length_fmap.
  - destruct Hkey as [Hne | [y [=]]].
    rewrite bool_decide_eq_false_2 by exact Hne.
    rewrite obj_define_length. now rewrite Hget.
Qed.

(** What [JSON.parse] builds holds the members of the text, one own
    property for each name. *)
Lemma parse_object_snoc (l : list (string * A)) (e : string * A) :
  parse_object (l ++ [e]) = obj_define e.1 e.2 (parse_object l).
Proof. unfold parse_object. now rewrite foldl_app. Qed.

Lemma parse_object_entries (l : list (string * A)) k x :
  (k, x) ∈ parse_object l -> (k, x) ∈ l.
Proof.
  induction l as [|[k' x'] l IH] using rev_ind; [intros H; inversion H|].
  rewrite parse_object_snoc. simpl. intros Hin. apply elem_of_app.
  apply obj_define_entries in Hin as [E | Hin].
  - right. now apply list_elem_of_singleton.
  - left. now apply IH.
Qed.

Lemma parse_object_keys (l : list (string * A)) k :
  k ∈ l.*1 -> k ∈ (parse_object l).*1.
Proof.
  induction l as [|[k' x'] l IH] using rev_ind; [intros H; inversion H|].
  rewrite parse_object_snoc, fmap_app. simpl.
  intros [Hin | ->%list_elem_of_singleton]%elem_of_app.
  - apply obj_define_keys. now apply IH.
  - apply obj_define_key.
Qed.

Lemma parse_object_NoDup (l : list (string * A)) : NoDup (parse_object l).*1.
Proof.
  induction l as [|[k' x'] l IH] using rev_ind; [apply NoDup_nil_2|].
  rewrite parse_object_snoc. now apply obj_define_NoDup.
Qed.

(** A list that holds each name once is read back property by property. *)
Lemma obj_get_parse (l : list (string * A)) k :
  NoDup l.*1 -> obj_get k (parse_object l) = obj_get k l.
Proof.
  induction l as [|[k' x'] l IH] using rev_ind; [reflexivity|].
  rewrite fmap_app, NoDup_app. simpl. intros (Hnd & Hfresh & _).
  rewrite parse_object_snoc, obj_get_define. simpl. rewrite (IH Hnd).
  assert (Hk' : obj_get k' l = None).
  { apply obj_get_None. intros Hin. apply (Hfresh k' Hin).
    now apply list_elem_of_singleton. }
  now rewrite (obj_get_snoc k' x' l k Hk').
Qed.

Lemma parse_object_length (l : list (string * A)) :
  NoDup l.*1 -> length (parse_object l) = length l.
Proof.
  induction l as [|[k' x'] l IH] using rev_ind; [reflexivity|].
  rewrite fmap_app, NoDup_app. simpl. intros (Hnd & Hfresh & _).
  rewrite parse_object_snoc, obj_define_length. simpl.
  rewrite (obj_get_parse l k' Hnd).
  assert (Hk' : obj_get k' l = None).
  { apply obj_get_None. intros Hin. apply (Hfresh k' Hin).
    now apply list_elem_of_singleton. }
  rewrite Hk', (IH Hnd), length_app. simpl. lia.
Qed.

End ObjectFacts.

(** The record [saveUserResponse] stores carries no confirmation flag, and
    no stored response is removed. *)
Lemma saveUserResponse_unconfirmed (sid rs now : string) (w : World) :
  (forall k r, (k, r) ∈ getUserResponses (saveUserResponse sid rs now w) ->
     r = mkUserResponse rs now false None \/ (k, r) ∈ getUserResponses w)
  /\ forall k, k ∈ (getUserResponses w).*1 ->
               k ∈ (getUserResponses (saveUserResponse sid rs now w)).*1.
Proof.
  unfold getUserResponses, saveUserResponse. simpl. split.
  - intros k r Hin. apply parse_object_entries in Hin.
    now apply obj_set_entries in Hin.
  - intros k Hin. apply parse_object_keys. now apply obj_set_keys.
Qed.

End SyncFacts.

Section SyncClaims.
Import Sync.

Lemma offlineLoop_awaits (now fresh : string) (all items : list OfflineItem)
    (successfulSyncs : list string) (k : World -> Task) (w : World) :
  (forall w', exists w1 c k', k w' = Await w1 c k') ->
  exists w1 c k', offlineLoop now fresh all items successfulSyncs k w = Await w1 c k'.
Proof.
  intros Hk. revert successfulSyncs w.
  induction items as [|item more IH]; intros successfulSyncs w; simpl.
  - case_bool_decide; apply Hk.
  - destruct (type item) as [name|entries]; [|apply IH].
    repeat case_bool_decide; unfold await; eauto.
    destruct (data item); eauto.
Qed.

Lemma syncAllData_awaits (now fresh : string) (w : World) :
  isSyncing w = false -> online w = true ->
  exists w1 c k, syncAllData now fresh w = Await w1 c k.
Proof.
  intros Hs Ho. unfold syncAllData. rewrite Hs, Ho. simpl.
  unfold syncOfflineData.
  assert (Hk : forall k w', exists w1 c k', updateLocalData k w' = Await w1 c k')
    by (intros k w'; unfold updateLocalData, await; eauto).
  case_bool_decide; [apply Hk | apply offlineLoop_awaits; intros w'; apply Hk].
Qed.

Lemma syncAllData_holds_guard (now fresh : string) (w : World) :
  isSyncing w = false -> online w = true ->
  holds_guard (syncAllData now fresh w).
Proof.
  intros Hs Ho. apply task_inv_syncAllData; auto.
Qed.

(** Whatever the remote service answers, a run removes nothing from the
    stored queue of offline mutations. *)
Lemma syncAllData_queue_only_grows (now fresh : string)
    (remote : list ApiCall -> option string) (w : World) (item : OfflineItem) :
  item ∈ getOfflineData w ->
  item ∈ getOfflineData (run remote (syncAllData now fresh w)).
Proof.
  intros Hin.
  destruct (isSyncing w) eqn:Hs; [unfold syncAllData; now rewrite Hs|].
  destruct (online w) eqn:Ho; [|unfold syncAllData; now rewrite Hs, Ho].
  set (I := fun w' => item ∈ getOfflineData w').
  apply (fun H => proj1 (task_inv_run I I remote (syncAllData now fresh w) H)).
  apply task_inv_syncAllData; subst I; auto.
  intros t w' Hw'. cbv beta in *. rewrite saveOfflineData_appends.
  apply elem_of_app. now left.
Qed.

(** Whatever the remote service answers, a run that starts with no stored
    response confirmed ends with none confirmed. *)
Lemma syncAllData_confirms_nothing (now fresh : string)
    (remote : list ApiCall -> option string) (w : World) :
  none_confirmed w -> none_confirmed (run remote (syncAllData now fresh w)).
Proof.
  intros Hnone.
  destruct (isSyncing w) eqn:Hs; [unfold syncAllData; now rewrite Hs|].
  destruct (online w) eqn:Ho; [|unfold syncAllData; now rewrite Hs, Ho].
  apply (fun H => proj1 (task_inv_run none_confirmed none_confirmed remote
                              (syncAllData now fresh w) H)).
  apply task_inv_syncAllData; auto.
  intros sid rs w' Hw' k r Hin.
  apply saveUserResponse_unconfirmed in Hin as [-> | Hin];
    [reflexivity | now apply (Hw' k)].
Qed.

(** Whatever the remote service answers, a run keeps every stored response. *)
Lemma syncAllData_keeps_responses (now fresh : string)
    (remote : list ApiCall -> option string) (w : World) (sid : string) :
  sid ∈ (getUserResponses w).*1 ->
  sid ∈ (getUserResponses (run remote (syncAllData now fresh w))).*1.
Proof.
  intros Hin.
  destruct (isSyncing w) eqn:Hs; [unfold syncAllData; now rewrite Hs|].
  destruct (online w) eqn:Ho; [|unfold syncAllData; now rewrite Hs, Ho].
  set (I := fun w' => sid ∈ (getUserResponses w').*1).
  apply (fun H => proj1 (task_inv_run I I remote (syncAllData now fresh w) H)).
  apply task_inv_syncAllData; subst I; auto.
  intros sid' rs w' Hw'. cbv beta in *. now apply saveUserResponse_unconfirmed.
Qed.

(** C8: called while [isSyncing] is true, [syncAllData] ends at once in the
    world it was called in, with nothing issued and nothing left to run.
    Called when idle and online it sets [isSyncing] and suspends on a call;
    [isSyncing] is true in every world in which the run is suspended, so that
    a call of [syncAllData] made there does nothing, and false in the world
    the run ends in. *)
Theorem syncAllData_guarded :
  (forall (now fresh : string) (w : World),
     isSyncing w = true -> syncAllData now fresh w = Done w)
  /\ (forall (now fresh : string) (w : World),
        isSyncing w = false -> online w = true ->
        holds_guard (syncAllData now fresh w)
        /\ exists w1 c k, syncAllData now fresh w = Await w1 c k)
  /\ (forall (now fresh : string) (remote : list ApiCall -> option string) (w : World),
        isSyncing w = false -> online w = true ->
        isSyncing (run remote (syncAllData now fresh w)) = false
        /\ forall w', w' ∈ removelast (trace remote (syncAllData now fresh w)) ->
             isSyncing w' = true
             /\ forall now' fresh', syncAllData now' fresh' w' = Done w').
Proof.
  assert (Hbusy : forall now fresh w,
            isSyncing w = true -> syncAllData now fresh w = Done w)
    by (intros now fresh w Hs; unfold syncAllData; now rewrite Hs).
  split; [exact Hbusy|]. split.
  - intros now fresh w Hs Ho.
    split; [now apply syncAllData_holds_guard | now apply syncAllData_awaits].
  - intros now fresh remote w Hs Ho.
    destruct (task_inv_run _ _ remote _ (syncAllData_holds_guard now fresh w Hs Ho))
      as (Hend & _ & Hmid).
    split; [exact Hend|]. intros w' Hw'. split; [now apply Hmid|].
    intros now' fresh'. apply Hbusy. now apply Hmid.
Qed.

End SyncClaims.

Lemma syncAllData_guarded_witness :
  let t := Sync.syncAllData "t1" "id1" queue_world in
  Sync.calls <$> Sync.trace remote_up t
    = [[Sync.SubmitSurveyResponse "s1" "{'q1':'yes'}"];
       [Sync.SubmitSurveyResponse "s1" "{'q1':'yes'}"; Sync.GetActiveSurveys];
       [Sync.SubmitSurveyResponse "s1" "{'q1':'yes'}"; Sync.GetActiveSurveys;
        Sync.GetRecentResults];
       [Sync.SubmitSurveyResponse "s1" "{'q1':'yes'}"; Sync.GetActiveSurveys;
        Sync.GetRecentResults]]
  /\ Sync.isSyncing <$> Sync.trace remote_up t = [true; true; true; false]
  /\ Sync.isSyncing (Sync.run remote_up t) = false.
Proof.
  destruct syncAllData_guarded as (_ & _ & Hrun).
  destruct (Hrun "t1" "id1" remote_up queue_world eq_refl eq_refl) as [Hend _].
  cbv zeta. split; [reflexivity|]. split; [reflexivity | exact Hend].
Defined.

(** C2 (the code departs from the claim): the queued response is rejected in
    the first run and accepted in the second.  It is still in the stored
    queue after the second run, next to an entry whose type is the array of
    remaining entries, and the third run submits it again. *)
Theorem syncOfflineData_keeps_successes :
  let w1 := Sync.run remote_flaky (Sync.syncAllData "t1" "id1" queue_world) in
  let w2 := Sync.run remote_flaky (Sync.syncAllData "t2" "id2" w1) in
  let w3 := Sync.run remote_flaky (Sync.syncAllData "t3" "id3" w2) in
  Sync.offlineData w1 = Some [m1]
  /\ Sync.offlineData w2 = Some [m1; Sync.mkItem (Sync.Items []) None "t2" "id2"]
  /\ Sync.offlineData w3
     = Some [m1; Sync.mkItem (Sync.Items []) None "t2" "id2";
             Sync.mkItem (Sync.Items []) None "t3" "id3"]
  /\ length (filter is_submit (Sync.calls w3)) = 3.
Proof. vm_compute. repeat split. Qed.

(** C3 (the code departs from the claim): the response is submitted and
    accepted in the first run; the stored record is kept but carries no
    confirmation flag after it, and the second run submits it again. *)
Theorem syncUserResponses_never_confirms :
  let w1 := Sync.run remote_up (Sync.syncAllData "t1" "id1" responses_world) in
  let w2 := Sync.run remote_up (Sync.syncAllData "t2" "id2" w1) in
  Sync.userResponses w1
    = Some [("s1", Sync.mkUserResponse "{'q1':'yes'}" "t1" false None)]
  /\ filter is_submit (Sync.calls w1) = [Sync.SubmitSurveyResponse "s1" "{'q1':'yes'}"]
  /\ Sync.userResponses w2
     = Some [("s1", Sync.mkUserResponse "{'q1':'yes'}" "t2" false None)]
  /\ filter is_submit (Sync.calls w2)
     = [Sync.SubmitSurveyResponse "s1" "{'q1':'yes'}";
        Sync.SubmitSurveyResponse "s1" "{'q1':'yes'}"].
Proof. vm_compute. repeat split. Qed.

(** * Further properties of the event queue *)

Section QueueExtras.
Import Analytics.

Lemma flushQueue_fields (w : World) :
  trackingEnabled (flushQueue w).1 = trackingEnabled w
  /\ maxQueueSize (flushQueue w).1 = maxQueueSize w
  /\ online (flushQueue w).1 = online w.
Proof.
  unfold flushQueue.
  destruct (isFlushing w || bool_decide (length (eventQueue w) = 0)); [auto|].
  simpl. destruct (online w) eqn:Ho; simpl; auto.
Qed.

Lemma addToQueue_fields (e : Event) (w : World) :
  trackingEnabled (addToQueue e w).1 = trackingEnabled w
  /\ maxQueueSize (addToQueue e w).1 = maxQueueSize w
  /\ online (addToQueue e w).1 = online w.
Proof.
  unfold addToQueue. destruct (trackingEnabled w) eqn:Hon; simpl; [|auto].
  assert (H1 : exists w1 k1,
             (if bool_decide (maxQueueSize w <= length (eventQueue w))
              then flushQueue w else (w, None)) = (w1, k1)
             /\ trackingEnabled w1 = true /\ maxQueueSize w1 = maxQueueSize w
             /\ online w1 = online w).
  { destruct (bool_decide _).
    - destruct (flushQueue_fields w) as (A & B & C).
      destruct (flushQueue w) as [w1 k1]. exists w1, k1. simpl in *.
      rewrite A; auto.
    - exists w, None. auto. }
  destruct H1 as (w1 & k1 & -> & A & B & C).
  set (w3 := saveQueue (set_eventQueue (eventQueue w1 ++ [e]) w1)).
  destruct (isCriticalEvent e).
  - destruct (flushQueue_fields w3) as (A' & B' & C').
    destruct (flushQueue w3) as [w4 k2]. simpl in *.
    rewrite A', B', C'. auto.
  - simpl. auto.
Qed.

Lemma flushQueue_online_eq (w : World) :
  isFlushing w = false -> online w = true -> eventQueue w <> [] ->
  flushQueue w
    = (log_sent (eventQueue w) (set_eventQueue [] (set_isFlushing true w)),
       Some (eventQueue w)).
Proof.
  intros Hf Ho Hne. unfold flushQueue. rewrite Hf. cbn [orb].
  rewrite bool_decide_eq_false_2 by (destruct (eventQueue w); [done | discriminate]).
  cbn [online set_eventQueue set_isFlushing]. now rewrite Ho.
Qed.

Lemma flushQueue_offline_eq (w : World) :
  isFlushing w = false -> online w = false -> eventQueue w <> [] ->
  flushQueue w
    = (set_isFlushing false
         (saveQueue (set_eventQueue (eventQueue w) (set_isFlushing true w))),
       None).
Proof.
  intros Hf Ho Hne. unfold flushQueue. rewrite Hf. cbn [orb].
  rewrite bool_decide_eq_false_2 by (destruct (eventQueue w); [done | discriminate]).
  cbn [online set_eventQueue set_isFlushing eventQueue]. rewrite Ho.
  now rewrite app_nil_r.
Qed.

(** Below the capacity bound an event that is not critical is appended and
    the queue mirrored, with no flush. *)
Lemma addToQueue_plain (e : Event) (w : World) :
  trackingEnabled w = true ->
  length (eventQueue w) < maxQueueSize w ->
  isCriticalEvent e = false ->
  addToQueue e w = (saveQueue (set_eventQueue (eventQueue w ++ [e]) w), []).
Proof.
  intros Hon Hlen Hcrit. unfold addToQueue. rewrite Hon. simpl.
  rewrite bool_decide_eq_false_2 by lia. now rewrite Hcrit.
Qed.

(** While a flush is in flight every event, critical or not, is appended and
    the queue mirrored; the guard keeps [addToQueue] from flushing. *)
Lemma addToQueue_in_flight (e : Event) (w : World) :
  trackingEnabled w = true -> isFlushing w = true ->
  addToQueue e w = (saveQueue (set_eventQueue (eventQueue w ++ [e]) w), []).
Proof.
  intros Hon Hfl. unfold addToQueue. rewrite Hon. simpl.
  rewrite (flushQueue_guarded w (or_introl Hfl)).
  assert (Hg : forall w', isFlushing w' = true -> flushQueue w' = (w', None))
    by (intros w' H; apply flushQueue_guarded; now left).
  destruct (bool_decide (maxQueueSize w <= length (eventQueue w)));
    destruct (isCriticalEvent e); try reflexivity;
    now rewrite Hg by exact Hfl.
Qed.

Lemma record_all_in_flight (es : list Event) (w : World) :
  trackingEnabled w = true -> isFlushing w = true ->
  eventQueue (record_all es w).1 = eventQueue w ++ es
  /\ (record_all es w).2 = []
  /\ sent (record_all es w).1 = sent w
  /\ isFlushing (record_all es w).1 = true
  /\ trackingEnabled (record_all es w).1 = true
  /\ storedQueue (record_all es w).1
     = match es with [] => storedQueue w | _ => Some (eventQueue w ++ es) end.
Proof.
  revert w. induction es as [|e es IH]; intros w Hon Hfl.
  - simpl. rewrite app_nil_r. auto 10.
  - simpl record_all. rewrite (addToQueue_in_flight e w Hon Hfl).
    set (w1 := saveQueue (set_eventQueue (eventQueue w ++ [e]) w)).
    destruct (IH w1 Hon Hfl) as (Hq & Hk & Hs & Hf & Ht & Hst).
    destruct (record_all es w1) as [w2 k2]. simpl in Hq, Hk, Hs, Hf, Ht, Hst |- *.
    rewrite Hq, Hk, Hs, Hf, Ht, Hst, <- app_assoc.
    repeat split. destruct es; reflexivity.
Qed.

Lemma record_all_plain (es : list Event) (w : World) :
  trackingEnabled w = true ->
  length (eventQueue w) + length es <= maxQueueSize w ->
  Forall (fun e => isCriticalEvent e = false) es ->
  eventQueue (record_all es w).1 = eventQueue w ++ es
  /\ (record_all es w).2 = []
  /\ sent (record_all es w).1 = sent w
  /\ isFlushing (record_all es w).1 = isFlushing w
  /\ storedQueue (record_all es w).1
     = match es with [] => storedQueue w | _ => Some (eventQueue w ++ es) end.
Proof.
  revert w. induction es as [|e es IH]; intros w Hon Hlen Hplain.
  - simpl. rewrite app_nil_r. auto 10.
  - apply Forall_cons in Hplain as [He Hes]. simpl in Hlen.
    simpl record_all. rewrite (addToQueue_plain e w Hon) by (lia || exact He).
    set (w1 := saveQueue (set_eventQueue (eventQueue w ++ [e]) w)).
    assert (Hlen1 : length (eventQueue w1) + length es <= maxQueueSize w1)
      by (subst w1; simpl; rewrite length_app; simpl; lia).
    destruct (IH w1 Hon Hlen1 Hes) as (Hq & Hk & Hs & Hf & Hst).
    destruct (record_all es w1) as [w2 k2]. simpl in Hq, Hk, Hs, Hf, Hst |- *.
    rewrite Hq, Hk, Hs, Hf, Hst, <- app_assoc.
    repeat split. destruct es; reflexivity.
Qed.

(** X1: with tracking on, events that are not critical, recorded while the
    queue stays within its capacity, are appended to the queue in the order
    of recording; the stored copy is then the whole queue, and nothing is
    sent or flushed. *)
Theorem record_keeps_order (es : list Event) (w : World) :
  trackingEnabled w = true ->
  length (eventQueue w) + length es <= maxQueueSize w ->
  Forall (fun e => isCriticalEvent e = false) es ->
  es <> [] ->
  eventQueue (record_all es w).1 = eventQueue w ++ es
  /\ storedQueue (record_all es w).1 = Some (eventQueue w ++ es)
  /\ sent (record_all es w).1 = sent w
  /\ isFlushing (record_all es w).1 = isFlushing w
  /\ (record_all es w).2 = [].
Proof.
  intros Hon Hlen Hplain Hne.
  destruct (record_all_plain es w Hon Hlen Hplain) as (Hq & Hk & Hs & Hf & Hst).
  repeat split; auto. rewrite Hst. destruct es; [done | reflexivity].
Qed.

Lemma record_keeps_order_witness :
  let w := (addToQueue evA (initial false None)).1 in
  eventQueue (record_all [evB; evC; evD] w).1 = [evA; evB; evC; evD]
  /\ storedQueue (record_all [evB; evC; evD] w).1 = Some [evA; evB; evC; evD].
Proof.
  cbv zeta.
  assert (Hplain : Forall (fun e => isCriticalEvent e = false) [evB; evC; evD])
    by (repeat constructor).
  destruct (record_keeps_order [evB; evC; evD] (addToQueue evA (initial false None)).1
              eq_refl ltac:(vm_compute; lia) Hplain ltac:(discriminate))
    as (Hq & Hst & _).
  split; [exact Hq | exact Hst].
Defined.

(** X2: with tracking on, no flush running and room in the queue, a critical
    event recorded online is handed to the gateway at once, behind everything
    queued before it and in one batch, and the flush is left in flight;
    recorded offline it stays queued and stored, and nothing is sent. *)
Theorem critical_event_flushes_at_once (e : Event) (w : World) :
  trackingEnabled w = true -> isFlushing w = false ->
  length (eventQueue w) < maxQueueSize w ->
  isCriticalEvent e = true ->
  let w' := (addToQueue e w).1 in
  storedQueue w' = Some (eventQueue w ++ [e])
  /\ if online w
     then eventQueue w' = [] /\ sent w' = sent w ++ [eventQueue w ++ [e]]
          /\ isFlushing w' = true /\ (addToQueue e w).2 = [eventQueue w ++ [e]]
     else eventQueue w' = eventQueue w ++ [e] /\ sent w' = sent w
          /\ isFlushing w' = false /\ (addToQueue e w).2 = [].
Proof.
  intros Hon Hfl Hlen Hcrit. cbv zeta. unfold addToQueue.
  rewrite Hon. cbn [negb]. rewrite bool_decide_eq_false_2 by lia. rewrite Hcrit.
  set (w3 := saveQueue (set_eventQueue (eventQueue w ++ [e]) w)).
  assert (Hne : eventQueue w3 <> []) by (subst w3; simpl; now destruct (eventQueue w)).
  assert (Hfl3 : isFlushing w3 = false) by exact Hfl.
  destruct (online w) eqn:Ho.
  - rewrite (flushQueue_online_eq w3 Hfl3 Ho Hne). simpl. auto 10.
  - rewrite (flushQueue_offline_eq w3 Hfl3 Ho Hne). simpl. auto 10.
Qed.

Lemma critical_event_flushes_at_once_witness :
  let w := (record_all [evA; evB] (initial true None)).1 in
  let e := mkEvent "event" "user" "submit" (Some "form_submit") "F" in
  sent (addToQueue e w).1 = [[evA; evB; e]]
  /\ eventQueue (addToQueue e w).1 = []
  /\ isFlushing (addToQueue e w).1 = true.
Proof.
  cbv zeta.
  pose proof (critical_event_flushes_at_once
                (mkEvent "event" "user" "submit" (Some "form_submit") "F")
                (record_all [evA; evB] (initial true None)).1
                eq_refl eq_refl ltac:(vm_compute; lia) eq_refl) as [_ H].
  change (online (record_all [evA; evB] (initial true None)).1) with true in H.
  destruct H as (Hq & Hs & Hf & _).
  split; [exact Hs|]. split; [exact Hq | exact Hf].
Defined.

(** X3: with tracking on and no flush running, an event recorded when the
    queue has reached its capacity makes the whole queue one batch handed to
    the gateway when online, and the new event, critical or not, is then
    alone in the queue and in the stored copy; offline nothing is dropped and
    the queue grows past its capacity. *)
Theorem full_queue_is_flushed_first (e : Event) (w : World) :
  trackingEnabled w = true -> isFlushing w = false ->
  maxQueueSize w <= length (eventQueue w) -> eventQueue w <> [] ->
  let w' := (addToQueue e w).1 in
  if online w
  then eventQueue w' = [e] /\ storedQueue w' = Some [e]
       /\ sent w' = sent w ++ [eventQueue w]
       /\ isFlushing w' = true /\ (addToQueue e w).2 = [eventQueue w]
  else eventQueue w' = eventQueue w ++ [e]
       /\ storedQueue w' = Some (eventQueue w ++ [e])
       /\ sent w' = sent w /\ (addToQueue e w).2 = []
       /\ maxQueueSize w' < length (eventQueue w').
Proof.
  intros Hon Hfl Hlen Hne. cbv zeta. unfold addToQueue.
  rewrite Hon. cbn [negb]. rewrite bool_decide_eq_true_2 by lia.
  destruct (online w) eqn:Ho.
  - rewrite (flushQueue_online_eq w Hfl Ho Hne).
    set (w1 := log_sent (eventQueue w) (set_eventQueue [] (set_isFlushing true w))).
    set (w3 := saveQueue (set_eventQueue (eventQueue w1 ++ [e]) w1)).
    assert (Hg : flushQueue w3 = (w3, None)) by (apply flushQueue_guarded; now left).
    destruct (isCriticalEvent e); [rewrite Hg|]; simpl; auto 10.
  - rewrite (flushQueue_offline_eq w Hfl Ho Hne).
    set (w1 := set_isFlushing false
                 (saveQueue (set_eventQueue (eventQueue w) (set_isFlushing true w)))).
    set (w3 := saveQueue (set_eventQueue (eventQueue w1 ++ [e]) w1)).
    assert (Hne3 : eventQueue w3 <> [])
      by (subst w3 w1; simpl; now destruct (eventQueue w)).
    assert (Hlen3 : maxQueueSize w < length (eventQueue w ++ [e]))
      by (rewrite length_app; simpl; lia).
    destruct (isCriticalEvent e).
    + rewrite (flushQueue_offline_eq w3 eq_refl Ho Hne3). simpl. auto 10.
    + simpl. auto 10.
Qed.

Lemma full_queue_is_flushed_first_witness :
  let w := mkWorld true true 2 [evA; evB] false 0 None None ∅
             (Some [evA; evB]) true None true [] true [] in
  eventQueue (addToQueue evC w).1 = [evC]
  /\ sent (addToQueue evC w).1 = [[evA; evB]]
  /\ (addToQueue evC w).2 = [[evA; evB]].
Proof.
  cbv zeta.
  pose proof (full_queue_is_flushed_first evC
                (mkWorld true true 2 [evA; evB] false 0 None None ∅
                   (Some [evA; evB]) true None true [] true [])
                eq_refl eq_refl ltac:(simpl; lia) ltac:(discriminate)) as H.
  cbv zeta in H. cbn [online] in H.
  destruct H as (Hq & _ & Hs & _ & Hk). auto.
Defined.

(** X4: a flush that is refused by the server (a response whose [success] is
    not true) puts its batch back in front of the events recorded while it
    was in flight, critical ones included, in the order of recording, and
    stores the result; a flush made offline leaves the queue as it was and
    stores it.  Neither loses an event. *)
Theorem refused_flush_restores_batch (es : list Event) (w : World) :
  trackingEnabled w = true -> isFlushing w = false -> eventQueue w <> [] ->
  if online w
  then
    let w1 := (flushQueue w).1 in
    let w2 := (record_all es w1).1 in
    let w3 := flushQueue_resume (eventQueue w) (Resolved false) w2 in
    (flushQueue w).2 = Some (eventQueue w)
    /\ (record_all es w1).2 = []
    /\ sent w2 = sent w ++ [eventQueue w]
    /\ eventQueue w3 = eventQueue w ++ es
    /\ storedQueue w3 = Some (eventQueue w ++ es)
    /\ isFlushing w3 = false
  else
    (flushQueue w).2 = None
    /\ eventQueue (flushQueue w).1 = eventQueue w
    /\ storedQueue (flushQueue w).1 = Some (eventQueue w)
    /\ sent (flushQueue w).1 = sent w
    /\ isFlushing (flushQueue w).1 = false.
Proof.
  intros Hon Hfl Hne. destruct (online w) eqn:Ho.
  - cbv zeta. rewrite (flushQueue_online_eq w Hfl Ho Hne). cbn [fst snd].
    set (w1 := log_sent (eventQueue w) (set_eventQueue [] (set_isFlushing true w))).
    destruct (record_all_in_flight es w1 Hon eq_refl) as (Hq & Hk & Hs & _).
    destruct (flushQueue_resume_refused (eventQueue w) (record_all es w1).1)
      as [Hq3 Hst3].
    rewrite Hq3, Hst3, Hq, Hk, Hs. subst w1. simpl. auto 10.
  - rewrite (flushQueue_offline_eq w Hfl Ho Hne). simpl. auto 10.
Qed.

Lemma refused_flush_restores_batch_witness :
  let w := (record_all [evA; evB] (initial true None)).1 in
  let e := mkEvent "event" "error" "error" (Some "javascript_error") "E" in
  let w2 := (record_all [evC; e] (flushQueue w).1).1 in
  eventQueue (flushQueue_resume [evA; evB] (Resolved false) w2) = [evA; evB; evC; e]
  /\ storedQueue (flushQueue_resume [evA; evB] (Resolved false) w2)
     = Some [evA; evB; evC; e]
  /\ sent w2 = [[evA; evB]].
Proof.
  cbv zeta.
  pose proof (refused_flush_restores_batch
                [evC; mkEvent "event" "error" "error" (Some "javascript_error") "E"]
                (record_all [evA; evB] (initial true None)).1
                eq_refl eq_refl ltac:(vm_compute; discriminate)) as H.
  change (online (record_all [evA; evB] (initial true None)).1) with true in H.
  cbv zeta in H. destruct H as (_ & _ & Hs & Hq & Hst & _).
  split; [exact Hq|]. split; [exact Hst | exact Hs].
Defined.

(** With nothing stored the new page starts with an empty queue. *)
Lemma reload_empty_store (w : World) :
  storedQueue w = None -> eventQueue (loadQueue (reload w)) = [].
Proof.
  intros Hnone. unfold reload, beforeunload.
  destruct (listening w && negb (bool_decide (length (eventQueue w) = 0))
            && sendBeacon w); [reflexivity|].
  unfold loadQueue, fresh_page. simpl. now rewrite Hnone.
Qed.

(** X5: across a reload of the page the queue is either handed to
    [navigator.sendBeacon] or restored from the store.  When the
    [beforeunload] listener is installed, the browser has [sendBeacon] and
    the queue is not empty, the listener hands the whole queue to
    [sendBeacon] and removes the stored copy, so that [loadQueue] leaves the
    queue of the new page empty; otherwise [loadQueue] rebuilds what is
    stored, which after [saveQueue] is the queue itself, same events in the
    same order.  The listener leaves the queue in memory as it is: an event
    recorded after it and before the page is gone (as the listener of
    [visibilitychange] does when the browser reports the page hidden) stores
    the whole queue again, and the new page restores every event already
    handed to [sendBeacon]. *)
Theorem queue_across_reload (w : World) :
  let unloads :=
    listening w && negb (bool_decide (length (eventQueue w) = 0)) && sendBeacon w in
  eventQueue (loadQueue (reload w))
    = (if unloads then [] else default [] (storedQueue w))
  /\ beacons (reload w)
     = (if unloads then beacons w ++ [eventQueue w] else beacons w)
  /\ (unloads = false -> eventQueue (loadQueue (reload (saveQueue w))) = eventQueue w)
  /\ (forall e,
        unloads = true -> trackingEnabled w = true ->
        length (eventQueue w) < maxQueueSize w -> isCriticalEvent e = false ->
        let w1 := (addToQueue e (beforeunload w)).1 in
        beacons w1 = beacons w ++ [eventQueue w]
        /\ eventQueue (loadQueue (fresh_page w1)) = eventQueue w ++ [e]).
Proof.
  cbv zeta. unfold reload, beforeunload.
  change (listening (saveQueue w)) with (listening w).
  change (eventQueue (saveQueue w)) with (eventQueue w).
  change (sendBeacon (saveQueue w)) with (sendBeacon w).
  destruct (listening w && negb (bool_decide (length (eventQueue w) = 0))
            && sendBeacon w) eqn:Hu.
  - split; [reflexivity|]. split; [reflexivity|]. split; [discriminate|].
    intros e _ Hon Hlen Hplain.
    rewrite addToQueue_plain by assumption. split; reflexivity.
  - split; [|split; [reflexivity|split; [|discriminate]]].
    + unfold loadQueue, fresh_page. simpl. now destruct (storedQueue w).
    + intros _. reflexivity.
Qed.

Lemma queue_across_reload_witness :
  let w := (record_all [evA; evB] (init "/surveys" "{}" (initial true None)).1).1 in
  let w' := (record_all [evA; evB; evC] (initial false None)).1 in
  eventQueue (loadQueue (reload w)) = []
  /\ beacons (reload w) = [eventQueue w]
  /\ length (eventQueue w) = 3
  /\ eventQueue (loadQueue (reload w')) = [evA; evB; evC]
  /\ beacons (reload w') = [].
Proof.
  cbv zeta.
  destruct (queue_across_reload
              (record_all [evA; evB] (init "/surveys" "{}" (initial true None)).1).1)
    as (H1 & H2 & _).
  destruct (queue_across_reload (record_all [evA; evB; evC] (initial false None)).1)
    as (H3 & H4 & _).
  split; [exact H1|]. split; [exact H2|]. split; [reflexivity|].
  split; [exact H3 | exact H4].
Defined.

(** X6: when a flush is delivered, [clearQueueStorage] removes the stored
    copy although the events recorded while the flush was in flight are
    still queued: they are kept in memory only, and a page loaded anew
    before the next recording starts with an empty queue. *)
Theorem delivered_flush_clears_store (es : list Event) (w : World) :
  trackingEnabled w = true -> isFlushing w = false -> online w = true ->
  eventQueue w <> [] ->
  let w2 := (record_all es (flushQueue w).1).1 in
  let w3 := flushQueue_resume (eventQueue w) (Resolved true) w2 in
  eventQueue w3 = es
  /\ storedQueue w3 = None
  /\ sent w3 = sent w ++ [eventQueue w]
  /\ eventQueue (loadQueue (reload w3)) = [].
Proof.
  intros Hon Hfl Ho Hne. cbv zeta.
  rewrite (flushQueue_online_eq w Hfl Ho Hne). cbn [fst].
  set (w1 := log_sent (eventQueue w) (set_eventQueue [] (set_isFlushing true w))).
  destruct (record_all_in_flight es w1 Hon eq_refl) as (Hq & _ & Hs & _).
  destruct (flushQueue_resume_delivered (eventQueue w) (record_all es w1).1)
    as [Hq3 Hst3].
  split; [rewrite Hq3; exact Hq|]. split; [exact Hst3|]. split.
  - change (sent (flushQueue_resume (eventQueue w) (Resolved true) (record_all es w1).1))
      with (sent (record_all es w1).1). now rewrite Hs.
  - apply reload_empty_store. exact Hst3.
Qed.

Lemma delivered_flush_clears_store_witness :
  let w := (record_all [evA] (initial true None)).1 in
  let w2 := (record_all [evB; evC] (flushQueue w).1).1 in
  let w3 := flushQueue_resume [evA] (Resolved true) w2 in
  eventQueue w3 = [evB; evC] /\ storedQueue w3 = None
  /\ eventQueue (loadQueue (reload w3)) = [].
Proof.
  cbv zeta.
  pose proof (delivered_flush_clears_store [evB; evC]
                (record_all [evA] (initial true None)).1
                eq_refl eq_refl eq_refl ltac:(vm_compute; discriminate)) as H.
  cbv zeta in H. destruct H as (Hq & Hst & _ & Hl).
  split; [exact Hq|]. split; [exact Hst | exact Hl].
Defined.

End QueueExtras.

(** * Further properties of the request gateway *)

Section RetryExtras.
Import Api.

Lemma fetchLoop_S (net : Z -> Attempt) (attempts : Z) (fuel : nat) (i : Z) :
  fetchLoop net attempts (S fuel) i
  = if bool_decide (i < attempts)%Z then
      match net i with
      | Responds r => (Return (Some r), [Fetch i])
      | Fails reason =>
          if bool_decide (i = attempts - 1)%Z
          then (Throw (TransportFault reason), [Fetch i])
          else
            let '(res, steps) := fetchLoop net attempts fuel (i + 1)%Z in
            (res, Fetch i :: Delay (2 ^ i * 1000)%Z :: steps)
      end
    else (Return None, []).
Proof. reflexivity. Qed.

Lemma fetchLoop_bounded (net : Z -> Attempt) (attempts : Z) (fuel : nat) (i : Z) :
  (0 <= i)%Z -> Z.of_nat (S fuel) = (attempts - i)%Z ->
  fetch_count (fetchLoop net attempts (S fuel) i).2 <= S fuel
  /\ 1 <= fetch_count (fetchLoop net attempts (S fuel) i).2
  /\ (0 <= waited (fetchLoop net attempts (S fuel) i).2
       <= (2 ^ (attempts - 1) - 2 ^ i) * 1000)%Z
  /\ (fetchLoop net attempts (S fuel) i).1 <> Return None.
Proof.
  revert i. induction fuel as [|fuel IH]; intros i Hi Hfuel.
  - simpl. rewrite bool_decide_eq_true_2 by lia.
    replace (attempts - 1)%Z with i by lia.
    destruct (net i) as [r|reason]; simpl.
    + repeat split; try lia; discriminate.
    + rewrite bool_decide_eq_true_2 by lia. simpl.
      repeat split; try lia; discriminate.
  - assert (Hpow : (2 ^ (i + 1) <= 2 ^ (attempts - 1))%Z)
      by (apply Z.pow_le_mono_r; lia).
    assert (Hsucc : (2 ^ (i + 1) = 2 * 2 ^ i)%Z)
      by (rewrite Z.pow_add_r by lia; lia).
    assert (Hpos : (0 < 2 ^ i)%Z) by (apply Z.pow_pos_nonneg; lia).
    rewrite fetchLoop_S. rewrite bool_decide_eq_true_2 by lia.
    destruct (net i) as [r|reason].
    + simpl. repeat split; try lia; discriminate.
    + rewrite bool_decide_eq_false_2 by lia.
      destruct (IH (i + 1)%Z ltac:(lia) ltac:(lia)) as (Hc & Hc1 & Hw & Hres).
      destruct (fetchLoop net attempts (S fuel) (i + 1)) as [res steps].
      cbn [fst snd] in *. simpl.
      repeat split; try lia; exact Hres.
Qed.

(** X7: whatever the network does, [fetchWithRetry] calls [fetch] at most
    [attempts] times; when at least one attempt is allowed it calls it at
    least once, ends in a response or in a transport fault (never without a
    result), and the waits between its attempts add up to at most
    [2 ^ (attempts - 1) - 1] seconds: 3 seconds for the configured 3
    attempts. *)
Theorem fetchWithRetry_bounded (net : Z -> Attempt) (attempts : Z) :
  fetch_count (fetchWithRetry net attempts).2 <= Z.to_nat attempts
  /\ ((1 <= attempts)%Z ->
      1 <= fetch_count (fetchWithRetry net attempts).2
      /\ (0 <= waited (fetchWithRetry net attempts).2
           <= (2 ^ (attempts - 1) - 1) * 1000)%Z
      /\ (fetchWithRetry net attempts).1 <> Return None)
  /\ (waited (fetchWithRetry net config_retryAttempts).2 <= 3000)%Z.
Proof.
  assert (H : (1 <= attempts)%Z ->
              fetch_count (fetchWithRetry net attempts).2 <= Z.to_nat attempts
              /\ 1 <= fetch_count (fetchWithRetry net attempts).2
              /\ (0 <= waited (fetchWithRetry net attempts).2
                   <= (2 ^ (attempts - 1) - 1) * 1000)%Z
              /\ (fetchWithRetry net attempts).1 <> Return None).
  { intros Hpos. unfold fetchWithRetry.
    destruct (Z.to_nat attempts) as [|fuel] eqn:Hfuel; [lia|].
    exact (fetchLoop_bounded net attempts fuel 0%Z ltac:(lia) ltac:(lia)). }
  split; [|split].
  - destruct (Z_le_gt_dec 1 attempts) as [Hpos | Hneg]; [now apply H|].
    unfold fetchWithRetry. replace (Z.to_nat attempts) with 0 by lia. simpl. lia.
  - intros Hpos. now apply H.
  - clear H. unfold fetchWithRetry, config_retryAttempts.
    change (Z.to_nat 3) with 3.
    pose proof (fetchLoop_bounded net 3%Z 2 0%Z ltac:(lia) ltac:(lia)) as (_ & _ & Hw & _).
    change ((2 ^ (3 - 1) - 2 ^ 0) * 1000)%Z with 3000%Z in Hw. lia.
Qed.

Lemma fetchWithRetry_bounded_witness :
  fetch_count (fetchWithRetry net_down 3).2 = 3
  /\ waited (fetchWithRetry net_down 3).2 = 3000%Z
  /\ (waited (fetchWithRetry net_overloaded 5).2 <= 15000)%Z.
Proof.
  destruct (fetchWithRetry_bounded net_overloaded 5%Z) as (_ & H & _).
  destruct (H ltac:(lia)) as (_ & Hw & _).
  split; [reflexivity|]. split; [reflexivity|].
  change ((2 ^ (5 - 1) - 1) * 1000)%Z with 15000%Z in Hw. lia.
Defined.

(** X8: a negative [retryAttempts] is passed on as it is: [fetchWithRetry]
    then calls [fetch] not even once and returns nothing, and the caller of
    [request] receives the fault raised on that missing response; the entry
    of the request leaves the in-flight map and the cache is not touched. *)
Theorem negative_retry_count_never_fetches (e : string) (o : Options) (n : Z)
    (net : Z -> Attempt) (f : Flight) (now : Z) (w : World) :
  retryAttempts o = Some n -> (n < 0)%Z ->
  req_attempts (requestOptions e o w) = n
  /\ fetchWithRetry net n = (Return None, [])
  /\ request_resume f (fetchWithRetry net n).1 now w
     = (set_pendingRequests (delete (cacheKey f) (pendingRequests w)) w,
        Throw NoResponse).
Proof.
  intros Ho Hn. split; [|split].
  - unfold requestOptions. simpl. rewrite Ho. simpl.
    now rewrite bool_decide_eq_false_2 by lia.
  - apply fetchWithRetry_none. lia.
  - rewrite fetchWithRetry_none by lia. reflexivity.
Qed.

Lemma negative_retry_count_never_fetches_witness :
  let o := mkOptions (Some "GET") None None false None (Some (-1)%Z) in
  req_attempts (requestOptions "/surveys" o initial) = (-1)%Z
  /\ fetchWithRetry net_down (-1) = (Return None, [])
  /\ (request_resume (mkFlight 0 "/surveys_GET_" true)
        (fetchWithRetry net_down (-1)).1 0 initial).2 = Throw NoResponse.
Proof.
  cbv zeta.
  destruct (negative_retry_count_never_fetches "/surveys"
              (mkOptions (Some "GET") None None false None (Some (-1)%Z)) (-1)%Z
              net_down (mkFlight 0 "/surveys_GET_" true) 0%Z initial
              eq_refl ltac:(lia)) as (H1 & H2 & H3).
  split; [exact H1|]. split; [exact H2|]. now rewrite H3.
Defined.

End RetryExtras.

Section CacheExtras.
Import Api.

Variable JSON_stringify : string -> string.

Lemma request_answer_of_cache (e : string) (o : Options) (now : Z) (w w' : World) :
  pendingRequests w' = pendingRequests w ->
  authToken w' = authToken w ->
  nextPromise w' = nextPromise w ->
  dispatched w' = dispatched w ->
  (read_cache (cacheable o) (generateCacheKey JSON_stringify e o) now w').2
  = (read_cache (cacheable o) (generateCacheKey JSON_stringify e o) now w).2 ->
  (request JSON_stringify e o now w').2 = (request JSON_stringify e o now w).2
  /\ dispatched (request JSON_stringify e o now w').1
     = dispatched (request JSON_stringify e o now w).1
  /\ pendingRequests (request JSON_stringify e o now w').1
     = pendingRequests (request JSON_stringify e o now w).1.
Proof.
  intros Hp Ha Hn Hd Hr. unfold request.
  assert (Hw : forall v, pendingRequests (read_cache (cacheable o)
                 (generateCacheKey JSON_stringify e o) now v).1 = pendingRequests v
               /\ authToken (read_cache (cacheable o)
                 (generateCacheKey JSON_stringify e o) now v).1 = authToken v
               /\ nextPromise (read_cache (cacheable o)
                 (generateCacheKey JSON_stringify e o) now v).1 = nextPromise v
               /\ dispatched (read_cache (cacheable o)
                 (generateCacheKey JSON_stringify e o) now v).1 = dispatched v).
  { intros v. unfold read_cache. destruct (cacheable o); [|done].
    destruct (cache v !! _); [|done]. now case_bool_decide. }
  destruct (Hw w) as (Hp1 & Ha1 & Hn1 & Hd1).
  destruct (Hw w') as (Hp2 & Ha2 & Hn2 & Hd2).
  destruct (read_cache _ _ now w') as [v' r'].
  destruct (read_cache _ _ now w) as [v r].
  cbn [fst snd] in *. subst r'.
  destruct r as [d|]; [simpl; repeat split; congruence|].
  assert (Hpv : pendingRequests v' = pendingRequests v) by congruence.
  rewrite Hpv.
  destruct (pendingRequests v !! _) as [p|]; [simpl; repeat split; congruence|].
  assert (Hreq : requestOptions e o v' = requestOptions e o v).
  { unfold requestOptions, getAuthToken. now replace (authToken v') with (authToken v) by congruence. }
  simpl. rewrite Hreq.
  repeat split; congruence.
Qed.

(** X9: the background sweep of the cache cannot be observed by a later
    call: a [request] made at or after the time of the sweep gets the same
    answer, dispatches the same requests and leaves the same in-flight map
    as if the sweep had not run.  (The sweep removes entries older than
    [cacheDuration]; [request] refuses those and the ones exactly that
    old.) *)
Theorem sweep_is_unobservable (e : string) (o : Options) (s now : Z) (w : World) :
  (s <= now)%Z ->
  (request JSON_stringify e o now (sweep s w)).2 = (request JSON_stringify e o now w).2
  /\ dispatched (request JSON_stringify e o now (sweep s w)).1
     = dispatched (request JSON_stringify e o now w).1
  /\ pendingRequests (request JSON_stringify e o now (sweep s w)).1
     = pendingRequests (request JSON_stringify e o now w).1.
Proof.
  intros Hs. apply request_answer_of_cache; try reflexivity.
  unfold read_cache, sweep. destruct (cacheable o); [|done]. cbn [cache set_cache].
  destruct (cache w !! generateCacheKey JSON_stringify e o) as [c|] eqn:Hc.
  - destruct (decide (s - timestamp c > cacheDuration)%Z) as [Hold|Hyoung].
    + rewrite (proj2 (map_lookup_filter_None _ _ _)).
      2:{ right. intros x Hx. rewrite Hc in Hx. injection Hx as <-. simpl. tauto. }
      rewrite bool_decide_eq_false_2 by lia. reflexivity.
    + rewrite (proj2 (map_lookup_filter_Some _ _ _ c)) by (split; [exact Hc | exact Hyoung]).
      now case_bool_decide.
  - rewrite (proj2 (map_lookup_filter_None _ _ _)) by (left; exact Hc). reflexivity.
Qed.

(** X10: after [clearCache], and after [clearCacheForKey] with the key of
    the call, a [request] is never answered from the cache, whatever was
    stored; [clearCacheForKey] with another key changes neither the answer
    of the call nor what it dispatches. *)
Theorem cleared_cache_is_not_served (e : string) (o : Options) (now : Z) (w : World) :
  (forall d, (request JSON_stringify e o now (clearCache w)).2 <> Cached d)
  /\ (forall d, (request JSON_stringify e o now
                  (clearCacheForKey (generateCacheKey JSON_stringify e o) w)).2
                <> Cached d)
  /\ (forall k, k <> generateCacheKey JSON_stringify e o ->
        (request JSON_stringify e o now (clearCacheForKey k w)).2
        = (request JSON_stringify e o now w).2
        /\ dispatched (request JSON_stringify e o now (clearCacheForKey k w)).1
           = dispatched (request JSON_stringify e o now w).1).
Proof.
  assert (Hnone : forall v, cache v !! generateCacheKey JSON_stringify e o = None ->
            forall d, (request JSON_stringify e o now v).2 <> Cached d).
  { intros v Hv d. unfold request, read_cache. rewrite Hv.
    assert (Hsame : (if cacheable o then (v, @None Payload) else (v, None)) = (v, None))
      by now destruct (cacheable o).
    rewrite Hsame. now destruct (pendingRequests v !! _). }
  split; [|split].
  - apply Hnone. apply lookup_empty.
  - apply Hnone. apply lookup_delete_eq.
  - intros k Hk.
    destruct (request_answer_of_cache e o now w (clearCacheForKey k w)) as (H1 & H2 & _);
      try reflexivity; [|now split].
    unfold read_cache, clearCacheForKey. cbn [cache set_cache].
    rewrite lookup_delete_ne by exact Hk.
    destruct (cacheable o); [|done].
    destruct (cache w !! _); [|done]. now case_bool_decide.
Qed.

End CacheExtras.

Lemma sweep_is_unobservable_witness :
  (Api.request id "/surveys" get_options 400000 (Api.sweep 350000 (Api.world after_first_call))).2
  = (Api.request id "/surveys" get_options 400000 (Api.world after_first_call)).2
  /\ Api.cache (Api.sweep 350000 (Api.world after_first_call)) = ∅
  /\ is_Some (Api.cache (Api.world after_first_call) !! "/surveys_GET_").
Proof.
  split; [|split].
  - exact (proj1 (sweep_is_unobservable id "/surveys" get_options 350000%Z 400000%Z
                    (Api.world after_first_call) ltac:(lia))).
  - vm_compute. reflexivity.
  - vm_compute. eexists. reflexivity.
Defined.

(** * Further properties of the synchronisation *)

Section SyncExtras.
Import Sync.

Variables now fresh : string.
Variable remote : list ApiCall -> option string.

Lemma run_await (c : ApiCall) (k : option string -> World -> Task) (w : World) :
  run remote (await c k w)
  = run remote (k (remote (calls w ++ [c])) (log_call c w)).
Proof. reflexivity. Qed.

(** The loop over the stored queue issues the call of each entry in turn,
    whatever the answers, and touches nothing but the stored queue. *)
Lemma offlineLoop_run (all items : list OfflineItem) (successfulSyncs : list string)
    (k : World -> Task) (w : World) :
  exists q,
    run remote (offlineLoop now fresh all items successfulSyncs k w)
    = run remote
        (k (mkWorld (isSyncing w) (lastSyncTime w) q (userResponses w) (surveys w)
              (results w) (online w) (calls w ++ omap item_call items) (toasts w))).
Proof.
  revert successfulSyncs w.
  induction items as [|item more IH]; intros successfulSyncs w.
  - simpl. rewrite app_nil_r. case_bool_decide.
    + eexists. reflexivity.
    + exists (offlineData w). now destruct w.
  - assert (Hskip : forall ss, item_call item = None ->
              exists q, run remote (offlineLoop now fresh all more ss k w)
                = run remote
                    (k (mkWorld (isSyncing w) (lastSyncTime w) q (userResponses w)
                          (surveys w) (results w) (online w)
                          (calls w ++ omap item_call (item :: more)) (toasts w)))).
    { intros ss Hnone. simpl. rewrite Hnone. apply IH. }
    assert (Hcall : forall c, item_call item = Some c ->
              exists q,
                run remote (await c (fun r w' =>
                  match r with
                  | Some _ => offlineLoop now fresh all more (successfulSyncs ++ [id item]) k w'
                  | None => offlineLoop now fresh all more successfulSyncs k w'
                  end) w)
                = run remote
                    (k (mkWorld (isSyncing w) (lastSyncTime w) q (userResponses w)
                          (surveys w) (results w) (online w)
                          (calls w ++ omap item_call (item :: more)) (toasts w)))).
    { intros c Hsome. rewrite run_await. simpl omap. rewrite Hsome.
      destruct (remote (calls w ++ [c])).
      - destruct (IH (successfulSyncs ++ [id item]) (log_call c w)) as [q Hq].
        exists q. rewrite Hq. simpl. now rewrite <- app_assoc.
      - destruct (IH successfulSyncs (log_call c w)) as [q Hq].
        exists q. rewrite Hq. simpl. now rewrite <- app_assoc. }
    cbn [offlineLoop]. unfold item_call in Hskip, Hcall.
    destruct (type item) as [name|entries]; [|now apply Hskip].
    repeat case_bool_decide; try (now apply Hcall); [|now apply Hskip].
    destruct (data item); [now apply Hcall | now apply Hskip].
Qed.

Lemma responsesLoop_run (entries : list (string * UserResponse))
    (k : World -> Task) (w : World) :
  exists rs,
    run remote (responsesLoop now entries k w)
    = run remote
        (k (mkWorld (isSyncing w) (lastSyncTime w) (offlineData w) rs (surveys w)
              (results w) (online w) (calls w ++ response_calls entries) (toasts w))).
Proof.
  revert w. induction entries as [|[sid response] more IH]; intros w.
  - exists (userResponses w). simpl. rewrite app_nil_r. now destruct w.
  - cbn [responsesLoop]. unfold response_calls. simpl omap.
    destruct (synced response); simpl negb; cbv iota; [apply IH|].
    rewrite run_await.
    destruct (remote (calls w ++ [SubmitSurveyResponse sid (ur_responses response)])).
    + destruct (IH (saveUserResponse sid (ur_responses response) now
                      (log_call (SubmitSurveyResponse sid (ur_responses response)) w)))
        as [rs Hrs].
      exists rs. rewrite Hrs. simpl. now rewrite <- app_assoc.
    + destruct (IH (log_call (SubmitSurveyResponse sid (ur_responses response)) w))
        as [rs Hrs].
      exists rs. rewrite Hrs. simpl. now rewrite <- app_assoc.
Qed.

(** A whole run, from idle and online. *)
Lemma syncAllData_run (w : World) :
  isSyncing w = false -> online w = true ->
  let h := calls w ++ omap item_call (getOfflineData w) in
  let a := remote (h ++ [GetActiveSurveys]) in
  let b := remote (h ++ [GetActiveSurveys; GetRecentResults]) in
  exists q rs,
    run remote (syncAllData now fresh w)
    = mkWorld false (Some now) q rs
        (match a with Some s => Some s | None => surveys w end)
        (match a, b with Some _, Some s' => Some s' | _, _ => results w end)
        true
        (h ++ refresh_calls remote h ++ response_calls (getUserResponses w))
        (toasts w ++ ["تمت مزامنة البيانات بنجاح"]).
Proof.
  intros Hs Ho h a b. unfold syncAllData. rewrite Hs, Ho. simpl negb. cbv iota.
  set (finish := fun w' : World => Done _).
  assert (Hq : exists q,
            run remote (syncOfflineData now fresh
                          (updateLocalData (syncUserResponses now finish))
                          (set_isSyncing true w))
            = run remote (updateLocalData (syncUserResponses now finish)
                (mkWorld true (lastSyncTime w) q (userResponses w) (surveys w)
                   (results w) true h (toasts w)))).
  { unfold syncOfflineData. case_bool_decide as Hlen.
    - exists (offlineData w). subst h.
      change (getOfflineData (set_isSyncing true w)) with (getOfflineData w) in Hlen.
      apply nil_length_inv in Hlen. rewrite Hlen. simpl. rewrite app_nil_r.
      unfold set_isSyncing. now rewrite Ho.
    - destruct (offlineLoop_run (getOfflineData (set_isSyncing true w))
                  (getOfflineData (set_isSyncing true w)) []
                  (updateLocalData (syncUserResponses now finish))
                  (set_isSyncing true w)) as [q Hq].
      exists q. rewrite Hq. simpl. now rewrite Ho. }
  destruct Hq as [q Hq]. rewrite Hq. clear Hq.
  unfold updateLocalData. rewrite run_await. cbn [calls log_call].
  fold a. unfold refresh_calls. fold a.
  destruct a as [s|].
  - rewrite run_await. cbn [calls log_call saveSurveys set_surveys].
    rewrite <- app_assoc. simpl app at 1. fold b.
    unfold syncUserResponses.
    destruct b as [s'|].
    + match goal with |- context [responsesLoop now ?es ?k ?v] =>
        destruct (responsesLoop_run es k v) as [rs Hrs] end.
      exists q, rs. rewrite Hrs. subst finish. simpl.
      now rewrite <- !app_assoc.
    + match goal with |- context [responsesLoop now ?es ?k ?v] =>
        destruct (responsesLoop_run es k v) as [rs Hrs] end.
      exists q, rs. rewrite Hrs. subst finish. simpl.
      now rewrite <- !app_assoc.
  - unfold syncUserResponses.
    match goal with |- context [responsesLoop now ?es ?k ?v] =>
      destruct (responsesLoop_run es k v) as [rs Hrs] end.
    exists q, rs. rewrite Hrs. subst finish. simpl.
    now rewrite <- !app_assoc.
Qed.

End SyncExtras.


Section SyncRunExtras.
Import Sync.

(** X11: in a run that starts (idle and online) and is resumed, after each
    call, in the world the call left, that is while nothing else writes the
    store, the calls are fixed by what is stored when the run starts,
    whatever the server answers: first the call of each entry of the offline
    queue, in queue order (an entry of unknown type or without data gets
    none), then [getActiveSurveys], then [getRecentResults] if the surveys
    arrived, then one submission for each stored response that is not marked
    as synced, in the order in which [Object.keys] lists the responses
    (identifiers that are array indices first, ascending, then the others in
    the order of their creation).  A call that fails never ends the run nor
    is it repeated within the run.  ([syncUserResponses] reads the responses
    when its phase begins: what other code stores while the run is suspended
    before that is outside this statement.) *)
Theorem syncAllData_call_order (now fresh : string)
    (remote : list ApiCall -> option string) (w : World) :
  isSyncing w = false -> online w = true ->
  let h := calls w ++ omap item_call (getOfflineData w) in
  calls (run remote (syncAllData now fresh w))
  = h ++ refresh_calls remote h ++ response_calls (getUserResponses w).
Proof.
  intros Hs Ho h.
  destruct (syncAllData_run now fresh remote w Hs Ho) as (q & rs & Hrun).
  cbv zeta in Hrun. now rewrite Hrun.
Qed.

(** X12: a run that starts always ends as a success: every failure of a
    call is caught inside its phase, so whatever the server answers (also
    when it rejects every call) the run sets [lastSyncTime], shows the
    success toast and no other, and leaves [isSyncing] false. *)
Theorem syncAllData_always_reports_success (now fresh : string)
    (remote : list ApiCall -> option string) (w : World) :
  isSyncing w = false -> online w = true ->
  let w' := run remote (syncAllData now fresh w) in
  isSyncing w' = false
  /\ lastSyncTime w' = Some now
  /\ toasts w' = toasts w ++ ["تمت مزامنة البيانات بنجاح"].
Proof.
  intros Hs Ho w'.
  destruct (syncAllData_run now fresh remote w Hs Ho) as (q & rs & Hrun).
  cbv zeta in Hrun. subst w'. now rewrite Hrun.
Qed.

(** X13: what a run stores of the server's data: the surveys are replaced
    exactly when [getActiveSurveys] resolves, by what it resolves with; the
    results are replaced exactly when both [getActiveSurveys] and
    [getRecentResults] resolve.  When the surveys do not arrive both stored
    snapshots stay as they were; when only the results fail, the surveys are
    new and the results old. *)
Theorem syncAllData_refreshes_snapshots (now fresh : string)
    (remote : list ApiCall -> option string) (w : World) :
  isSyncing w = false -> online w = true ->
  let h := calls w ++ omap item_call (getOfflineData w) in
  let w' := run remote (syncAllData now fresh w) in
  surveys w' = match remote (h ++ [GetActiveSurveys]) with
               | Some s => Some s
               | None => surveys w
               end
  /\ results w' = match remote (h ++ [GetActiveSurveys]),
                        remote (h ++ [GetActiveSurveys; GetRecentResults]) with
                  | Some _, Some s' => Some s'
                  | _, _ => results w
                  end.
Proof.
  intros Hs Ho h w'.
  destruct (syncAllData_run now fresh remote w Hs Ho) as (q & rs & Hrun).
  cbv zeta in Hrun. subst w'. now rewrite Hrun.
Qed.

(** X14: a response saved for a survey whose identifier is not
    ["__proto__"] is what [getUserResponse] returns for it, with the time of
    saving and without a sync flag; what [getUserResponse] returns for the
    other surveys does not change; saving again for the same survey replaces
    the record (the last one is returned and the object does not grow), a
    first save adds one record.  A response saved under ["__proto__"], when
    no record of that name is stored, is lost: the assignment changes the
    prototype of the object read back, and what is stored holds the records
    it held before. *)
Theorem saveUserResponse_round_trip (sid rs now : string) (w : World) :
  (sid <> "__proto__" ->
     getUserResponse sid (saveUserResponse sid rs now w)
       = Stored (mkUserResponse rs now false None)
     /\ (forall sid', sid' <> sid ->
           getUserResponse sid' (saveUserResponse sid rs now w)
             = getUserResponse sid' w)
     /\ (forall rs' now',
           getUserResponse sid
             (saveUserResponse sid rs' now' (saveUserResponse sid rs now w))
             = Stored (mkUserResponse rs' now' false None)
           /\ length (getUserResponses
                        (saveUserResponse sid rs' now' (saveUserResponse sid rs now w)))
              = length (getUserResponses (saveUserResponse sid rs now w)))
     /\ length (getUserResponses (saveUserResponse sid rs now w))
        = match obj_get sid (getUserResponses w) with
          | Some _ => length (getUserResponses w)
          | None => S (length (getUserResponses w))
          end)
  /\ (obj_get "__proto__" (getUserResponses w) = None ->
      (forall sid', getUserResponse sid' (saveUserResponse "__proto__" rs now w)
                    = getUserResponse sid' w)
      /\ getUserResponse "__proto__" (saveUserResponse "__proto__" rs now w) = Inherited
      /\ length (getUserResponses (saveUserResponse "__proto__" rs now w))
         = length (getUserResponses w)).
Proof.
  assert (Hread : forall sid0 rs0 now0 w0 k,
            obj_get k (getUserResponses (saveUserResponse sid0 rs0 now0 w0))
            = obj_get k (obj_set sid0 (mkUserResponse rs0 now0 false None)
                           (getUserResponses w0))).
  { intros sid0 rs0 now0 w0 k. unfold saveUserResponse, getUserResponses at 1. simpl.
    apply obj_get_parse, obj_set_NoDup, parse_object_NoDup. }
  assert (Hlen : forall sid0 rs0 now0 w0,
            length (getUserResponses (saveUserResponse sid0 rs0 now0 w0))
            = length (obj_set sid0 (mkUserResponse rs0 now0 false None)
                        (getUserResponses w0))).
  { intros sid0 rs0 now0 w0. unfold saveUserResponse, getUserResponses at 1. simpl.
    apply parse_object_length, obj_set_NoDup, parse_object_NoDup. }
  assert (Hsave : forall sid0 rs0 now0 w0, sid0 <> "__proto__" ->
            getUserResponse sid0 (saveUserResponse sid0 rs0 now0 w0)
            = Stored (mkUserResponse rs0 now0 false None)).
  { intros sid0 rs0 now0 w0 Hne. unfold getUserResponse.
    rewrite Hread, obj_get_set by (now left).
    now rewrite bool_decide_eq_true_2. }
  split.
  - intros Hne. split; [now apply Hsave|]. split; [|split].
    + intros sid' Hsid'. unfold getUserResponse.
      rewrite Hread, obj_get_set by (now left).
      now rewrite bool_decide_eq_false_2.
    + intros rs' now'. split; [now apply Hsave|].
      rewrite (Hlen sid rs' now'), obj_set_length by (now left).
      rewrite Hread, obj_get_set by (now left).
      now rewrite bool_decide_eq_true_2.
    + rewrite Hlen. apply obj_set_length. now left.
  - intros Hnone.
    assert (Hsame : forall k,
              obj_get k (getUserResponses (saveUserResponse "__proto__" rs now w))
              = obj_get k (getUserResponses w))
      by (intros k; now rewrite Hread, obj_set_proto).
    split; [|split].
    + intros sid'. unfold getUserResponse. now rewrite Hsame.
    + unfold getUserResponse. now rewrite Hsame, Hnone.
    + now rewrite Hlen, obj_set_proto.
Qed.

End SyncRunExtras.

Lemma syncAllData_call_order_witness :
  Sync.calls (Sync.run remote_down (Sync.syncAllData "t1" "id1" busy_world))
  = [Sync.SubmitSurveyResponse "s1" "{'q1':'yes'}";
     Sync.Feedback (Some (Sync.mkItemData "" "" "thanks"));
     Sync.GetActiveSurveys;
     Sync.SubmitSurveyResponse "s2" "{'q1':'no'}"]
  /\ Sync.calls (Sync.run remote_down (Sync.syncAllData "t1" "id1" numbered_world))
     = [Sync.GetActiveSurveys;
        Sync.SubmitSurveyResponse "9" "{'q1':'yes'}";
        Sync.SubmitSurveyResponse "10" "{'q1':'yes'}";
        Sync.SubmitSurveyResponse "s2" "{'q1':'no'}"].
Proof.
  split.
  - exact (syncAllData_call_order "t1" "id1" remote_down busy_world eq_refl eq_refl).
  - exact (syncAllData_call_order "t1" "id1" remote_down numbered_world
             eq_refl eq_refl).
Defined.

Lemma saveUserResponse_round_trip_witness :
  let w := Sync.saveUserResponse "7" "{'q1':'yes'}" "t1" numbered_world in
  (Sync.getUserResponses w).*1 = ["7"; "9"; "10"; "s2"]
  /\ getUserResponse "7" w = Stored (Sync.mkUserResponse "{'q1':'yes'}" "t1" false None)
  /\ getUserResponse "__proto__"
       (Sync.saveUserResponse "__proto__" "{'q1':'yes'}" "t1" numbered_world)
     = Inherited
  /\ (Sync.getUserResponses
        (Sync.saveUserResponse "__proto__" "{'q1':'yes'}" "t1" numbered_world)).*1
     = ["9"; "10"; "s2"].
Proof.
  cbv zeta.
  destruct (saveUserResponse_round_trip "7" "{'q1':'yes'}" "t1" numbered_world)
    as [Hsave _].
  destruct (Hsave ltac:(discriminate)) as (Hget & _).
  destruct (saveUserResponse_round_trip "__proto__" "{'q1':'yes'}" "t1" numbered_world)
    as [_ Hproto].
  destruct (Hproto eq_refl) as (_ & Hin & _).
  split; [reflexivity|]. split; [exact Hget|]. split; [exact Hin | reflexivity].
Defined.

Lemma syncAllData_always_reports_success_witness :
  let w' := Sync.run remote_down (Sync.syncAllData "t1" "id1" busy_world) in
  Sync.isSyncing w' = false
  /\ Sync.lastSyncTime w' = Some "t1"
  /\ Sync.toasts w' = ["تمت مزامنة البيانات بنجاح"].
Proof.
  exact (syncAllData_always_reports_success "t1" "id1" remote_down busy_world
           eq_refl eq_refl).
Defined.

Lemma syncAllData_refreshes_snapshots_witness :
  let w' := Sync.run remote_surveys_only (Sync.syncAllData "t1" "id1" busy_world) in
  Sync.surveys w' = Some "new surveys" /\ Sync.results w' = Some "old results".
Proof.
  exact (syncAllData_refreshes_snapshots "t1" "id1" remote_surveys_only busy_world
           eq_refl eq_refl).
Defined.

(** * Properties of the authentication module *)

Section AuthExtras.
Import Auth.






(** X16: while the form is locked (five or more failed attempts, the last
    one less than [lockoutDuration] ago) a submission sends nothing and
    changes neither the state nor the store, so submissions made meanwhile
    do not extend the lock; a submission made [lockoutDuration] or more
    after the last failed attempt clears the counter and sends the
    credentials. *)
Theorem lock_ends_after_lockout (w : World) (last : Z) (l : list (bool * bool * Z)) :
  maxLoginAttempts <= loginAttempts (state w) ->
  lastLoginAttempt (state w) = Some last ->
  Forall (fun s => (s.2 < last + lockoutDuration)%Z) l ->
  let w' := submissions l w in
  state w' = state w /\ store w' = store w /\ requests w' = requests w
  /\ length (messages w') = length (messages w) + length l
  /\ forall now, (last + lockoutDuration <= now)%Z ->
       (handleLogin true true now w').2 = true
       /\ requests (handleLogin true true now w').1 = requests w ++ [login_endpoint]
       /\ loginAttempts (state (handleLogin true true now w').1) = 0.
Proof.
  intros Hmax Hlast Hall. cbv zeta.
  assert (Hkeep : state (submissions l w) = state w
                  /\ store (submissions l w) = store w
                  /\ requests (submissions l w) = requests w
                  /\ length (messages (submissions l w))
                     = length (messages w) + length l).
  { revert w Hmax Hlast.
    induction Hall as [|s l Hs _ IH]; intros w Hmax Hlast; [simpl; auto with lia|].
    unfold submissions. simpl foldl.
    fold (submissions l (handleLogin s.1.1 s.1.2 s.2 w).1).
    assert (Hstep : (handleLogin s.1.1 s.1.2 s.2 w).1
                    = showAuthError
                        "تم تجاوز عدد المحاولات المسموح بها. الرجاء المحاولة لاحقاً." w).
    { unfold handleLogin, checkLoginRestrictions.
      rewrite bool_decide_eq_true_2 by exact Hmax.
      rewrite Hlast. simpl default. rewrite bool_decide_eq_true_2 by lia. reflexivity. }
    rewrite Hstep.
    destruct (IH (showAuthError
                    "تم تجاوز عدد المحاولات المسموح بها. الرجاء المحاولة لاحقاً." w)
                Hmax Hlast) as (H1 & H2 & H3 & H4).
    rewrite H1, H2, H3, H4. simpl. rewrite length_app. simpl.
    repeat split; lia. }
  destruct Hkeep as (Hst & Hsto & Hreq & Hmsg).
  repeat (split; [assumption|]).
  intros now Hnow. unfold handleLogin, checkLoginRestrictions.
  rewrite Hst. rewrite bool_decide_eq_true_2 by exact Hmax.
  rewrite Hlast. simpl default. rewrite bool_decide_eq_false_2 by lia.
  simpl. now rewrite Hreq.
Qed.

(** X17: the lock is kept in the state of the page only: after the page
    has been loaded anew, [init] leaves the counter of failed attempts at 0
    whatever it was before, and the next submission with a well-formed
    address and password sends the credentials. *)
Theorem reload_lifts_lock (w : World) (now now' : Z) :
  let w' := (init now (reload w)).1 in
  loginAttempts (state w') = 0
  /\ (handleLogin true true now' w').2 = true
  /\ requests (handleLogin true true now' w').1 = requests w' ++ [login_endpoint].
Proof.
  cbv zeta.
  assert (H0 : loginAttempts (state (init now (reload w)).1) = 0).
  { unfold init, checkSessionValidity, logout, restoreSession, reload. simpl.
    destruct (token (store w)) as [t|]; [|reflexivity].
    destruct (userData (store w)) as [u|]; [|reflexivity].
    destruct (session (store w)) as [se|]; [|reflexivity].
    repeat (case_bool_decide; simpl); reflexivity. }
  split; [exact H0|].
  unfold handleLogin, checkLoginRestrictions. rewrite H0.
  rewrite bool_decide_eq_false_2 by (unfold maxLoginAttempts; lia).
  split; reflexivity.
Qed.

(** X18: after a granted login at time [t], a page loaded at time [now]
    restores the session (same user, same start time, the store as the login
    left it) exactly when [now - t] is less than [sessionTimeout] (24 hours);
    otherwise it restores nothing and empties the store.  A page that stays
    open starts the logout only when the age exceeds [sessionTimeout]: at an
    age of exactly [sessionTimeout] it stays logged in while a page loaded
    anew is refused. *)
Theorem session_restored_within_timeout (w : World) (tok user : string)
    (remember : bool) (t now : Z) :
  tok <> "" ->
  let w1 := handleLogin_resume (Granted tok user) remember t w in
  let r := restoreSession now (reload w1) in
  isAuthenticated (state w1) = true
  /\ (if bool_decide (now - t < sessionTimeout)%Z
      then r.2 = true
           /\ currentUser (state r.1) = Some user
           /\ isAuthenticated (state r.1) = true
           /\ sessionStartTime (state r.1) = Some t
           /\ store r.1 = store w1
      else r.2 = false
           /\ isAuthenticated (state r.1) = false
           /\ store r.1 = empty_store)
  /\ (checkSessionValidity now w1).2 = bool_decide (now - t > sessionTimeout)%Z.
Proof.
  intros Htok. cbv zeta.
  unfold handleLogin_resume, login_resume, trackAuthEvent. simpl.
  destruct (online w); simpl; (split; [reflexivity|]; split).
  - unfold restoreSession, reload. simpl.
    rewrite (bool_decide_eq_false_2 (tok = EmptyString)) by exact Htok.
    case_bool_decide; simpl; auto.
  - unfold checkSessionValidity, logout. simpl. now case_bool_decide.
  - unfold restoreSession, reload. simpl.
    rewrite (bool_decide_eq_false_2 (tok = EmptyString)) by exact Htok.
    case_bool_decide; simpl; auto.
  - unfold checkSessionValidity, logout. simpl. now case_bool_decide.
Qed.

(** X19: [logout] always ends with the local credentials gone, whether the
    server accepts the request, rejects it or is not asked: the store is
    empty, nobody is authenticated, and no later page load restores a
    session.  The requests it causes are, in this order, the one to the
    logout endpoint when a user was authenticated, and, when the logout is
    not silent and the browser is online, the post of the event [logout]
    that [ApiManager.trackEvent] makes; a logout that is not silent writes
    that event to the record of the module, online or not. *)
Theorem logout_clears_everything (w : World) (silent resolved : bool) :
  let w' := logout_completed silent resolved w in
  store w' = empty_store
  /\ isAuthenticated (state w') = false
  /\ currentUser (state w') = None
  /\ requests w'
     = requests w
       ++ (if isAuthenticated (state w) then [logout_endpoint] else [])
       ++ (if negb silent && online w then [analytics_endpoint] else [])
  /\ authEvents w' = authEvents w ++ (if silent then [] else ["logout"])
  /\ forall now, restoreSession now (reload w') = (reload w', false).
Proof.
  cbv zeta. unfold logout_completed, logout, logout_resume, logout_finally,
    trackAuthEvent.
  destruct (isAuthenticated (state w)), silent, (online w) eqn:Ho; simpl;
    rewrite ?Ho; simpl; rewrite ?app_nil_r, <- ?app_assoc; auto 10.
Qed.

(** X20: nothing in the module writes the refresh token, so as long as the
    store holds none, whatever happens (page loads, submissions, answers of
    the server, session checks, ticks of the refresh timer) the store still
    holds none and [refreshToken] never asks the server: the refresh
    endpoint is not among the requests made. *)
Theorem token_refresh_never_requested (evs : list Event) (w : World) :
  refreshToken_ (store w) = None ->
  refreshToken_ (store (run evs w)) = None
  /\ exists added, requests (run evs w) = requests w ++ added
                   /\ refresh_endpoint ∉ added.
Proof.
  assert (Htrack : forall name v,
            refreshToken_ (store (trackAuthEvent name v)) = refreshToken_ (store v)
            /\ exists added, requests (trackAuthEvent name v) = requests v ++ added
                             /\ refresh_endpoint ∉ added).
  { intros name v. unfold trackAuthEvent. simpl. destruct (online v); simpl.
    - split; [reflexivity|]. exists [analytics_endpoint]. split; [reflexivity|].
      rewrite not_elem_of_cons. split; [discriminate | apply not_elem_of_nil].
    - split; [reflexivity|]. exists []. rewrite app_nil_r.
      split; [reflexivity | apply not_elem_of_nil]. }
  assert (Hone : forall (e : string) v, e <> refresh_endpoint ->
            exists added, requests v ++ [e] = requests v ++ added
                          /\ refresh_endpoint ∉ added).
  { intros e v He. exists [e]. split; [reflexivity|].
    rewrite not_elem_of_cons. split; [congruence | apply not_elem_of_nil]. }
  assert (Hnil : forall v : World,
            exists added, requests v = requests v ++ added
                          /\ refresh_endpoint ∉ added).
  { intros v. exists []. rewrite app_nil_r. split; [reflexivity | apply not_elem_of_nil]. }
  assert (Hfinally : forall silent v,
            refreshToken_ (store (logout_finally silent v)) = None
            /\ exists added, requests (logout_finally silent v) = requests v ++ added
                             /\ refresh_endpoint ∉ added).
  { intros silent v. unfold logout_finally.
    destruct silent; [split; [reflexivity | exact (Hnil v)]|].
    destruct (Htrack "logout"
                (set_state
                   (mkState None false false (loginAttempts (state v))
                      (lastLoginAttempt (state v)) None false)
                   (clearStoredData v))) as [Hs Hr].
    split; [now rewrite Hs | exact Hr]. }
  assert (Hlogout : forall silent v, refreshToken_ (store v) = None ->
            refreshToken_ (store (logout silent v).1) = None
            /\ exists added, requests (logout silent v).1 = requests v ++ added
                             /\ refresh_endpoint ∉ added).
  { intros silent v Hv. unfold logout. destruct (isAuthenticated (state v)); simpl.
    - split; [exact Hv | now apply Hone].
    - apply Hfinally. }
  assert (Hlogin : forall o remember now v, refreshToken_ (store v) = None ->
            refreshToken_ (store (login_resume o remember now v)) = None
            /\ exists added, requests (login_resume o remember now v)
                             = requests v ++ added
                             /\ refresh_endpoint ∉ added).
  { intros o remember now v Hv. destruct o as [tok user|m|]; simpl.
    - match goal with |- context [trackAuthEvent ?n ?v'] =>
        destruct (Htrack n v') as [Hs Hr] end.
      rewrite Hs. simpl. split; [exact Hv | exact Hr].
    - split; [exact Hv | apply Hnil].
    - destruct (Htrack "login_failed" v) as [Hs Hr].
      rewrite Hs. split; [exact Hv | exact Hr]. }
  assert (Hstep : forall ev v, refreshToken_ (store v) = None ->
            refreshToken_ (store (step v ev)) = None
            /\ exists added, requests (step v ev) = requests v ++ added
                             /\ refresh_endpoint ∉ added).
  { intros ev v Hv.
    destruct ev as [now|ve vp now|o remember now| |o remember now|silent
                   |silent resolved|onLine|now| |o]; cbn [step].
    - unfold init, checkSessionValidity.
      assert (Hrs : refreshToken_ (store (restoreSession now (reload v)).1) = None
                    /\ requests (restoreSession now (reload v)).1 = requests v).
      { unfold restoreSession, reload. simpl.
        destruct (token (store v)) as [t|]; [|auto].
        destruct (userData (store v)) as [u|]; [|auto].
        destruct (session (store v)) as [se|]; [|auto].
        repeat (case_bool_decide; simpl); auto. }
      destruct Hrs as [Hs Hr]. rewrite <- Hr.
      destruct (negb (isAuthenticated (state (restoreSession now (reload v)).1)));
        [split; [exact Hs | apply Hnil]|].
      case_bool_decide; [|split; [exact Hs | apply Hnil]].
      now apply Hlogout.
    - unfold handleLogin, checkLoginRestrictions.
      repeat (case_bool_decide; simpl); destruct ve, vp; simpl;
        (split; [exact Hv|]); try exact (Hnil v); now apply Hone.
    - destruct o as [tok user|m|].
      + destruct (Hlogin (Granted tok user) remember now v Hv) as [Hs (added & Hr & Hn)].
        split; [exact Hs|]. exists added. split; [exact Hr | exact Hn].
      + simpl. unfold recordLoginAttempt. simpl.
        case_bool_decide; simpl; (split; [exact Hv | exact (Hnil v)]).
      + destruct (Hlogin Rejected remember now v Hv) as [Hs (added & Hr & Hn)].
        cbn [handleLogin_resume]. unfold recordLoginAttempt. simpl.
        case_bool_decide; simpl; (split; [exact Hs|]); exists added; auto.
    - split; [exact Hv | now apply Hone].
    - now apply Hlogin.
    - now apply Hlogout.
    - apply Hfinally.
    - split; [exact Hv | exact (Hnil v)].
    - unfold checkSessionValidity.
      destruct (negb (isAuthenticated (state v))); [split; [exact Hv | exact (Hnil v)]|].
      case_bool_decide; [now apply Hlogout | split; [exact Hv | exact (Hnil v)]].
    - unfold refreshToken. rewrite Hv.
      destruct (negb (isAuthenticated (state v))); split; auto.
    - destruct o; cbn [refreshToken_resume];
        [split; [exact Hv | exact (Hnil v)] | split; [exact Hv | exact (Hnil v)]
        | now apply Hlogout]. }
  revert w. induction evs as [|ev evs IH]; intros w Hnone.
  - split; [exact Hnone | apply Hnil].
  - destruct (Hstep ev w Hnone) as (Hnone' & added1 & Hreq1 & Hnot1).
    destruct (IH (step w ev) Hnone') as (Hend & added2 & Hreq2 & Hnot2).
    change (run (ev :: evs) w) with (run evs (step w ev)).
    split; [exact Hend|]. exists (added1 ++ added2).
    rewrite Hreq2, Hreq1, <- app_assoc. split; [reflexivity|].
    rewrite not_elem_of_app. auto.
Qed.

End AuthExtras.


Lemma lock_ends_after_lockout_witness :
  let w' := submissions [(true, true, 60000%Z); (false, true, 904499%Z)] locked_world in
  Auth.state w' = Auth.state locked_world
  /\ Auth.requests w' = Auth.requests locked_world
  /\ (Auth.handleLogin true true 904500 w').2 = true.
Proof.
  destruct (lock_ends_after_lockout locked_world 4500%Z
              [(true, true, 60000%Z); (false, true, 904499%Z)])
    as (Hst & _ & Hreq & _ & Hnext).
  - vm_compute. lia.
  - reflexivity.
  - unfold Auth.lockoutDuration. repeat (constructor; [simpl; lia|]). constructor.
  - cbv zeta. split; [exact Hst|]. split; [exact Hreq|].
    apply (Hnext 904500%Z). unfold Auth.lockoutDuration. lia.
Defined.

Lemma session_restored_within_timeout_witness :
  let w1 := Auth.handleLogin_resume (Auth.Granted "tok1" "amal") true 1000 Auth.start in
  (Auth.restoreSession 86400999 (Auth.reload w1)).2 = true
  /\ (Auth.restoreSession 86401000 (Auth.reload w1)).2 = false
  /\ (Auth.checkSessionValidity 86401000 w1).2 = false.
Proof.
  cbv zeta.
  destruct (session_restored_within_timeout Auth.start "tok1" "amal" true 1000%Z
              86400999%Z ltac:(discriminate)) as (_ & Hyoung & _).
  destruct (session_restored_within_timeout Auth.start "tok1" "amal" true 1000%Z
              86401000%Z ltac:(discriminate)) as (_ & Hold & Hcheck).
  split; [exact (proj1 Hyoung)|]. split; [exact (proj1 Hold) | exact Hcheck].
Defined.

Lemma token_refresh_never_requested_witness :
  Auth.refreshToken_ (Auth.store (Auth.run auth_day Auth.start)) = None
  /\ Auth.requests (Auth.run auth_day Auth.start)
     = [Auth.login_endpoint; Auth.analytics_endpoint; Auth.logout_endpoint;
        Auth.login_endpoint; Auth.analytics_endpoint; Auth.logout_endpoint].
Proof.
  split; [|reflexivity].
  exact (proj1 (token_refresh_never_requested auth_day Auth.start eq_refl)).
Defined.

(** * Properties of the analytics session *)

Section SessionExtras.
Import Session.

Lemma init_continues (l : Load) (w : World) (st : State) (t : Z) :
  storedSession w = Some (mkSaved st t) ->
  (at_time l - t < sessionTimeout)%Z ->
  let st' := mkState (sessionId st) (userId st) (sessionStartTime st)
               (S (pageViewCount st)) in
  init l w = mkWorld st' (Some (mkSaved st' (at_time l))) (anonymousId w).
Proof.
  intros Hst Hclose. cbv zeta. unfold init, initializeSession. simpl.
  rewrite Hst. simpl. rewrite bool_decide_eq_true_2 by exact Hclose. reflexivity.
Qed.

Lemma init_starts (l : Load) (w : World) :
  no_session_at (at_time l) w ->
  exists uid anon,
    init l w
    = mkWorld (mkState (Some (fresh_session l)) (Some uid) (Some (at_time l)) 1)
        (Some (mkSaved (mkState (Some (fresh_session l)) (Some uid)
                          (Some (at_time l)) 1) (at_time l)))
        anon
    /\ match user l with
       | Some u => uid = u /\ anon = anonymousId w
       | None =>
           anon = Some uid
           /\ uid = match anonymousId w with
                    | Some a => if bool_decide (a = "") then fresh_anonymous l else a
                    | None => fresh_anonymous l
                    end
       end.
Proof.
  intros Hno. unfold no_session_at in Hno. unfold init, initializeSession. simpl.
  assert (Hnew : match storedSession w with
                 | Some saved =>
                     if bool_decide (at_time l - timestamp saved < sessionTimeout)%Z
                     then Some saved else None
                 | None => None
                 end = None).
  { destruct (storedSession w) as [saved|]; [|reflexivity].
    now rewrite bool_decide_eq_false_2 by lia. }
  rewrite Hnew. destruct (user l) as [u|].
  - exists u, (anonymousId w). split; [reflexivity | split; reflexivity].
  - unfold generateAnonymousId. simpl.
    destruct (anonymousId w) as [a|] eqn:Ha; [case_bool_decide|].
    + exists (fresh_anonymous l), (Some (fresh_anonymous l)). simpl.
      split; [reflexivity | split; reflexivity].
    + exists a, (Some a). simpl.
      split; [now destruct w; simpl in *; subst | split; reflexivity].
    + exists (fresh_anonymous l), (Some (fresh_anonymous l)). simpl.
      split; [reflexivity | split; reflexivity].
Qed.

Lemma loads_continue (ls : list Load) (w : World) (st : State) (t : Z) :
  storedSession w = Some (mkSaved st t) -> close_after t ls ->
  exists t',
    storedSession (loads ls w)
    = Some (mkSaved (mkState (sessionId st) (userId st) (sessionStartTime st)
                       (pageViewCount st + length ls)) t')
    /\ anonymousId (loads ls w) = anonymousId w
    /\ (ls <> [] ->
        state (loads ls w)
        = mkState (sessionId st) (userId st) (sessionStartTime st)
            (pageViewCount st + length ls)).
Proof.
  revert w st t. induction ls as [|l ls IH]; intros w st t Hst Hclose.
  - exists t. simpl. rewrite Nat.add_0_r. split; [now destruct st|]. split; [reflexivity|].
    intros Habs. now contradiction Habs.
  - destruct Hclose as [Hl Hrest].
    pose proof (init_continues l w st t Hst Hl) as Hinit. cbv zeta in Hinit.
    unfold loads. simpl foldl. fold (loads ls (init l w)).
    destruct (IH (init l w) _ (at_time l) ltac:(rewrite Hinit; reflexivity) Hrest)
      as (t' & Hstored & Hanon & Hstate).
    simpl in Hstored, Hstate.
    replace (S (pageViewCount st + length ls))
      with (pageViewCount st + length (l :: ls)) in Hstored, Hstate by (simpl; lia).
    exists t'. split; [exact Hstored|]. split; [rewrite Hanon, Hinit; reflexivity|].
    intros _. destruct ls as [|l' ls'].
    + change (loads [] (init l w)) with (init l w). rewrite Hinit. simpl.
      f_equal. lia.
    + apply Hstate. discriminate.
Qed.

(** X21: a session lasts as long as the page loads follow one another by
    less than [sessionTimeout] (30 minutes), however long ago it started:
    after a load that starts a session and any number of such loads, the
    session identifier and the start time are those of the first load, the
    user identifier is the one fixed at the first load (also when somebody
    has logged in since), and the page views are counted through. *)
Theorem session_continues_across_page_loads (l0 : Load) (ls : list Load) (w : World) :
  no_session_at (at_time l0) w ->
  close_after (at_time l0) ls ->
  let w' := loads (l0 :: ls) w in
  sessionId (state w') = Some (fresh_session l0)
  /\ sessionStartTime (state w') = Some (at_time l0)
  /\ pageViewCount (state w') = S (length ls)
  /\ userId (state w') = userId (state (init l0 w)).
Proof.
  intros Hno Hclose. cbv zeta.
  destruct (init_starts l0 w Hno) as (uid & anon & Hinit & _).
  unfold loads. simpl foldl. fold (loads ls (init l0 w)).
  destruct ls as [|l ls'].
  - change (loads [] (init l0 w)) with (init l0 w). rewrite Hinit. simpl. auto.
  - destruct (loads_continue (l :: ls') (init l0 w) _ (at_time l0)
                ltac:(rewrite Hinit; reflexivity) Hclose) as (t' & _ & _ & Hstate).
    rewrite Hstate by discriminate. rewrite Hinit. simpl. auto.
Qed.

Lemma init_keeps_anonymous (l : Load) (w : World) (a : string) :
  a <> "" -> user l = None ->
  anonymousId w = Some a ->
  (forall saved, storedSession w = Some saved -> userId (saved_state saved) = Some a) ->
  anonymousId (init l w) = Some a
  /\ userId (state (init l w)) = Some a
  /\ (forall saved, storedSession (init l w) = Some saved ->
        userId (saved_state saved) = Some a).
Proof.
  intros Ha Hu Hanon Hsaved. unfold init, initializeSession. simpl.
  rewrite Hu. unfold generateAnonymousId. simpl. rewrite Hanon.
  rewrite (bool_decide_eq_false_2 (a = EmptyString)) by exact Ha.
  destruct (storedSession w) as [saved|] eqn:Hst.
  - specialize (Hsaved saved eq_refl). case_bool_decide; simpl.
    + repeat split; auto. intros sv [= <-]. exact Hsaved.
    + repeat split; auto. intros sv [= <-]. reflexivity.
  - simpl. repeat split; auto. intros sv [= <-]. reflexivity.
Qed.

(** X22: a visitor who never logs in keeps one anonymous identifier: it
    is generated at the first page load ever (nothing stored), and after
    every later page load, whether the session goes on or a new one starts,
    the user identifier of the session is that same identifier. *)
Theorem anonymous_id_is_stable (l0 : Load) (ls : list Load) :
  fresh_anonymous l0 <> "" ->
  Forall (fun l => user l = None) (l0 :: ls) ->
  let w' := loads (l0 :: ls) (mkWorld initial_state None None) in
  userId (state w') = Some (fresh_anonymous l0)
  /\ anonymousId w' = Some (fresh_anonymous l0).
Proof.
  intros Hfresh Hall. cbv zeta.
  apply Forall_cons in Hall as [Hu0 Hall].
  unfold loads. simpl foldl.
  set (w1 := init l0 (mkWorld initial_state None None)).
  assert (Hinv : anonymousId w1 = Some (fresh_anonymous l0)
                 /\ userId (state w1) = Some (fresh_anonymous l0)
                 /\ (forall saved, storedSession w1 = Some saved ->
                       userId (saved_state saved) = Some (fresh_anonymous l0))).
  { subst w1. unfold init, initializeSession. simpl. rewrite Hu0. simpl.
    repeat split. intros sv [= <-]. reflexivity. }
  clearbody w1. revert w1 Hinv.
  induction Hall as [|l ls Hu _ IH]; intros w1 (Hanon & Huid & Hsaved).
  - simpl. auto.
  - simpl foldl. apply IH.
    now apply init_keeps_anonymous.
Qed.

End SessionExtras.

Lemma session_continues_across_page_loads_witness :
  let w' := loads (first_load :: later_loads) first_visit in
  Session.sessionId (Session.state w') = Some "session_0_k3x"
  /\ Session.sessionStartTime (Session.state w') = Some 0%Z
  /\ Session.pageViewCount (Session.state w') = 3
  /\ Session.userId (Session.state w') = Some "anon_p9q_0".
Proof.
  apply (session_continues_across_page_loads first_load later_loads first_visit).
  - exact I.
  - vm_compute. repeat split.
Defined.

Lemma anonymous_id_is_stable_witness :
  let w' := loads [first_load; late_load] first_visit in
  Session.userId (Session.state w') = Some "anon_p9q_0"
  /\ Session.anonymousId w' = Some "anon_p9q_0"
  /\ Session.sessionId (Session.state w') = Some "session_9600000_ghi".
Proof.
  cbv zeta.
  destruct (anonymous_id_is_stable first_load [late_load] ltac:(discriminate)
              ltac:(repeat constructor)) as [Hu Ha].
  split; [exact Hu|]. split; [exact Ha | reflexivity].
Defined.

(** * Properties of the local record of events *)

Section TrackerExtras.
Import Tracker.

Lemma run_app (l1 l2 : list Step) (w : World) :
  run (l1 ++ l2) w = run l2 (run l1 w).
Proof. unfold run. apply foldl_app. Qed.

(** X23: [trackEvent] hands to the gateway the event it is called with
    when the browser is online, and nothing else: an event tracked offline,
    or whose request failed, is only written to the local record and never
    sent later.  When a request is delivered the whole local record is
    removed, and with it the events that were never sent; as long as no
    request is delivered the record keeps every event tracked, in order. *)
Theorem offline_events_are_never_sent (l : list Step) (w : World) :
  posted (run l w) = posted w ++ omap tracked_online l
  /\ events (run (l ++ [Settles true]) w) = None
  /\ (Forall (fun s => is_delivery s = false) l ->
      default [] (events (run l w)) = default [] (events w) ++ omap tracked l).
Proof.
  split; [|split].
  - revert w. induction l as [|s l IH]; intros w; [simpl; now rewrite app_nil_r|].
    change (run (s :: l) w) with (run l (step w s)). rewrite IH.
    destruct s as [e [|]|resolved]; simpl.
    + now rewrite <- app_assoc.
    + reflexivity.
    + now destruct resolved.
  - rewrite run_app. reflexivity.
  - intros Hall. revert w.
    induction Hall as [|s l Hs _ IH]; intros w; [simpl; now rewrite app_nil_r|].
    change (run (s :: l) w) with (run l (step w s)). rewrite IH.
    destruct s as [e [|]|[|]]; simpl; try discriminate;
      rewrite <- ?app_assoc; reflexivity.
Qed.

End TrackerExtras.

Lemma offline_events_are_never_sent_witness :
  let l := [Tracker.Track ev_offline false; Tracker.Track ev_online true] in
  Tracker.posted (Tracker.run l (Tracker.mkWorld None [])) = [ev_online]
  /\ Tracker.events (Tracker.run l (Tracker.mkWorld None []))
     = Some [ev_offline; ev_online]
  /\ Tracker.events (Tracker.run (l ++ [Tracker.Settles true]) (Tracker.mkWorld None []))
     = None.
Proof.
  cbv zeta.
  destruct (offline_events_are_never_sent
              [Tracker.Track ev_offline false; Tracker.Track ev_online true]
              (Tracker.mkWorld None [])) as (Hp & Hn & _).
  split; [exact Hp|]. split; [reflexivity | exact Hn].
Defined.

